(** * DigitNetJS: the MNIST data loader of [js/data.js]

    A shallow embedding of the class [MnistData]: the retry wrappers around
    the two network loads, the sprite decoder, the validation and the
    partitioning done by [load], and the shuffled batch sampler
    ([nextTrainBatch], [nextTestBatch], [nextBatch]).

    JavaScript numbers that hold array sizes, offsets and cursors are
    integers here ([Z]), with [NaN] added where the code can produce it.
    Pixel values and the train/test ratio are IEEE binary64 floats
    ([PrimFloat]), rounded to binary32 where the code stores them in a
    [Float32Array].  Typed arrays are lists.  The object [this] is a record
    threaded through a state-and-exception monad.  What the network, the
    canvas and [tf.util.createShuffledIndices] give is an argument of the
    functions that use it, and so is the engine, for the length of the
    buffers it allocates; console output is left out. *)

From Stdlib Require Import ZArith List String Lia Bool Floats Permutation.
From Stdlib Require Import DecimalString.
Import ListNotations.
Local Open Scope Z_scope.

(** ** JavaScript values, typed arrays and exceptions *)

Module Js.

(** A number that is an integer or [NaN] (the sampler cursors). *)
Inductive number := Num (z : Z) | NaN.

(** [n + 1]. *)
Definition succ (n : number) : number :=
  match n with Num z => Num (z + 1) | NaN => NaN end.

(** [n % len] for an array length [len]: the remainder has the sign of the
    dividend, and [% 0] is [NaN]. *)
Definition rem (n : number) (len : Z) : number :=
  match n with
  | Num z => if len =? 0 then NaN else Num (Z.rem z len)
  | NaN => NaN
  end.

(** The errors thrown; the messages of those the engine throws itself are
    not fixed by the language, and the ones used here stand for them. *)
Inductive error :=
| Error (message : string)
| TypeError (message : string)
| RangeError (message : string).

Definition message (e : error) : string :=
  match e with Error m | TypeError m | RangeError m => m end.

Inductive result (A : Type) :=
| Ok (a : A)
| Throw (e : error).
Arguments Ok {A} a.
Arguments Throw {A} e.

(** [try { r } catch (error) { throw new Error(prefix + error.message) }]. *)
Definition rethrow {A} (prefix : string) (r : result A) : result A :=
  match r with
  | Ok a => Ok a
  | Throw error => Throw (Error (prefix ++ message error))
  end.

(** [a.length]. *)
Definition length {A} (a : list A) : Z := Z.of_nat (List.length a).

(** [a[i]]; [None] is [undefined]. *)
Definition get {A} (a : list A) (i : number) : option A :=
  match i with
  | Num z => if z <? 0 then None else nth_error a (Z.to_nat z)
  | NaN => None
  end.

(** The largest length the language lets an array or a buffer have,
    2^53 - 1: a larger one is a RangeError on every engine. *)
Definition MAX_SAFE_INTEGER : Z := 9007199254740991.

(** [new T(n)] for a typed array class [T] whose elements take [bytes]
    bytes each, on an engine whose buffers hold [limit] bytes at most: [n]
    zeroes, or the RangeError of a length that is negative or that the
    engine does not allocate. *)
Definition new_array {A} (limit bytes : Z) (zero : A) (n : Z)
    : result (list A) :=
  if (n <? 0) || (limit <? n * bytes)
  then Throw (RangeError "Invalid typed array length")
  else Ok (repeat zero (Z.to_nat n)).

(** A relative index of [slice], clamped to the array. *)
Definition clamp (len k : Z) : Z :=
  if k <? 0 then Z.max (len + k) 0 else Z.min k len.

(** [a.slice(b, e)]. *)
Definition slice {A} (a : list A) (b e : Z) : list A :=
  let first := clamp (length a) b in
  let final := clamp (length a) e in
  firstn (Z.to_nat (final - first)) (skipn (Z.to_nat first) a).

(** [a.slice(b)]. *)
Definition slice_from {A} (a : list A) (b : Z) : list A :=
  slice a b (length a).

(** [target.set(src, offset)] between typed arrays of one element type. *)
Definition set {A} (target src : list A) (offset : Z) : result (list A) :=
  if offset <? 0 then Throw (RangeError "offset is out of bounds")
  else if length target <? offset + length src
  then Throw (RangeError "offset is out of bounds")
  else Ok (firstn (Z.to_nat offset) target ++ src
           ++ skipn (Z.to_nat (offset + length src)) target).

(** [a[k] = v] on a typed array: a write outside the array is dropped. *)
Definition store {A} (a : list A) (k : Z) (v : A) : list A :=
  if (0 <=? k) && (k <? length a)
  then firstn (Z.to_nat k) a ++ v :: skipn (Z.to_nat (k + 1)) a
  else a.

(** The value a [Float32Array] keeps of a binary64 number: rounded to
    binary32, to nearest, ties to even. *)
Definition fround (x : float) : float :=
  match Prim2SF x with
  | S754_finite s m e => SF2Prim (binary_round 24 128 s m e)
  | _ => x
  end.

(** [Math.floor]; [None] for an infinity or [NaN]. *)
Definition Math_floor (x : float) : option Z :=
  match Prim2SF x with
  | S754_zero _ => Some 0
  | S754_finite s m e =>
      let q := if 0 <=? e then Z.shiftl (Zpos m) e
               else Z.shiftr (Zpos m) (- e) in
      let exact := if 0 <=? e then true
                   else Zpos m =? Z.shiftl q (- e) in
      Some (if s then (if exact then - q else - q - 1) else q)
  | _ => None
  end.

(** The float of a small non-negative integer. *)
Definition of_Z (z : Z) : float := PrimFloat.of_uint63 (Uint63.of_Z z).

(** The decimal text of an integer inside a template string. *)
Definition to_string (z : Z) : string := NilZero.string_of_int (Z.to_int z).

End Js.

Import Js.

(** ** Constants of the module *)

Definition IMAGE_SIZE : Z := 784.
Definition NUM_CLASSES : Z := 10.
Definition NUM_DATASET_ELEMENTS : Z := 65000.
Definition TRAIN_TEST_RATIO : float := (5 / 6)%float.

Definition NUM_TRAIN_ELEMENTS : Z :=
  match Math_floor (TRAIN_TEST_RATIO * of_Z NUM_DATASET_ELEMENTS)%float with
  | Some n => n
  | None => 0
  end.
Definition NUM_TEST_ELEMENTS : Z := NUM_DATASET_ELEMENTS - NUM_TRAIN_ELEMENTS.

Definition MAX_RETRIES : Z := 3.
Definition RETRY_DELAY : Z := 1000.

(** ** The object *)

(** The fields of a [MnistData]; [None] is [null]. *)
Record MnistData := {
  shuffledTrainIndex : number;
  shuffledTestIndex : number;
  datasetImages : option (list float);
  datasetLabels : option (list Z);
  trainIndices : option (list Z);
  testIndices : option (list Z);
  trainImages : option (list float);
  testImages : option (list float);
  trainLabels : option (list Z);
  testLabels : option (list Z)
}.

Definition constructor : MnistData := {|
  shuffledTrainIndex := Num 0;
  shuffledTestIndex := Num 0;
  datasetImages := None;
  datasetLabels := None;
  trainIndices := None;
  testIndices := None;
  trainImages := None;
  testImages := None;
  trainLabels := None;
  testLabels := None
|}.

Definition set_shuffledTrainIndex (c : number) (this : MnistData) : MnistData := {|
  shuffledTrainIndex := c;
  shuffledTestIndex := shuffledTestIndex this;
  datasetImages := datasetImages this;
  datasetLabels := datasetLabels this;
  trainIndices := trainIndices this;
  testIndices := testIndices this;
  trainImages := trainImages this;
  testImages := testImages this;
  trainLabels := trainLabels this;
  testLabels := testLabels this
|}.

Definition set_shuffledTestIndex (c : number) (this : MnistData) : MnistData := {|
  shuffledTrainIndex := shuffledTrainIndex this;
  shuffledTestIndex := c;
  datasetImages := datasetImages this;
  datasetLabels := datasetLabels this;
  trainIndices := trainIndices this;
  testIndices := testIndices this;
  trainImages := trainImages this;
  testImages := testImages this;
  trainLabels := trainLabels this;
  testLabels := testLabels this
|}.

(** ** Methods as state transformers that may throw

    A method maps the object to the object it leaves behind and to what it
    returned or threw: a throw keeps the writes made before it. *)

Definition M (A : Type) : Type := MnistData -> MnistData * result A.

Definition ret {A} (a : A) : M A := fun this => (this, Ok a).

Definition bind {A B} (m : M A) (k : A -> M B) : M B :=
  fun this =>
    match m this with
    | (this', Ok a) => k a this'
    | (this', Throw e) => (this', Throw e)
    end.

(** A computation that does not touch the object. *)
Definition lift {A} (r : result A) : M A := fun this => (this, r).

(** Reading a property of a field that may be [null]. *)
Definition deref {A} (field : option A) : M A :=
  match field with
  | Some a => ret a
  | None => lift (Throw (TypeError "Cannot read properties of null"))
  end.

Declare Scope js_scope.
Delimit Scope js_scope with js.
Notation "x <- m ;; k" := (bind m (fun x => k))
  (at level 61, m at next level, right associativity) : js_scope.
Notation "' pat <- m ;; k" := (bind m (fun x => match x with pat => k end))
  (at level 61, pat pattern, m at next level, right associativity) : js_scope.
Local Open Scope js_scope.

(** ** The engine

    How long a typed array can be is the engine's affair: the language
    only fixes that no buffer is longer than 2^53 - 1 bytes.  The engines
    considered are those that hold the buffer [loadImages] asks for, of
    [NUM_DATASET_ELEMENTS * IMAGE_SIZE * 4] bytes; every other array the
    module creates with a size of its own is shorter. *)
Class Engine := {
  max_byte_length : Z;
  max_byte_length_safe : max_byte_length <= MAX_SAFE_INTEGER;
  holds_corpus : NUM_DATASET_ELEMENTS * IMAGE_SIZE * 4 <= max_byte_length
}.

Section WithEngine.
Context {engine : Engine}.

(** The engine allocates an array of [n] elements of [bytes] bytes each. *)
Definition allocates (bytes n : Z) : Prop := n * bytes <= max_byte_length.

(** ** The batch sampler *)

(** What [tf.tensor2d(values, shape)] packages: a flat buffer and its shape. *)
Record Tensor2D (A : Type) := {
  values : list A;
  shape : Z * Z
}.
#[global] Arguments values {A} t.
#[global] Arguments shape {A} t.

(** [tf.tensor2d]: refuses a buffer whose size is not that of the shape. *)
Definition tensor2d {A} (vals : list A) (shp : Z * Z) : result (Tensor2D A) :=
  if Js.length vals =? fst shp * snd shp
  then Ok {| values := vals; shape := shp |}
  else Throw (Error "Based on the provided shape, the tensor should have a different number of values").

Record Batch := {
  xs : Tensor2D float;
  labels : Tensor2D Z
}.

(** [arr.slice(idx * size, idx * size + size)]; an [undefined] index makes
    both bounds [NaN], which [slice] reads as 0. *)
Definition record_slice {A} (arr : list A) (idx : option Z) (size : Z) : list A :=
  match idx with
  | Some k => slice arr (k * size) (k * size + size)
  | None => slice arr 0 0
  end.

(** The body of the loop of [nextBatch], from iteration [i], [n] iterations
    being left. *)
Fixpoint nextBatch_loop (n : nat) (i : Z)
    (data : option (list float) * option (list Z)) (index : M (option Z))
    (batchImagesArray : list float) (batchLabelsArray : list Z)
    : M (list float * list Z) :=
  match n with
  | O => ret (batchImagesArray, batchLabelsArray)
  | S n' =>
      idx <- index ;;
      images <- deref (fst data) ;;
      let image := record_slice images idx IMAGE_SIZE in
      batchImagesArray' <- lift (Js.set batchImagesArray image (i * IMAGE_SIZE)) ;;
      labels <- deref (snd data) ;;
      let label := record_slice labels idx NUM_CLASSES in
      batchLabelsArray' <- lift (Js.set batchLabelsArray label (i * NUM_CLASSES)) ;;
      nextBatch_loop n' (i + 1) data index batchImagesArray' batchLabelsArray'
  end.

Definition nextBatch (batchSize : Z)
    (data : option (list float) * option (list Z)) (index : M (option Z))
    : M Batch :=
  batchImagesArray <-
    lift (new_array max_byte_length 4 0%float (batchSize * IMAGE_SIZE)) ;;
  batchLabelsArray <-
    lift (new_array max_byte_length 1 0 (batchSize * NUM_CLASSES)) ;;
  ' (images, labels) <-
    nextBatch_loop (Z.to_nat batchSize) 0 data index
      batchImagesArray batchLabelsArray ;;
  xs <- lift (tensor2d images (batchSize, IMAGE_SIZE)) ;;
  labels <- lift (tensor2d labels (batchSize, NUM_CLASSES)) ;;
  ret {| xs := xs; labels := labels |}.

(** The closure [nextTrainBatch] passes as [index]. *)
Definition trainIndex : M (option Z) :=
  fun this =>
    match trainIndices this with
    | None => (this, Throw (TypeError "Cannot read properties of null"))
    | Some indices =>
        let this' :=
          set_shuffledTrainIndex
            (rem (succ (shuffledTrainIndex this)) (Js.length indices)) this in
        (this', Ok (get indices (shuffledTrainIndex this')))
    end.

(** The closure [nextTestBatch] passes as [index]. *)
Definition testIndex : M (option Z) :=
  fun this =>
    match testIndices this with
    | None => (this, Throw (TypeError "Cannot read properties of null"))
    | Some indices =>
        let this' :=
          set_shuffledTestIndex
            (rem (succ (shuffledTestIndex this)) (Js.length indices)) this in
        (this', Ok (get indices (shuffledTestIndex this')))
    end.

Definition nextTrainBatch (batchSize : Z) : M Batch :=
  fun this =>
    nextBatch batchSize (trainImages this, trainLabels this) trainIndex this.

Definition nextTestBatch (batchSize : Z) : M Batch :=
  fun this =>
    nextBatch batchSize (testImages this, testLabels this) testIndex this.

(** ** The retry wrappers *)

(** What a wrapper does besides returning: the attempts it makes and the
    delays it waits for, in order. *)
Inductive event :=
| Attempt (attempt : Z)
| Delay (ms : Z).

(** The loop of [loadImagesWithRetry] and of [loadLabelsWithRetry] from
    iteration [attempt], [n] iterations being left; [op attempt] is what the
    wrapped load does when it is called at that iteration.  A loop that runs
    out returns [undefined] ([Ok None]). *)
Fixpoint retry_loop {A} (n : nat) (attempt retries : Z) (op : Z -> result A)
    : list event * result (option A) :=
  match n with
  | O => ([], Ok None)
  | S n' =>
      match op attempt with
      | Ok a => ([Attempt attempt], Ok (Some a))
      | Throw error =>
          if attempt =? retries then ([Attempt attempt], Throw error)
          else
            let (trace, r) := retry_loop n' (attempt + 1) retries op in
            (Attempt attempt :: Delay (RETRY_DELAY * attempt) :: trace, r)
      end
  end.

(** ** The sprite decoder *)

Definition chunkSize : Z := 5000.

(** [datasetBytesView[j] = v] where the view is the window of [len] floats
    at [offset] of the buffer. *)
Definition view_store (buffer : list float) (offset len j : Z) (v : float)
    : list float :=
  if (0 <=? j) && (j <? len) then store buffer (offset + j) v else buffer.

(** [imageData.data[j * 4] / 255], as the view keeps it. *)
Definition red_channel (data : list Z) (j : Z) : float :=
  match get data (Num (j * 4)) with
  | Some red => fround (of_Z red / 255)
  | None => nan
  end.

(** The loop over the pixels of one chunk, from pixel [j]. *)
Fixpoint pixel_loop (n : nat) (j : Z) (data : list Z) (offset len : Z)
    (buffer : list float) : list float :=
  match n with
  | O => buffer
  | S n' =>
      pixel_loop n' (j + 1) data offset len
        (view_store buffer offset len j (red_channel data j))
  end.

(** The number of [j] with [j < length / 4]. *)
Definition pixel_count (data : list Z) : nat :=
  Z.to_nat ((Js.length data + 3) / 4).

(** The loop over the chunks, from chunk [i]; [canvas i] is the [data] of
    what [getImageData] returns once chunk [i] is drawn, or what the canvas
    throws. *)
Fixpoint chunk_loop (n : nat) (i : Z) (canvas : Z -> result (list Z))
    (buffer : list float) : result (list float) :=
  match n with
  | O => Ok buffer
  | S n' =>
      let offset := i * IMAGE_SIZE * chunkSize in
      let len := IMAGE_SIZE * chunkSize in
      if Js.length buffer * 4 <? offset * 4 + len * 4
      then Throw (RangeError "Invalid typed array length")
      else
        match canvas i with
        | Throw e => Throw e
        | Ok data =>
            chunk_loop n' (i + 1) canvas
              (pixel_loop (pixel_count data) 0 data offset len buffer)
        end
  end.

(** The number of [i] with [i < numElements / chunkSize]. *)
Definition chunk_count (numElements : Z) : nat :=
  Z.to_nat ((numElements + chunkSize - 1) / chunkSize).

(** The decoding done by [img.onload], for a dataset of [numElements]
    examples; the buffer of [numElements * IMAGE_SIZE * 4] bytes is held as
    the floats of 4 bytes its views read. *)
Definition decodeSprite (numElements : Z) (canvas : Z -> result (list Z))
    : result (list float) :=
  match new_array max_byte_length 4 0%float (numElements * IMAGE_SIZE) with
  | Throw e => Throw e
  | Ok datasetBytesBuffer =>
      chunk_loop (chunk_count numElements) 0 canvas datasetBytesBuffer
  end.

(** How the image request ends. *)
Inductive image_event :=
| Loaded (canvas : Z -> result (list Z))
| Failed
| TimedOut.

Definition loadImages (ev : image_event) : result (list float) :=
  match ev with
  | Loaded canvas =>
      rethrow "Failed to process images: "
        (decodeSprite NUM_DATASET_ELEMENTS canvas)
  | Failed => Throw (Error "Failed to load MNIST images sprite")
  | TimedOut => Throw (Error "Image load timeout")
  end.

(** How the label request ends. *)
Inductive fetch_outcome :=
| Rejected (e : error)
| Response (ok : bool) (status : Z) (arrayBuffer : result (list Z)).

Definition loadLabels (r : fetch_outcome) : result (list Z) :=
  rethrow "Failed to load MNIST labels: "
    match r with
    | Rejected e => Throw e
    | Response false status _ =>
        Throw (Error ("HTTP error! status: " ++ to_string status))
    | Response true _ labelsData => labelsData
    end.

Definition loadImagesWithRetry (retries : Z) (images : Z -> image_event)
    : list event * result (option (list float)) :=
  retry_loop (Z.to_nat retries) 1 retries (fun attempt => loadImages (images attempt)).

Definition loadLabelsWithRetry (retries : Z) (labels : Z -> fetch_outcome)
    : list event * result (option (list Z)) :=
  retry_loop (Z.to_nat retries) 1 retries (fun attempt => loadLabels (labels attempt)).

(** ** Loading *)

Definition validateData : M unit :=
  fun this =>
    let empty {A} (a : option (list A)) :=
      match a with None => true | Some l => Js.length l =? 0 end in
    let len {A} (a : option (list A)) :=
      match a with None => 0 | Some l => Js.length l end in
    if empty (datasetImages this)
    then (this, Throw (Error "Dataset images are empty or invalid"))
    else if empty (datasetLabels this)
    then (this, Throw (Error "Dataset labels are empty or invalid"))
    else
      let expectedImageSize := NUM_DATASET_ELEMENTS * IMAGE_SIZE in
      if negb (len (datasetImages this) =? expectedImageSize)
      then (this, Throw (Error ("Invalid image data size. Expected "
                                ++ to_string expectedImageSize ++ ", got "
                                ++ to_string (len (datasetImages this)))))
      else
        let expectedLabelSize := NUM_DATASET_ELEMENTS * NUM_CLASSES in
        if negb (len (datasetLabels this) =? expectedLabelSize)
        then (this, Throw (Error ("Invalid label data size. Expected "
                                  ++ to_string expectedLabelSize ++ ", got "
                                  ++ to_string (len (datasetLabels this)))))
        else (this, Ok tt).

(** What the outside gives one call of [load]: how each attempt of either
    request ends, which request is rejected first when both are, and the two
    arrays [tf.util.createShuffledIndices] returns. *)
Record world := {
  images : Z -> image_event;
  labels_fetch : Z -> fetch_outcome;
  imagesRejectFirst : bool;
  shuffledTrain : list Z;
  shuffledTest : list Z
}.

(** [Promise.all] of the two wrapped loads. *)
Definition loadBoth (w : world)
    : result (option (list float) * option (list Z)) :=
  match snd (loadImagesWithRetry MAX_RETRIES (images w)),
        snd (loadLabelsWithRetry MAX_RETRIES (labels_fetch w)) with
  | Ok imageData, Ok labelData => Ok (imageData, labelData)
  | Throw e, Ok _ => Throw e
  | Ok _, Throw e => Throw e
  | Throw e1, Throw e2 => Throw (if imagesRejectFirst w then e1 else e2)
  end.

(** [this.datasetImages = imageData; this.datasetLabels = labelData]. *)
Definition set_dataset (imageData : option (list float))
    (labelData : option (list Z)) (this : MnistData) : MnistData := {|
  shuffledTrainIndex := shuffledTrainIndex this;
  shuffledTestIndex := shuffledTestIndex this;
  datasetImages := imageData;
  datasetLabels := labelData;
  trainIndices := trainIndices this;
  testIndices := testIndices this;
  trainImages := trainImages this;
  testImages := testImages this;
  trainLabels := trainLabels this;
  testLabels := testLabels this
|}.

(** The six assignments that follow the validation. *)
Definition set_partitions (w : world) (dImages : list float)
    (dLabels : list Z) (this : MnistData) : MnistData := {|
  shuffledTrainIndex := shuffledTrainIndex this;
  shuffledTestIndex := shuffledTestIndex this;
  datasetImages := datasetImages this;
  datasetLabels := datasetLabels this;
  trainIndices := Some (shuffledTrain w);
  testIndices := Some (shuffledTest w);
  trainImages := Some (slice dImages 0 (IMAGE_SIZE * NUM_TRAIN_ELEMENTS));
  testImages := Some (slice_from dImages (IMAGE_SIZE * NUM_TRAIN_ELEMENTS));
  trainLabels := Some (slice dLabels 0 (NUM_CLASSES * NUM_TRAIN_ELEMENTS));
  testLabels := Some (slice_from dLabels (NUM_CLASSES * NUM_TRAIN_ELEMENTS))
|}.

(** The statements of [load] once both loads have returned. *)
Definition install (imageData : option (list float))
    (labelData : option (list Z)) (w : world) : M unit :=
  fun this =>
    match validateData (set_dataset imageData labelData this) with
    | (this', Throw e) => (this', Throw e)
    | (this', Ok _) =>
        match datasetImages this', datasetLabels this' with
        | Some dImages, Some dLabels =>
            (set_partitions w dImages dLabels this', Ok tt)
        | _, _ =>
            (this', Throw (TypeError "Cannot read properties of null"))
        end
    end.

Definition load (w : world) : M unit :=
  fun this =>
    let (this', r) :=
      match loadBoth w with
      | Throw e => (this, Throw e)
      | Ok (imageData, labelData) => install imageData labelData w this
      end in
    (this', rethrow "Failed to load MNIST dataset: " r).

(** ** Notions the properties are stated with *)

(** [n] consecutive calls of an [index] closure, as the loop of [nextBatch]
    makes them, with what each returned. *)
Fixpoint draw_indices (index : M (option Z)) (n : nat) : M (list (option Z)) :=
  match n with
  | O => ret []
  | S n' =>
      idx <- index ;;
      rest <- draw_indices index n' ;;
      ret (idx :: rest)
  end.

(** The record of [size] elements at index [idx] of a flat array. *)
Definition record_at {A} (size : Z) (arr : list A) (idx : Z) : list A :=
  slice arr (idx * size) (idx * size + size).

(** The cursor after one draw from a permutation of [P] indices. *)
Definition next_cursor (P c : Z) : Z := (c + 1) mod P.

(** The cursor after [n] draws. *)
Fixpoint cursor_after (P c : Z) (n : nat) : Z :=
  match n with
  | O => c
  | S n' => cursor_after P (next_cursor P c) n'
  end.

(** The indices [n] draws take from [perm] when the cursor is at [c]. *)
Fixpoint drawn (perm : list Z) (c : Z) (n : nat) : list Z :=
  match n with
  | O => []
  | S n' =>
      let c' := next_cursor (Js.length perm) c in
      nth (Z.to_nat c') perm 0 :: drawn perm c' n'
  end.

(** [perm] holds indices of a partition of [P] examples only. *)
Definition indices_below (P : Z) (perm : list Z) : Prop :=
  Forall (fun v => 0 <= v < P) perm.

(** [perm] is a shuffle of the indices [0 .. P-1]. *)
Definition shuffle_of (P : Z) (perm : list Z) : Prop :=
  Permutation perm (map Z.of_nat (seq 0 (Z.to_nat P))).

(** The batch [batchSize] draws make: the drawn records of the two arrays,
    in the order drawn. *)
Definition batch_of (perm : list Z) (imgs : list float) (lbls : list Z)
    (c batchSize : Z) : Batch := {|
  xs := {|
    values := flat_map (record_at IMAGE_SIZE imgs)
                (drawn perm c (Z.to_nat batchSize));
    shape := (batchSize, IMAGE_SIZE) |};
  labels := {|
    values := flat_map (record_at NUM_CLASSES lbls)
                (drawn perm c (Z.to_nat batchSize));
    shape := (batchSize, NUM_CLASSES) |}
|}.

(** The two partitions, and what each method pair uses of the object. *)
Inductive partition := Train | Test.

Definition indices_of (p : partition) (this : MnistData) : option (list Z) :=
  match p with Train => trainIndices this | Test => testIndices this end.

Definition images_of (p : partition) (this : MnistData) : option (list float) :=
  match p with Train => trainImages this | Test => testImages this end.

Definition labels_of (p : partition) (this : MnistData) : option (list Z) :=
  match p with Train => trainLabels this | Test => testLabels this end.

Definition cursor_of (p : partition) (this : MnistData) : number :=
  match p with
  | Train => shuffledTrainIndex this
  | Test => shuffledTestIndex this
  end.

Definition set_cursor (p : partition) (c : number) (this : MnistData)
    : MnistData :=
  match p with
  | Train => set_shuffledTrainIndex c this
  | Test => set_shuffledTestIndex c this
  end.

Definition index_of (p : partition) : M (option Z) :=
  match p with Train => trainIndex | Test => testIndex end.

Definition next_batch (p : partition) (batchSize : Z) : M Batch :=
  match p with
  | Train => nextTrainBatch batchSize
  | Test => nextTestBatch batchSize
  end.

(** The partition [p] of the object is populated with a permutation [perm]
    of in-range indices and with arrays of one record per index, and its
    cursor is at [c], inside the permutation. *)
Record populated (p : partition) (this : MnistData)
    (perm : list Z) (imgs : list float) (lbls : list Z) (c : Z) : Prop := {
  pop_indices : indices_of p this = Some perm;
  pop_images : images_of p this = Some imgs;
  pop_labels : labels_of p this = Some lbls;
  pop_below : indices_below (Js.length perm) perm;
  pop_images_length : Js.length imgs = Js.length perm * IMAGE_SIZE;
  pop_labels_length : Js.length lbls = Js.length perm * NUM_CLASSES;
  pop_cursor : cursor_of p this = Num c;
  pop_cursor_range : 0 <= c < Js.length perm
}.

(** A pixel value normalized into [0, 1]. *)
Definition normalized (x : float) : Prop :=
  ((0 <=? x) && (x <=? 1))%float = true.

(** A label byte of a one-hot encoding. *)
Definition label_bit (v : Z) : Prop := v = 0 \/ v = 1.

(** A call of a batch method by the training driver. *)
Inductive call :=
| NextTrainBatch (batchSize : Z)
| NextTestBatch (batchSize : Z).

Definition do_call (k : call) : M Batch :=
  match k with
  | NextTrainBatch batchSize => nextTrainBatch batchSize
  | NextTestBatch batchSize => nextTestBatch batchSize
  end.

(** The object after a sequence of calls, whatever each returned or threw. *)
Definition after_calls (calls : list call) (this : MnistData) : MnistData :=
  fold_left (fun this k => fst (do_call k this)) calls this.

(** The cursor [c] indexes an entry of the permutation [indices]. *)
Definition in_range (indices : option (list Z)) (c : number) : Prop :=
  match indices, c with
  | Some perm, Num z => 0 <= z < Js.length perm
  | _, _ => False
  end.

(** [this'] is [this] but for the cursor of partition [p], which is inside
    the permutation if it was. *)
Definition moved (p : partition) (this this' : MnistData) : Prop :=
  exists c,
    this' = set_cursor p c this
    /\ (in_range (indices_of p this) (cursor_of p this) ->
        in_range (indices_of p this) c).

(** ** Small datasets to run the methods on *)

(** An engine whose buffers hold up to 2^32 bytes. *)
Definition example_engine : Engine.
Proof.
  refine {| max_byte_length := 4294967296 |};
    unfold MAX_SAFE_INTEGER, NUM_DATASET_ELEMENTS, IMAGE_SIZE; lia.
Defined.

(** The image of example [r]: every pixel is the byte [r]. *)
Definition example_image (r : Z) : list float :=
  repeat (fround (of_Z r / 255)) (Z.to_nat IMAGE_SIZE).

(** The one-hot label of class [r]. *)
Definition one_hot (r : Z) : list Z :=
  map (fun k => if Z.of_nat k =? r then 1 else 0) (seq 0 (Z.to_nat NUM_CLASSES)).

(** A dataset of [n] examples: example [r] has the image and the label of
    [r]. *)
Definition example_images (n : nat) : list float :=
  flat_map example_image (map Z.of_nat (seq 0 n)).

Definition example_labels (n : nat) : list Z :=
  flat_map one_hot (map Z.of_nat (seq 0 n)).

(** The object [load] would leave if the dataset had [nTrain + nTest]
    examples, of which the first [nTrain] are for training: the cursors are
    the constructor's. *)
Definition example_object (trainPerm testPerm : list Z) : MnistData :=
  let nTrain := List.length trainPerm in
  let nTest := List.length testPerm in
  {|
    shuffledTrainIndex := shuffledTrainIndex constructor;
    shuffledTestIndex := shuffledTestIndex constructor;
    datasetImages := Some (example_images (nTrain + nTest));
    datasetLabels := Some (example_labels (nTrain + nTest));
    trainIndices := Some trainPerm;
    testIndices := Some testPerm;
    trainImages :=
      Some (slice (example_images (nTrain + nTest)) 0
              (IMAGE_SIZE * Z.of_nat nTrain));
    testImages :=
      Some (slice_from (example_images (nTrain + nTest))
              (IMAGE_SIZE * Z.of_nat nTrain));
    trainLabels :=
      Some (slice (example_labels (nTrain + nTest)) 0
              (NUM_CLASSES * Z.of_nat nTrain));
    testLabels :=
      Some (slice_from (example_labels (nTrain + nTest))
              (NUM_CLASSES * Z.of_nat nTrain))
  |}.

(** Six training examples under the permutation 3, 0, 5, 2, 4, 1 and two
    test examples. *)
Definition six : MnistData := example_object [3; 0; 5; 2; 4; 1] [1; 0].

(** The [length] the validation reads of a corpus; an absent corpus has
    none, 0 here. *)
Definition corpus_length {A} (corpus : option (list A)) : Z :=
  match corpus with Some l => Js.length l | None => 0 end.

(** Both corpora have the sizes of the full dataset. *)
Definition sizes_ok (imageData : option (list float))
    (labelData : option (list Z)) : Prop :=
  corpus_length imageData = 65000 * 784
  /\ corpus_length labelData = 65000 * 10.

(** A canvas that returns, for every chunk, the pixels of 5000 rows of an
    opaque white sprite 784 pixels wide. *)
Definition white_canvas : Z -> result (list Z) :=
  fun _ => Ok (repeat 255 (Z.to_nat (4 * IMAGE_SIZE * chunkSize))).

(** The identity permutation, one of the arrays
    [tf.util.createShuffledIndices n] can return. *)
Definition unshuffled (n : Z) : list Z := map Z.of_nat (seq 0 (Z.to_nat n)).

(** A world in which both requests succeed at once, with [labelData] for
    the labels. *)
Definition world_with_labels (labelData : list Z) : world := {|
  images := fun _ => Loaded white_canvas;
  labels_fetch := fun _ => Response true 200 (Ok labelData);
  imagesRejectFirst := true;
  shuffledTrain := unshuffled NUM_TRAIN_ELEMENTS;
  shuffledTest := unshuffled NUM_TEST_ELEMENTS
|}.

(** Labels of the full dataset, all of class 0. *)
Definition full_labels : list Z :=
  flat_map (fun _ => one_hot 0) (seq 0 (Z.to_nat NUM_DATASET_ELEMENTS)).


(** ** The driver's use of the sampler ([js/app.js]) *)

(** [CONFIG.model]: the sizes [trainModel] reads. *)
Definition trainDataSize : Z := 5500.
Definition testDataSize : Z := 1000.

(** A tensor of rank 4, as [reshape] returns it. *)
Record Tensor4D (A : Type) := {
  values4 : list A;
  shape4 : Z * Z * Z * Z
}.
#[global] Arguments values4 {A} t.
#[global] Arguments shape4 {A} t.

(** [t.reshape([n, h, w, c])]: the same values under a shape of the same
    size, refused otherwise. *)
Definition reshape {A} (t : Tensor2D A) (shp : Z * Z * Z * Z)
    : result (Tensor4D A) :=
  let '(n, h, w, c) := shp in
  if fst (shape t) * snd (shape t) =? n * h * w * c
  then Ok {| values4 := values t; shape4 := shp |}
  else Throw (Error "Size does not match the requested shape").

(** What [trainModel] hands to [model.fit]. *)
Record TrainingData := {
  trainXs : Tensor4D float;
  trainYs : Tensor2D Z;
  testXs : Tensor4D float;
  testYs : Tensor2D Z
}.

(** The two [tf.tidy] blocks of [trainModel] that prepare the training and
    the validation data. *)
Definition prepareData : M TrainingData :=
  d <- nextTrainBatch trainDataSize ;;
  trainXs <- lift (reshape (xs d) (trainDataSize, 28, 28, 1)) ;;
  d' <- nextTestBatch testDataSize ;;
  testXs <- lift (reshape (xs d') (testDataSize, 28, 28, 1)) ;;
  ret {| trainXs := trainXs; trainYs := labels d;
         testXs := testXs; testYs := labels d' |}.

(** ** Further notions the properties are stated with *)

(** The attempts a wrapper makes from [attempt] on when [n] attempts are
    made, with the delay it waits for after each but the last. *)
Fixpoint backoff_trace (attempt : Z) (n : nat) : list event :=
  match n with
  | O => []
  | S O => [Attempt attempt]
  | S n' =>
      Attempt attempt :: Delay (RETRY_DELAY * attempt)
      :: backoff_trace (attempt + 1) n'
  end.

(** The time a trace waits, in milliseconds. *)
Fixpoint total_delay (trace : list event) : Z :=
  match trace with
  | [] => 0
  | Attempt _ :: rest => total_delay rest
  | Delay ms :: rest => ms + total_delay rest
  end.

(** A pixel byte. *)
Definition byte_value (b : Z) : Prop := 0 <= b <= 255.

(** Every canvas the image request of a world can hand over returns bytes
    only. *)
Definition canvas_bytes (w : world) : Prop :=
  forall attempt canvas q data,
    images w attempt = Loaded canvas -> canvas q = Ok data ->
    Forall byte_value data.

(** A world like [world_with_labels] but for the label request, which
    answers [status] to every attempt. *)
Definition world_with_status (status : Z) : world := {|
  images := fun _ => Loaded white_canvas;
  labels_fetch := fun _ => Response false status (Ok []);
  imagesRejectFirst := true;
  shuffledTrain := unshuffled NUM_TRAIN_ELEMENTS;
  shuffledTest := unshuffled NUM_TEST_ELEMENTS
|}.

(** A canvas that throws when chunk [q0] is read and is white before. *)
Definition tainted_canvas (q0 : Z) : Z -> result (list Z) :=
  fun q =>
    if q =? q0
    then Throw (Error "The canvas has been tainted by cross-origin data.")
    else white_canvas q.

(** ** The drawing canvas ([js/app.js])

    The elements the handlers look up by id are taken to be in the page, so
    a lookup returns the element.  The 2D context is the list of the calls
    made on it and of the properties set on it, the latest first: the
    bitmap of the canvas is a function of that list. *)

Inductive ctx_call :=
| SetFillStyle (style : string)
| FillRect (x y w h : Z)
| BeginPath
| MoveTo (x y : float)
| LineTo (x y : float)
| Stroke
| SetLineWidth (w : number)
| SetLineCap (cap : string)
| SetStrokeStyle (style : string)
| SetLineJoin (join : string).

(** A toast: title, message and type. *)
Record toast := {
  toast_title : string;
  toast_message : string;
  toast_type : string
}.

(** The fields of [APP_STATE] the canvas handlers use, with the page
    state they change: [rawImage.src] ([None] before any is assigned; a
    data URL is the context it was taken from), [classifyBtn.disabled],
    whether each element has the class [hidden], the toasts shown. *)
Record App := {
  isDrawing : bool;
  hasDrawn : bool;
  isModelReady : bool;
  penSize : number;
  ctx : list ctx_call;
  rawImage_src : option (list ctx_call);
  classifyBtn_disabled : bool;
  canvasOverlay_hidden : bool;
  predictionResult_hidden : bool;
  predictionsList_hidden : bool;
  toasts : list toast
}.

Definition set_isDrawing (b : bool) (s : App) : App := {|
  isDrawing := b; hasDrawn := hasDrawn s; isModelReady := isModelReady s;
  penSize := penSize s; ctx := ctx s; rawImage_src := rawImage_src s;
  classifyBtn_disabled := classifyBtn_disabled s;
  canvasOverlay_hidden := canvasOverlay_hidden s;
  predictionResult_hidden := predictionResult_hidden s;
  predictionsList_hidden := predictionsList_hidden s; toasts := toasts s |}.

Definition set_hasDrawn (b : bool) (s : App) : App := {|
  isDrawing := isDrawing s; hasDrawn := b; isModelReady := isModelReady s;
  penSize := penSize s; ctx := ctx s; rawImage_src := rawImage_src s;
  classifyBtn_disabled := classifyBtn_disabled s;
  canvasOverlay_hidden := canvasOverlay_hidden s;
  predictionResult_hidden := predictionResult_hidden s;
  predictionsList_hidden := predictionsList_hidden s; toasts := toasts s |}.

Definition set_penSize (n : number) (s : App) : App := {|
  isDrawing := isDrawing s; hasDrawn := hasDrawn s;
  isModelReady := isModelReady s;
  penSize := n; ctx := ctx s; rawImage_src := rawImage_src s;
  classifyBtn_disabled := classifyBtn_disabled s;
  canvasOverlay_hidden := canvasOverlay_hidden s;
  predictionResult_hidden := predictionResult_hidden s;
  predictionsList_hidden := predictionsList_hidden s; toasts := toasts s |}.

(** One more call on the context. *)
Definition on_ctx (c : ctx_call) (s : App) : App := {|
  isDrawing := isDrawing s; hasDrawn := hasDrawn s;
  isModelReady := isModelReady s;
  penSize := penSize s; ctx := c :: ctx s; rawImage_src := rawImage_src s;
  classifyBtn_disabled := classifyBtn_disabled s;
  canvasOverlay_hidden := canvasOverlay_hidden s;
  predictionResult_hidden := predictionResult_hidden s;
  predictionsList_hidden := predictionsList_hidden s; toasts := toasts s |}.

Definition set_rawImage_src (src : option (list ctx_call)) (s : App) : App := {|
  isDrawing := isDrawing s; hasDrawn := hasDrawn s;
  isModelReady := isModelReady s;
  penSize := penSize s; ctx := ctx s; rawImage_src := src;
  classifyBtn_disabled := classifyBtn_disabled s;
  canvasOverlay_hidden := canvasOverlay_hidden s;
  predictionResult_hidden := predictionResult_hidden s;
  predictionsList_hidden := predictionsList_hidden s; toasts := toasts s |}.

Definition set_classifyBtn_disabled (b : bool) (s : App) : App := {|
  isDrawing := isDrawing s; hasDrawn := hasDrawn s;
  isModelReady := isModelReady s;
  penSize := penSize s; ctx := ctx s; rawImage_src := rawImage_src s;
  classifyBtn_disabled := b;
  canvasOverlay_hidden := canvasOverlay_hidden s;
  predictionResult_hidden := predictionResult_hidden s;
  predictionsList_hidden := predictionsList_hidden s; toasts := toasts s |}.

Definition set_canvasOverlay_hidden (b : bool) (s : App) : App := {|
  isDrawing := isDrawing s; hasDrawn := hasDrawn s;
  isModelReady := isModelReady s;
  penSize := penSize s; ctx := ctx s; rawImage_src := rawImage_src s;
  classifyBtn_disabled := classifyBtn_disabled s;
  canvasOverlay_hidden := b;
  predictionResult_hidden := predictionResult_hidden s;
  predictionsList_hidden := predictionsList_hidden s; toasts := toasts s |}.

Definition set_predictionResult_hidden (b : bool) (s : App) : App := {|
  isDrawing := isDrawing s; hasDrawn := hasDrawn s;
  isModelReady := isModelReady s;
  penSize := penSize s; ctx := ctx s; rawImage_src := rawImage_src s;
  classifyBtn_disabled := classifyBtn_disabled s;
  canvasOverlay_hidden := canvasOverlay_hidden s;
  predictionResult_hidden := b;
  predictionsList_hidden := predictionsList_hidden s; toasts := toasts s |}.

Definition set_predictionsList_hidden (b : bool) (s : App) : App := {|
  isDrawing := isDrawing s; hasDrawn := hasDrawn s;
  isModelReady := isModelReady s;
  penSize := penSize s; ctx := ctx s; rawImage_src := rawImage_src s;
  classifyBtn_disabled := classifyBtn_disabled s;
  canvasOverlay_hidden := canvasOverlay_hidden s;
  predictionResult_hidden := predictionResult_hidden s;
  predictionsList_hidden := b; toasts := toasts s |}.

(** [showToast(title, message, type)], as far as the toast it adds. *)
Definition showToast (title message type : string) (s : App) : App := {|
  isDrawing := isDrawing s; hasDrawn := hasDrawn s;
  isModelReady := isModelReady s;
  penSize := penSize s; ctx := ctx s; rawImage_src := rawImage_src s;
  classifyBtn_disabled := classifyBtn_disabled s;
  canvasOverlay_hidden := canvasOverlay_hidden s;
  predictionResult_hidden := predictionResult_hidden s;
  predictionsList_hidden := predictionsList_hidden s;
  toasts := {| toast_title := title; toast_message := message;
               toast_type := type |} :: toasts s |}.

(** [CONFIG.canvas]. *)
Definition canvas_width : Z := 280.
Definition canvas_height : Z := 280.
Definition canvas_lineCap : string := "round".
Definition canvas_strokeStyle : string := "white".
Definition canvas_fillStyle : string := "black".

(** What a handler reads of a mouse event or of the first touch of a touch
    event, and of [canvas.getBoundingClientRect()]. *)
Record pointer := {
  clientX : float;
  clientY : float;
  rect_left : float;
  rect_top : float
}.

Definition hideCanvasOverlay (s : App) : App := set_canvasOverlay_hidden true s.
Definition showCanvasOverlay (s : App) : App := set_canvasOverlay_hidden false s.

Definition drawAtPosition (x y : float) (s : App) : App :=
  let s := on_ctx (SetLineWidth (penSize s)) s in
  let s := on_ctx (SetLineCap canvas_lineCap) s in
  let s := on_ctx (SetStrokeStyle canvas_strokeStyle) s in
  let s := on_ctx (SetLineJoin "round") s in
  let s := on_ctx (LineTo x y) s in
  let s := on_ctx Stroke s in
  let s := on_ctx BeginPath s in
  let s := on_ctx (MoveTo x y) s in
  set_hasDrawn true s.

Definition draw (e : pointer) (s : App) : App :=
  if negb (isDrawing s) then s
  else
    let x := (clientX e - rect_left e)%float in
    let y := (clientY e - rect_top e)%float in
    drawAtPosition x y s.

Definition handleMouseDown (e : pointer) (s : App) : App :=
  let s := set_isDrawing true s in
  let x := (clientX e - rect_left e)%float in
  let y := (clientY e - rect_top e)%float in
  let s := on_ctx BeginPath s in
  let s := on_ctx (MoveTo x y) s in
  hideCanvasOverlay s.

Definition handleMouseMove (e : pointer) (s : App) : App :=
  if isDrawing s then draw e s else s.

Definition handleMouseUp (s : App) : App :=
  if isDrawing s then
    let s := set_isDrawing false s in
    let s := set_rawImage_src (Some (ctx s)) s in
    set_classifyBtn_disabled false s
  else s.

Definition handleTouchStart (e : pointer) (s : App) : App :=
  let s := set_isDrawing true s in
  let x := (clientX e - rect_left e)%float in
  let y := (clientY e - rect_top e)%float in
  let s := on_ctx BeginPath s in
  let s := on_ctx (MoveTo x y) s in
  hideCanvasOverlay s.

Definition handleTouchMove (e : pointer) (s : App) : App :=
  if isDrawing s then
    let x := (clientX e - rect_left e)%float in
    let y := (clientY e - rect_top e)%float in
    drawAtPosition x y s
  else s.

Definition handleTouchEnd (s : App) : App :=
  if isDrawing s then
    let s := set_isDrawing false s in
    let s := set_rawImage_src (Some (ctx s)) s in
    set_classifyBtn_disabled false s
  else s.

Definition clearCanvas (s : App) : App :=
  let s := on_ctx (SetFillStyle canvas_fillStyle) s in
  let s := on_ctx (FillRect 0 0 canvas_width canvas_height) s in
  let s := set_hasDrawn false s in
  let s := set_classifyBtn_disabled true s in
  let s := set_predictionResult_hidden false s in
  let s := set_predictionsList_hidden true s in
  showCanvasOverlay s.

(** The part of [displayPredictions] that shows the list. *)
Definition displayPredictions (s : App) : App :=
  let s := set_predictionResult_hidden true s in
  set_predictionsList_hidden false s.

(** [classifyDrawing]; [outcome] is how the prediction on [rawImage] ends.
    Beside the state, the image handed to [tf.browser.fromPixels], if the
    guard let the call through. *)
Definition classifyDrawing (outcome : result unit) (s : App)
    : App * option (option (list ctx_call)) :=
  if negb (isModelReady s) || negb (hasDrawn s)
  then (showToast "Not Ready" "Please draw a digit first" "error" s, None)
  else
    match outcome with
    | Ok _ => (displayPredictions s, Some (rawImage_src s))
    | Throw error =>
        (showToast "Classification Failed" (message error) "error" s,
         Some (rawImage_src s))
    end.

Definition set_isModelReady (b : bool) (s : App) : App := {|
  isDrawing := isDrawing s; hasDrawn := hasDrawn s; isModelReady := b;
  penSize := penSize s; ctx := ctx s; rawImage_src := rawImage_src s;
  classifyBtn_disabled := classifyBtn_disabled s;
  canvasOverlay_hidden := canvasOverlay_hidden s;
  predictionResult_hidden := predictionResult_hidden s;
  predictionsList_hidden := predictionsList_hidden s; toasts := toasts s |}.

(** [APP_STATE] as declared, over a page: the page gives the fields that
    are the page's own, and its canvas has not been drawn on. *)
Definition APP_STATE (page : App) : App := {|
  isDrawing := false; hasDrawn := false; isModelReady := false;
  penSize := Num 24; ctx := []; rawImage_src := rawImage_src page;
  classifyBtn_disabled := classifyBtn_disabled page;
  canvasOverlay_hidden := canvasOverlay_hidden page;
  predictionResult_hidden := predictionResult_hidden page;
  predictionsList_hidden := predictionsList_hidden page;
  toasts := toasts page
|}.

(** What [initCanvas] does to the context. *)
Definition initCanvas (s : App) : App :=
  let s := on_ctx (SetFillStyle canvas_fillStyle) s in
  on_ctx (FillRect 0 0 canvas_width canvas_height) s.

(** What the listeners [initCanvas] registers can be called with. *)
Inductive ui_event :=
| MouseDown (e : pointer)
| MouseMove (e : pointer)
| MouseUp
| MouseLeave
| TouchStart (e : pointer)
| TouchMove (e : pointer)
| TouchEnd
| ClearClick
| PenSizeInput (parsed : number)
| ClassifyClick (outcome : result unit).

Definition dispatch (s : App) (ev : ui_event) : App :=
  match ev with
  | MouseDown e => handleMouseDown e s
  | MouseMove e => handleMouseMove e s
  | MouseUp | MouseLeave => handleMouseUp s
  | TouchStart e => handleTouchStart e s
  | TouchMove e => handleTouchMove e s
  | TouchEnd => handleTouchEnd s
  | ClearClick => clearCanvas s
  | PenSizeInput parsed => set_penSize parsed s
  | ClassifyClick outcome => fst (classifyDrawing outcome s)
  end.

(** The application once [startTraining] has trained the model
    ([trainModel] sets [isModelReady]) and called [initCanvas], and after
    the events [evs]. *)
Definition canvas_ready (page : App) : App :=
  initCanvas (set_isModelReady true (APP_STATE page)).

Definition after_events (page : App) (evs : list ui_event) : App :=
  fold_left dispatch evs (canvas_ready page).

(** The context was asked to stroke since the canvas was last filled. *)
Fixpoint stroked_since_fill (calls : list ctx_call) : bool :=
  match calls with
  | [] => false
  | Stroke :: _ => true
  | FillRect _ _ _ _ :: _ => false
  | _ :: rest => stroked_since_fill rest
  end.

(** What the handlers keep true of the flags, the context and the image. *)
Definition canvas_invariant (s : App) : Prop :=
  hasDrawn s = stroked_since_fill (ctx s) /\
  isModelReady s = true /\
  (isDrawing s = false -> hasDrawn s = true ->
   rawImage_src s = Some (ctx s)).

(** A page for the examples. *)
Definition example_page : App := {|
  isDrawing := false; hasDrawn := false; isModelReady := false;
  penSize := Num 24; ctx := []; rawImage_src := None;
  classifyBtn_disabled := true; canvasOverlay_hidden := false;
  predictionResult_hidden := false; predictionsList_hidden := true;
  toasts := []
|}.

Definition example_pointer : pointer := {|
  clientX := 120; clientY := 95; rect_left := 20; rect_top := 15
|}.

(** * Properties *)

(** ** Typed arrays *)

Section Arrays.
Context {A : Type}.
Implicit Types a src rest : list A.

Lemma length_nonneg a : 0 <= Js.length a.
Proof. unfold Js.length. lia. Qed.

Lemma slice_inside a b e :
  0 <= b <= e -> e <= Js.length a ->
  slice a b e = firstn (Z.to_nat (e - b)) (skipn (Z.to_nat b) a).
Proof.
  intros Hb He. unfold slice, clamp.
  destruct (Z.ltb_spec b 0); [lia|].
  destruct (Z.ltb_spec e 0); [lia|].
  rewrite !Z.min_l by lia. reflexivity.
Qed.

Lemma slice_length a b e :
  0 <= b <= e -> e <= Js.length a -> Js.length (slice a b e) = e - b.
Proof.
  intros Hb He. rewrite slice_inside by assumption.
  unfold Js.length in *. rewrite length_firstn, length_skipn. lia.
Qed.

Lemma slice_from_inside a b :
  0 <= b <= Js.length a -> slice_from a b = skipn (Z.to_nat b) a.
Proof.
  intros Hb. unfold slice_from. rewrite slice_inside by lia.
  apply firstn_all2. rewrite length_skipn. unfold Js.length. lia.
Qed.

Lemma record_at_length size a idx :
  0 <= size -> 0 <= idx -> (idx + 1) * size <= Js.length a ->
  Js.length (record_at size a idx) = size.
Proof.
  intros Hs Hi Hl. unfold record_at. rewrite slice_length; nia.
Qed.

Lemma set_inside a src offset :
  0 <= offset -> offset + Js.length src <= Js.length a ->
  Js.set a src offset =
  Ok (firstn (Z.to_nat offset) a ++ src
      ++ skipn (Z.to_nat (offset + Js.length src)) a).
Proof.
  intros Ho Hl. unfold Js.set.
  destruct (Z.ltb_spec offset 0); [lia|].
  destruct (Z.ltb_spec (Js.length a) (offset + Js.length src)); [lia|].
  reflexivity.
Qed.

(** Writing a record over the next free slot of a partly filled array. *)
Lemma blit_next a src rest (o s m : nat) :
  List.length src = s -> (o + s + m <= List.length a)%nat ->
  let a' := firstn o a ++ src ++ skipn (o + s) a in
  firstn (o + s) a' ++ rest ++ skipn (o + s + m) a'
  = firstn o a ++ (src ++ rest) ++ skipn (o + s + m) a.
Proof.
  intros Hs Hl a'. subst a'.
  assert (Ho : List.length (firstn o a) = o) by (rewrite length_firstn; lia).
  rewrite (app_assoc (firstn o a) src).
  assert (Hx : List.length (firstn o a ++ src) = (o + s)%nat)
    by (rewrite length_app; lia).
  rewrite firstn_app, firstn_all2 by lia.
  rewrite skipn_app, (skipn_all2 (firstn o a ++ src)) by lia.
  rewrite Hx.
  replace (o + s - (o + s))%nat with 0%nat by lia.
  replace (o + s + m - (o + s))%nat with m by lia.
  cbn [firstn app]. rewrite app_nil_r, skipn_skipn.
  replace (m + (o + s))%nat with (o + s + m)%nat by lia.
  rewrite <- !app_assoc. reflexivity.
Qed.

Lemma get_store a k v j :
  get (store a k v) (Num j) =
  if (0 <=? k) && (k <? Js.length a) && (j =? k) then Some v
  else get a (Num j).
Proof.
  unfold store, get, Js.length.
  destruct (Z.leb_spec 0 k); cbn [andb]; [|reflexivity].
  destruct (Z.ltb_spec k (Z.of_nat (List.length a))); cbn [andb]; [|reflexivity].
  destruct (Z.eqb_spec j k) as [->|Hjk].
  - destruct (Z.ltb_spec k 0); [lia|].
    rewrite nth_error_app2 by (rewrite length_firstn; lia).
    rewrite length_firstn.
    replace (Z.to_nat k - Nat.min (Z.to_nat k) (List.length a))%nat with 0%nat by lia.
    reflexivity.
  - destruct (Z.ltb_spec j 0); [reflexivity|].
    destruct (Z.ltb_spec j k).
    + rewrite nth_error_app1 by (rewrite length_firstn; lia).
      rewrite nth_error_firstn.
      destruct (Nat.ltb_spec (Z.to_nat j) (Z.to_nat k)); [reflexivity|lia].
    + rewrite nth_error_app2 by (rewrite length_firstn; lia).
      rewrite length_firstn.
      replace (Z.to_nat j - Nat.min (Z.to_nat k) (List.length a))%nat
        with (S (Z.to_nat j - Z.to_nat (k + 1)))%nat by lia.
      cbn [nth_error]. rewrite nth_error_skipn. f_equal. lia.
Qed.

Lemma store_length a k v : Js.length (store a k v) = Js.length a.
Proof.
  unfold store, Js.length.
  destruct (Z.leb_spec 0 k); cbn [andb]; [|reflexivity].
  destruct (Z.ltb_spec k (Z.of_nat (List.length a))); cbn [andb]; [|reflexivity].
  rewrite length_app. cbn [List.length]. rewrite length_firstn, length_skipn. lia.
Qed.

Lemma new_array_fits limit bytes (zero : A) n :
  0 <= n -> n * bytes <= limit ->
  new_array limit bytes zero n = Ok (repeat zero (Z.to_nat n)).
Proof.
  intros Hn Hl. unfold new_array.
  destruct (Z.ltb_spec n 0); [lia|].
  destruct (Z.ltb_spec limit (n * bytes)); [lia|]. reflexivity.
Qed.

Lemma new_array_refused limit bytes (zero : A) n :
  n < 0 \/ limit < n * bytes ->
  new_array limit bytes zero n
  = Throw (RangeError "Invalid typed array length").
Proof.
  intros Hn. unfold new_array.
  destruct (Z.ltb_spec n 0); [reflexivity|].
  destruct (Z.ltb_spec limit (n * bytes)); [reflexivity|]. lia.
Qed.

End Arrays.

(** ** The sampler, for either partition *)

Lemma next_cursor_range P c : 0 < P -> 0 <= next_cursor P c < P.
Proof. intros HP. unfold next_cursor. apply Z.mod_pos_bound. exact HP. Qed.

Lemma cursor_after_closed P c n :
  0 <= c < P -> cursor_after P c n = (c + Z.of_nat n) mod P.
Proof.
  revert c. induction n as [|n IH]; intros c Hc; cbn [cursor_after].
  - rewrite Z.add_0_r, Z.mod_small; lia.
  - rewrite IH by (apply next_cursor_range; lia).
    unfold next_cursor. rewrite Zplus_mod_idemp_l. f_equal. lia.
Qed.

Lemma drawn_length perm c n : List.length (drawn perm c n) = n.
Proof.
  revert c. induction n as [|n IH]; intros c; cbn [drawn List.length].
  - reflexivity.
  - now rewrite IH.
Qed.

Lemma drawn_nth perm c n j :
  0 <= c < Js.length perm -> (j < n)%nat ->
  nth j (drawn perm c n) 0
  = nth (Z.to_nat ((c + 1 + Z.of_nat j) mod Js.length perm)) perm 0.
Proof.
  revert c j. induction n as [|n IH]; intros c j Hc Hj; [lia|].
  cbn [drawn]. destruct j as [|j]; cbn [nth].
  - unfold next_cursor. now rewrite Z.add_0_r.
  - rewrite IH by (try apply next_cursor_range; lia).
    unfold next_cursor. rewrite <- Z.add_assoc, Zplus_mod_idemp_l.
    do 3 f_equal. lia.
Qed.

Lemma get_in_range {A} (a : list A) (d : A) c :
  0 <= c < Js.length a -> get a (Num c) = Some (nth (Z.to_nat c) a d).
Proof.
  intros Hc. unfold get, Js.length in *.
  destruct (Z.ltb_spec c 0); [lia|].
  apply nth_error_nth'. lia.
Qed.

Lemma indices_below_nth P perm c :
  indices_below P perm -> 0 <= c < Js.length perm ->
  0 <= nth (Z.to_nat c) perm 0 < P.
Proof.
  intros Hp Hc. unfold indices_below in Hp. rewrite Forall_forall in Hp.
  apply Hp, nth_In. unfold Js.length in Hc. lia.
Qed.

Lemma drawn_below P perm c n :
  indices_below P perm -> 0 <= c < Js.length perm ->
  indices_below P (drawn perm c n).
Proof.
  intros Hp. revert c. induction n as [|n IH]; intros c Hc; cbn [drawn].
  - constructor.
  - assert (Hn := next_cursor_range (Js.length perm) c ltac:(lia)).
    constructor.
    + apply indices_below_nth; assumption.
    + apply IH. exact Hn.
Qed.

Lemma records_length {A} size (arr : list A) idxs :
  0 <= size ->
  Forall (fun v => 0 <= v /\ (v + 1) * size <= Js.length arr) idxs ->
  Js.length (flat_map (record_at size arr) idxs)
  = Z.of_nat (List.length idxs) * size.
Proof.
  intros Hs. induction 1 as [|v idxs [Hv Hl] _ IH]; cbn [flat_map List.length].
  - reflexivity.
  - pose proof (record_at_length size arr v Hs Hv Hl) as Hr.
    unfold Js.length in *. rewrite length_app. lia.
Qed.

Lemma indices_below_records {A} P size (arr : list A) idxs :
  0 <= size -> Js.length arr = P * size -> indices_below P idxs ->
  Forall (fun v => 0 <= v /\ (v + 1) * size <= Js.length arr) idxs.
Proof.
  intros Hs Hl Hb. unfold indices_below in Hb.
  eapply Forall_impl; [|exact Hb]. cbn beta. intros v Hv. split; [lia|nia].
Qed.

Section Sampler.
Variable index : M (option Z).
Variable at_cursor : Z -> MnistData.
Variable perm : list Z.
Variable imgs : list float.
Variable lbls : list Z.

Let P := Js.length perm.

Hypothesis index_at : forall c, 0 <= c < P ->
  index (at_cursor c)
  = (at_cursor (next_cursor P c), Ok (get perm (Num (next_cursor P c)))).
Hypothesis perm_below : indices_below P perm.
Hypothesis imgs_length : Js.length imgs = P * IMAGE_SIZE.
Hypothesis lbls_length : Js.length lbls = P * NUM_CLASSES.

Lemma index_draw c :
  0 <= c < P ->
  let c' := next_cursor P c in
  index (at_cursor c) = (at_cursor c', Ok (Some (nth (Z.to_nat c') perm 0))).
Proof.
  intros Hc c'. rewrite index_at by exact Hc. fold c'.
  rewrite (get_in_range perm 0) by (apply next_cursor_range; lia).
  reflexivity.
Qed.

Lemma draw_indices_at n : forall c,
  0 <= c < P ->
  draw_indices index n (at_cursor c)
  = (at_cursor (cursor_after P c n), Ok (map Some (drawn perm c n))).
Proof.
  induction n as [|n IH]; intros c Hc;
    cbn [draw_indices drawn cursor_after map].
  - reflexivity.
  - unfold bind. rewrite index_draw by exact Hc. cbn zeta.
    rewrite IH by (apply next_cursor_range; lia). reflexivity.
Qed.

Lemma nextBatch_loop_at n : forall i c bI bL,
  0 <= c < P -> 0 <= i ->
  (i + Z.of_nat n) * IMAGE_SIZE <= Js.length bI ->
  (i + Z.of_nat n) * NUM_CLASSES <= Js.length bL ->
  nextBatch_loop n i (Some imgs, Some lbls) index bI bL (at_cursor c)
  = (at_cursor (cursor_after P c n),
     Ok (firstn (Z.to_nat (i * IMAGE_SIZE)) bI
         ++ flat_map (record_at IMAGE_SIZE imgs) (drawn perm c n)
         ++ skipn (Z.to_nat ((i + Z.of_nat n) * IMAGE_SIZE)) bI,
         firstn (Z.to_nat (i * NUM_CLASSES)) bL
         ++ flat_map (record_at NUM_CLASSES lbls) (drawn perm c n)
         ++ skipn (Z.to_nat ((i + Z.of_nat n) * NUM_CLASSES)) bL)).
Proof.
  induction n as [|n IH]; intros i c bI bL Hc Hi HI HL.
  - cbn [nextBatch_loop drawn cursor_after flat_map app]. unfold ret.
    rewrite Z.add_0_r, !firstn_skipn. reflexivity.
  - cbn [nextBatch_loop drawn cursor_after flat_map].
    unfold bind at 1. rewrite index_draw by exact Hc. cbn zeta.
    set (c' := next_cursor P c).
    set (idx := nth (Z.to_nat c') perm 0).
    assert (Hc' : 0 <= c' < P) by (apply next_cursor_range; lia).
    assert (Hidx : 0 <= idx < P) by (apply indices_below_nth; assumption).
    cbn [fst snd deref record_slice]. unfold bind, ret, lift.
    fold (record_at IMAGE_SIZE imgs idx). fold (record_at NUM_CLASSES lbls idx).
    assert (HrI : Js.length (record_at IMAGE_SIZE imgs idx) = IMAGE_SIZE)
      by (apply record_at_length; unfold IMAGE_SIZE in *; lia).
    assert (HrL : Js.length (record_at NUM_CLASSES lbls idx) = NUM_CLASSES)
      by (apply record_at_length; unfold NUM_CLASSES in *; lia).
    rewrite set_inside by (unfold IMAGE_SIZE in *; lia).
    rewrite set_inside by (unfold NUM_CLASSES in *; lia).
    rewrite HrI, HrL.
    rewrite IH; try assumption; try lia.
    + f_equal. f_equal. f_equal.
      * pose proof (blit_next bI (record_at IMAGE_SIZE imgs idx)
          (flat_map (record_at IMAGE_SIZE imgs) (drawn perm c' n))
          (Z.to_nat (i * IMAGE_SIZE)) (Z.to_nat IMAGE_SIZE)
          (Z.to_nat (Z.of_nat n * IMAGE_SIZE))) as Hb.
        cbn zeta in Hb.
        replace (Z.to_nat (i * IMAGE_SIZE) + Z.to_nat IMAGE_SIZE)%nat
          with (Z.to_nat (i * IMAGE_SIZE + IMAGE_SIZE)) in Hb
          by (unfold IMAGE_SIZE; lia).
        replace (Z.to_nat (i * IMAGE_SIZE + IMAGE_SIZE)
                 + Z.to_nat (Z.of_nat n * IMAGE_SIZE))%nat
          with (Z.to_nat ((i + Z.of_nat (S n)) * IMAGE_SIZE)) in Hb
          by (unfold IMAGE_SIZE; lia).
        replace ((i + 1) * IMAGE_SIZE) with (i * IMAGE_SIZE + IMAGE_SIZE) by lia.
        replace ((i + 1 + Z.of_nat n) * IMAGE_SIZE)
          with ((i + Z.of_nat (S n)) * IMAGE_SIZE) by lia.
        apply Hb; unfold Js.length, IMAGE_SIZE in *; lia.
      * pose proof (blit_next bL (record_at NUM_CLASSES lbls idx)
          (flat_map (record_at NUM_CLASSES lbls) (drawn perm c' n))
          (Z.to_nat (i * NUM_CLASSES)) (Z.to_nat NUM_CLASSES)
          (Z.to_nat (Z.of_nat n * NUM_CLASSES))) as Hb.
        cbn zeta in Hb.
        replace (Z.to_nat (i * NUM_CLASSES) + Z.to_nat NUM_CLASSES)%nat
          with (Z.to_nat (i * NUM_CLASSES + NUM_CLASSES)) in Hb
          by (unfold NUM_CLASSES; lia).
        replace (Z.to_nat (i * NUM_CLASSES + NUM_CLASSES)
                 + Z.to_nat (Z.of_nat n * NUM_CLASSES))%nat
          with (Z.to_nat ((i + Z.of_nat (S n)) * NUM_CLASSES)) in Hb
          by (unfold NUM_CLASSES; lia).
        replace ((i + 1) * NUM_CLASSES) with (i * NUM_CLASSES + NUM_CLASSES) by lia.
        replace ((i + 1 + Z.of_nat n) * NUM_CLASSES)
          with ((i + Z.of_nat (S n)) * NUM_CLASSES) by lia.
        apply Hb; unfold Js.length, NUM_CLASSES in *; lia.
    + unfold Js.length in *. rewrite !length_app, length_firstn, length_skipn.
      unfold IMAGE_SIZE in *. lia.
    + unfold Js.length in *. rewrite !length_app, length_firstn, length_skipn.
      unfold NUM_CLASSES in *. lia.
Qed.

Lemma nextBatch_at batchSize c :
  0 <= c < P -> 0 <= batchSize -> allocates 4 (batchSize * IMAGE_SIZE) ->
  nextBatch batchSize (Some imgs, Some lbls) index (at_cursor c)
  = (at_cursor (cursor_after P c (Z.to_nat batchSize)),
     Ok (batch_of perm imgs lbls c batchSize)).
Proof.
  intros Hc Hb Ha. unfold nextBatch.
  rewrite !new_array_fits
    by (unfold allocates, IMAGE_SIZE, NUM_CLASSES in *; lia).
  unfold bind at 1. unfold lift at 1. unfold bind at 1. unfold lift at 1.
  unfold bind at 1.
  rewrite nextBatch_loop_at;
    try assumption; try lia;
    try (unfold Js.length; rewrite repeat_length, Z2Nat.id; lia).
  cbn [Z.mul]. change (Z.to_nat 0) with 0%nat. cbn [firstn app].
  rewrite Z.add_0_l, Z2Nat.id by exact Hb.
  rewrite !skipn_all2 by (rewrite repeat_length; lia).
  rewrite !app_nil_r.
  assert (HI : Js.length (flat_map (record_at IMAGE_SIZE imgs)
                  (drawn perm c (Z.to_nat batchSize)))
               = batchSize * IMAGE_SIZE).
  { rewrite records_length, drawn_length, Z2Nat.id;
      [reflexivity | exact Hb | unfold IMAGE_SIZE; lia |].
    eapply indices_below_records;
      [unfold IMAGE_SIZE; lia | exact imgs_length |].
    apply drawn_below; assumption. }
  assert (HL : Js.length (flat_map (record_at NUM_CLASSES lbls)
                  (drawn perm c (Z.to_nat batchSize)))
               = batchSize * NUM_CLASSES).
  { rewrite records_length, drawn_length, Z2Nat.id;
      [reflexivity | exact Hb | unfold NUM_CLASSES; lia |].
    eapply indices_below_records;
      [unfold NUM_CLASSES; lia | exact lbls_length |].
    apply drawn_below; assumption. }
  unfold bind, lift, ret, tensor2d. cbn [fst snd].
  rewrite HI, HL, !Z.eqb_refl. reflexivity.
Qed.

End Sampler.

(** The arrays the module creates with a size of its own are shorter than
    the buffer of the corpus, which the engine holds. *)
Lemma allocates_within_corpus bytes n :
  0 <= bytes <= 4 -> n <= NUM_DATASET_ELEMENTS * IMAGE_SIZE ->
  allocates bytes n.
Proof.
  intros Hb Hn. unfold allocates. pose proof holds_corpus as Hc.
  unfold NUM_DATASET_ELEMENTS, IMAGE_SIZE in *. nia.
Qed.

(** So is the image array of a batch of no more examples than the dataset
    has. *)
Lemma batch_allocates batchSize :
  batchSize <= NUM_DATASET_ELEMENTS ->
  allocates 4 (batchSize * IMAGE_SIZE).
Proof.
  intros Hn. apply allocates_within_corpus; [lia|].
  unfold NUM_DATASET_ELEMENTS, IMAGE_SIZE in *. lia.
Qed.

(** No engine allocates above the language's limit. *)
Lemma allocates_safe bytes n :
  allocates bytes n -> n * bytes <= MAX_SAFE_INTEGER.
Proof.
  unfold allocates. pose proof max_byte_length_safe. lia.
Qed.

(** A batch the engine does not allocate is refused before any draw. *)
Lemma nextBatch_refused batchSize data index this :
  batchSize < 0 \/ ~ allocates 4 (batchSize * IMAGE_SIZE) ->
  nextBatch batchSize data index this
  = (this, Throw (RangeError "Invalid typed array length")).
Proof.
  intros Hb. unfold nextBatch, bind, lift.
  rewrite new_array_refused; [reflexivity|].
  unfold allocates, IMAGE_SIZE in *. lia.
Qed.

(** ** The two partitions *)

Lemma set_cursor_same p this : set_cursor p (cursor_of p this) this = this.
Proof. destruct p, this; reflexivity. Qed.

Lemma set_cursor_twice p c c' this :
  set_cursor p c (set_cursor p c' this) = set_cursor p c this.
Proof. destruct p; reflexivity. Qed.

Lemma cursor_of_set p c this : cursor_of p (set_cursor p c this) = c.
Proof. destruct p; reflexivity. Qed.

Lemma indices_of_set p q c this :
  indices_of p (set_cursor q c this) = indices_of p this.
Proof. destruct p, q; reflexivity. Qed.

Lemma next_batch_unfold p batchSize this :
  next_batch p batchSize this
  = nextBatch batchSize (images_of p this, labels_of p this) (index_of p) this.
Proof. destruct p; reflexivity. Qed.

Lemma index_of_unfold p this :
  index_of p this =
  match indices_of p this with
  | None => (this, Throw (TypeError "Cannot read properties of null"))
  | Some indices =>
      let c := rem (succ (cursor_of p this)) (Js.length indices) in
      (set_cursor p c this, Ok (get indices c))
  end.
Proof. destruct p; reflexivity. Qed.

Lemma rem_succ_in_range P c :
  0 <= c < P -> rem (succ (Num c)) P = Num (next_cursor P c).
Proof.
  intros Hc. unfold rem, succ, next_cursor.
  destruct (Z.eqb_spec P 0); [lia|].
  rewrite Z.rem_mod_nonneg by lia. reflexivity.
Qed.

Lemma index_of_populated p this perm c :
  indices_of p this = Some perm -> 0 <= c < Js.length perm ->
  index_of p (set_cursor p (Num c) this)
  = (set_cursor p (Num (next_cursor (Js.length perm) c)) this,
     Ok (get perm (Num (next_cursor (Js.length perm) c)))).
Proof.
  intros Hi Hc. rewrite index_of_unfold, indices_of_set, Hi. cbn zeta.
  rewrite cursor_of_set, rem_succ_in_range, set_cursor_twice by exact Hc.
  reflexivity.
Qed.

(** A batch method on a populated partition returns the records it draws
    and leaves the cursor where the draws end. *)
Lemma next_batch_populated p this perm imgs lbls c batchSize :
  populated p this perm imgs lbls c -> 0 <= batchSize ->
  allocates 4 (batchSize * IMAGE_SIZE) ->
  next_batch p batchSize this
  = (set_cursor p
       (Num (cursor_after (Js.length perm) c (Z.to_nat batchSize))) this,
     Ok (batch_of perm imgs lbls c batchSize)).
Proof.
  intros [Hi HI HL Hb HIl HLl Hc Hr] Hn Ha.
  rewrite next_batch_unfold, HI, HL.
  rewrite <- (set_cursor_same p this) at 1. rewrite Hc.
  apply (nextBatch_at (index_of p) (fun c => set_cursor p (Num c) this));
    try assumption.
  intros c0 Hc0. apply index_of_populated; assumption.
Qed.

Lemma draw_indices_populated p this perm imgs lbls c n :
  populated p this perm imgs lbls c ->
  draw_indices (index_of p) n this
  = (set_cursor p (Num (cursor_after (Js.length perm) c n)) this,
     Ok (map Some (drawn perm c n))).
Proof.
  intros [Hi HI HL Hb HIl HLl Hc Hr].
  rewrite <- (set_cursor_same p this) at 1. rewrite Hc.
  apply (draw_indices_at (index_of p) (fun c => set_cursor p (Num c) this));
    try assumption.
  intros c0 Hc0. apply index_of_populated; assumption.
Qed.

(** ** Records of a batch *)

Lemma record_at_inside {A} size (a : list A) idx :
  0 <= size -> 0 <= idx -> (idx + 1) * size <= Js.length a ->
  record_at size a idx
  = firstn (Z.to_nat size) (skipn (Z.to_nat (idx * size)) a).
Proof.
  intros Hs Hi Hl. unfold record_at. rewrite slice_inside by nia.
  do 2 f_equal. lia.
Qed.


Lemma Forall_slice {A} (Q : A -> Prop) (a : list A) b e :
  Forall Q a -> Forall Q (slice a b e).
Proof.
  intros Ha. unfold slice. rewrite Forall_forall in *. intros x Hx.
  apply Ha.
  assert (Hsub : forall (l : list A) n y, In y (firstn n l) -> In y l).
  { intros l n y Hy. rewrite <- (firstn_skipn n l). apply in_or_app. now left. }
  assert (Hsk : forall (l : list A) n y, In y (skipn n l) -> In y l).
  { intros l n y Hy. rewrite <- (firstn_skipn n l). apply in_or_app. now right. }
  eapply Hsk, Hsub, Hx.
Qed.

Lemma Forall_records {A} (Q : A -> Prop) size (arr : list A) idxs :
  Forall Q arr -> Forall Q (flat_map (record_at size arr) idxs).
Proof.
  intros Ha. induction idxs as [|v idxs IH]; cbn [flat_map].
  - constructor.
  - apply Forall_app. split; [apply Forall_slice, Ha | exact IH].
Qed.

(** ** What one call of a batch method does *)


Lemma six_train_populated :
  populated Train six [3; 0; 5; 2; 4; 1]
    (example_images 6) (example_labels 6) 0.
Proof.
  constructor; try (vm_compute; reflexivity).
  - unfold indices_below. repeat constructor; vm_compute; congruence.
  - vm_compute. split; congruence.
Qed.

(** ** One pass over a permutation *)

Lemma cursor_after_cycle (perm : list Z) c :
  0 <= c < Js.length perm ->
  cursor_after (Js.length perm) c (List.length perm) = c.
Proof.
  intros Hc. rewrite cursor_after_closed by exact Hc.
  fold (Js.length perm).
  rewrite <- (Z.mul_1_l (Js.length perm)) at 1.
  rewrite Z_mod_plus_full. apply Z.mod_small. exact Hc.
Qed.

(** A pass of as many draws as the permutation has entries reads it from
    the entry after the cursor to its end, then from its start to the
    cursor. *)
Lemma drawn_cycle perm c :
  0 <= c < Js.length perm ->
  drawn perm c (List.length perm)
  = skipn (Z.to_nat (c + 1)) perm ++ firstn (Z.to_nat (c + 1)) perm.
Proof.
  intros Hc. pose proof Hc as Hc'. unfold Js.length in Hc'.
  apply (nth_ext _ _ 0 0).
  - rewrite drawn_length, length_app, length_skipn, length_firstn. lia.
  - intros j Hj. rewrite drawn_length in Hj.
    rewrite drawn_nth by assumption.
    destruct (Z.lt_ge_cases (c + 1 + Z.of_nat j) (Js.length perm)) as [Hlt|Hge].
    + rewrite Z.mod_small by lia.
      rewrite app_nth1 by (rewrite length_skipn; unfold Js.length in Hlt; lia).
      rewrite nth_skipn. f_equal. lia.
    + replace (c + 1 + Z.of_nat j)
        with (c + 1 + Z.of_nat j - Js.length perm + 1 * Js.length perm) by lia.
      rewrite Z_mod_plus_full, Z.mod_small by (unfold Js.length in *; lia).
      rewrite app_nth2 by (rewrite length_skipn; unfold Js.length in Hge; lia).
      rewrite length_skipn, nth_firstn.
      unfold Js.length in *.
      destruct (Nat.ltb_spec (j - (List.length perm - Z.to_nat (c + 1)))
                  (Z.to_nat (c + 1))); [|lia].
      f_equal. lia.
Qed.

Lemma drawn_periodic perm c n j :
  0 <= c < Js.length perm -> (j + List.length perm < n)%nat ->
  nth (j + List.length perm) (drawn perm c n) 0 = nth j (drawn perm c n) 0.
Proof.
  intros Hc Hj. rewrite !drawn_nth by (assumption || lia).
  rewrite Nat2Z.inj_add. fold (Js.length perm).
  replace (c + 1 + (Z.of_nat j + Js.length perm))
    with (c + 1 + Z.of_nat j + 1 * Js.length perm) by lia.
  rewrite Z_mod_plus_full. reflexivity.
Qed.

Lemma shuffle_of_NoDup P perm : shuffle_of P perm -> NoDup perm.
Proof.
  intros Hp. eapply Permutation_NoDup; [symmetry; exact Hp|].
  apply Finite.Injective_map_NoDup; [|apply seq_NoDup].
  intros x y. apply Nat2Z.inj.
Qed.

Lemma shuffle_of_below P perm : shuffle_of P perm -> indices_below P perm.
Proof.
  intros Hp. unfold indices_below. rewrite Forall_forall. intros v Hv.
  apply (Permutation_in _ Hp) in Hv. apply in_map_iff in Hv.
  destruct Hv as (k & <- & Hk). apply in_seq in Hk. lia.
Qed.

Lemma shuffle_of_length P perm :
  0 <= P -> shuffle_of P perm -> Js.length perm = P.
Proof.
  intros HP Hp. unfold Js.length.
  rewrite (Permutation_length Hp), length_map, length_seq. lia.
Qed.

Lemma rotation_Permutation {A} (l : list A) n :
  Permutation (skipn n l ++ firstn n l) l.
Proof.
  rewrite <- (firstn_skipn n l) at 3. apply Permutation_app_comm.
Qed.

(** ** C8: shape and content of a batch of any size *)

(** C8, as the code has it. On a populated partition whose image values
    are normalized into [0, 1] and whose label bytes are 0 or 1, a batch
    method called with a [batchSize >= 1] whose image array, of
    [batchSize * 784] floats of 4 bytes, the engine allocates, larger than
    the partition or not, returns images of shape [batchSize, 784] and
    labels of shape [batchSize, 10], holding that many records; every index
    it draws is in [0, partition size), the partition stays populated with
    its cursor inside the permutation, every image value of the batch is
    normalized and every label value is 0 or 1.  With a [batchSize] whose
    image array the engine does not allocate, the method throws a
    RangeError before it draws and leaves the object as it was; no engine
    allocates it once it takes more than 2^53 - 1 bytes. *)
Theorem nextBatch_any_size p this perm imgs lbls c batchSize :
  populated p this perm imgs lbls c -> 1 <= batchSize ->
  Forall normalized imgs -> Forall label_bit lbls ->
  (allocates 4 (batchSize * IMAGE_SIZE) ->
   exists b this' idxs,
     next_batch p batchSize this = (this', Ok b)
     /\ shape (xs b) = (batchSize, 784)
     /\ shape (labels b) = (batchSize, 10)
     /\ Js.length (values (xs b)) = batchSize * 784
     /\ Js.length (values (labels b)) = batchSize * 10
     /\ snd (draw_indices (index_of p) (Z.to_nat batchSize) this)
        = Ok (map Some idxs)
     /\ Forall (fun idx => 0 <= idx < Js.length perm) idxs
     /\ values (xs b) = flat_map (record_at IMAGE_SIZE imgs) idxs
     /\ values (labels b) = flat_map (record_at NUM_CLASSES lbls) idxs
     /\ populated p this' perm imgs lbls ((c + batchSize) mod Js.length perm)
     /\ Forall normalized (values (xs b))
     /\ Forall label_bit (values (labels b)))
  /\ (~ allocates 4 (batchSize * IMAGE_SIZE) ->
      next_batch p batchSize this
      = (this, Throw (RangeError "Invalid typed array length")))
  /\ (MAX_SAFE_INTEGER < batchSize * IMAGE_SIZE * 4 ->
      ~ allocates 4 (batchSize * IMAGE_SIZE)).
Proof.
  intros Hpop Hn HQI HQL. pose proof Hpop as [Hi HI HL Hb HIl HLl Hc Hr].
  split; [intros Ha | split;
    [intros Ha; rewrite next_batch_unfold; apply nextBatch_refused; now right
    | intros Hm Ha; apply allocates_safe in Ha; lia]].
  exists (batch_of perm imgs lbls c batchSize).
  exists (set_cursor p
            (Num (cursor_after (Js.length perm) c (Z.to_nat batchSize))) this).
  exists (drawn perm c (Z.to_nat batchSize)).
  assert (Hd := drawn_below (Js.length perm) perm c (Z.to_nat batchSize) Hb Hr).
  split; [apply next_batch_populated; [assumption|lia|assumption]|].
  split; [reflexivity|]. split; [reflexivity|].
  split.
  { cbn [batch_of xs values].
    rewrite records_length, drawn_length, Z2Nat.id;
      [reflexivity | lia | unfold IMAGE_SIZE; lia |].
    eapply indices_below_records; [unfold IMAGE_SIZE; lia | exact HIl | exact Hd]. }
  split.
  { cbn [batch_of labels values].
    rewrite records_length, drawn_length, Z2Nat.id;
      [reflexivity | lia | unfold NUM_CLASSES; lia |].
    eapply indices_below_records; [unfold NUM_CLASSES; lia | exact HLl | exact Hd]. }
  split.
  { rewrite (draw_indices_populated p this perm imgs lbls c) by assumption.
    reflexivity. }
  split; [exact Hd|].
  split; [reflexivity|]. split; [reflexivity|].
  split.
  { rewrite cursor_after_closed, Z2Nat.id by lia.
    assert (Hm : 0 <= (c + batchSize) mod Js.length perm < Js.length perm)
      by (apply Z.mod_pos_bound; lia).
    destruct p; constructor; try assumption; reflexivity. }
  split; cbn [batch_of xs labels values]; apply Forall_records; assumption.
Qed.

Lemma normalized_all l :
  forallb (fun x => ((0 <=? x) && (x <=? 1))%float) l = true ->
  Forall normalized l.
Proof.
  intros H. rewrite forallb_forall in H. apply Forall_forall. exact H.
Qed.

Lemma label_bit_all l :
  forallb (fun v => (v =? 0) || (v =? 1)) l = true -> Forall label_bit l.
Proof.
  intros H. rewrite forallb_forall in H. apply Forall_forall.
  intros v Hv. specialize (H v Hv). unfold label_bit. lia.
Qed.

(** ** C2: the order of the draws of a fresh partition *)

(** C2, as the code has it. On a partition of size P populated with a
    shuffle of [0, P) and with the cursor where the constructor put it (0),
    the draws follow the permutation cyclically from its position 1: P
    consecutive draws yield each index of [0, P) exactly once, in the order
    permutation[1], ..., permutation[P-1], permutation[0], and leave the
    cursor where it was; any draw equals the draw P places before it, so
    the (P+1)-th is the 1st and the order is never reshuffled. A batch
    method returns the records of these draws, for a batch the engine
    allocates. *)
Theorem draws_cycle_from_position_one p this perm imgs lbls :
  populated p this perm imgs lbls 0 ->
  shuffle_of (Js.length perm) perm ->
  let P := List.length perm in
  (forall n,
     draw_indices (index_of p) n this
     = (set_cursor p (Num (Z.of_nat n mod Js.length perm)) this,
        Ok (map Some (drawn perm 0 n))))
  /\ (forall batchSize,
       0 <= batchSize -> allocates 4 (batchSize * IMAGE_SIZE) ->
       snd (next_batch p batchSize this)
       = Ok (batch_of perm imgs lbls 0 batchSize))
  /\ draw_indices (index_of p) P this
     = (this, Ok (map Some (skipn 1 perm ++ firstn 1 perm)))
  /\ Permutation (drawn perm 0 P) (map Z.of_nat (seq 0 P))
  /\ NoDup (drawn perm 0 P)
  /\ (forall n j, (j + P < n)%nat ->
       nth (j + P) (drawn perm 0 n) 0 = nth j (drawn perm 0 n) 0)
  /\ nth P (drawn perm 0 (P + 1)) 0 = nth 0 (drawn perm 0 (P + 1)) 0.
Proof.
  intros Hpop Hsh P. pose proof Hpop as [Hi HI HL Hb HIl HLl Hc Hr].
  assert (Hcyc : drawn perm 0 P = skipn 1 perm ++ firstn 1 perm)
    by (apply (drawn_cycle perm 0 Hr)).
  assert (HP : Z.to_nat (Js.length perm) = P)
    by (unfold Js.length, P; lia).
  split; [|split; [|split; [|split; [|split; [|split]]]]].
  - intros n. rewrite (draw_indices_populated p this perm imgs lbls 0 n Hpop).
    rewrite cursor_after_closed by exact Hr. reflexivity.
  - intros batchSize Hn Ha.
    rewrite (next_batch_populated p this perm imgs lbls 0) by assumption.
    reflexivity.
  - rewrite (draw_indices_populated p this perm imgs lbls 0 P Hpop).
    unfold P at 1. rewrite cursor_after_cycle by exact Hr.
    rewrite <- Hc, set_cursor_same, Hcyc. reflexivity.
  - rewrite Hcyc. etransitivity; [apply rotation_Permutation|].
    rewrite <- HP. exact Hsh.
  - rewrite Hcyc. eapply Permutation_NoDup;
      [symmetry; apply rotation_Permutation|].
    eapply shuffle_of_NoDup, Hsh.
  - intros n j Hj. apply drawn_periodic; assumption.
  - apply (drawn_periodic perm 0 (P + 1) 0 Hr). unfold P. lia.
Qed.

Lemma six_shuffle :
  shuffle_of (Js.length [3; 0; 5; 2; 4; 1]) [3; 0; 5; 2; 4; 1].
Proof.
  unfold shuffle_of. change (Permutation [3; 0; 5; 2; 4; 1] [0; 1; 2; 3; 4; 5]).
  apply (Permutation_cons_app [0; 1; 2] [4; 5]). cbn [app].
  apply perm_skip.
  apply (Permutation_cons_app [1; 2; 4] []). cbn [app].
  apply (Permutation_cons_app [1] [4]). cbn [app].
  apply (Permutation_cons_app [1] []). cbn [app].
  apply Permutation_refl.
Qed.

(** ** C3: the first batch of four out of six *)

(** C3, as the code has it. On an object whose cursors are the
    constructor's (0), a batch method called with [batchSize = 4] on a
    partition of size 6 whose permutation is 3, 0, 5, 2, 4, 1 draws the
    indices 0, 5, 2, 4 in that order (the entries at positions 1 to 4: the
    cursor is advanced before it is read), returns their records, and
    leaves the cursor at position 4, which holds index 4. *)
Theorem first_batch_starts_at_position_one p this imgs lbls :
  populated p this [3; 0; 5; 2; 4; 1] imgs lbls 0 ->
  draw_indices (index_of p) 4 this
  = (set_cursor p (Num 4) this, Ok (map Some [0; 5; 2; 4]))
  /\ (exists b,
        next_batch p 4 this = (set_cursor p (Num 4) this, Ok b)
        /\ values (xs b) = flat_map (record_at IMAGE_SIZE imgs) [0; 5; 2; 4]
        /\ values (labels b) = flat_map (record_at NUM_CLASSES lbls) [0; 5; 2; 4])
  /\ get [3; 0; 5; 2; 4; 1] (Num 4) = Some 4.
Proof.
  intros Hpop. split; [|split].
  - rewrite (draw_indices_populated p this _ imgs lbls 0 4 Hpop). reflexivity.
  - exists (batch_of [3; 0; 5; 2; 4; 1] imgs lbls 0 4).
    rewrite (next_batch_populated p this _ imgs lbls 0 4 Hpop)
      by (try apply batch_allocates; unfold NUM_DATASET_ELEMENTS; lia).
    repeat split.
  - reflexivity.
Qed.

(** ** C10: what a batch method leaves untouched *)

Lemma moved_refl p this : moved p this this.
Proof.
  exists (cursor_of p this). split; [symmetry; apply set_cursor_same | tauto].
Qed.

Lemma moved_trans p this1 this2 this3 :
  moved p this1 this2 -> moved p this2 this3 -> moved p this1 this3.
Proof.
  intros (c & -> & H12) (c' & -> & H23).
  exists c'. split; [apply set_cursor_twice|].
  rewrite indices_of_set, cursor_of_set in H23. tauto.
Qed.

Lemma index_of_moved p this : moved p this (fst (index_of p this)).
Proof.
  rewrite index_of_unfold.
  destruct (indices_of p this) as [perm|] eqn:Hi; [|apply moved_refl].
  cbn [fst]. eexists. split; [reflexivity|]. rewrite Hi.
  destruct (cursor_of p this) as [c|]; cbn [in_range]; [|tauto].
  intros Hc. rewrite rem_succ_in_range by exact Hc. cbn [in_range].
  apply next_cursor_range. lia.
Qed.

Lemma nextBatch_loop_moved p n : forall i data bI bL this,
  moved p this (fst (nextBatch_loop n i data (index_of p) bI bL this)).
Proof.
  induction n as [|n IH]; intros i data bI bL this; cbn [nextBatch_loop].
  - apply moved_refl.
  - unfold bind at 1.
    pose proof (index_of_moved p this) as Hm.
    destruct (index_of p this) as [this1 [idx|e]]; cbn [fst] in *;
      [|exact Hm].
    unfold bind, lift, ret, deref.
    destruct (fst data) as [images|]; [|exact Hm].
    unfold ret, lift. cbn beta iota.
    match goal with
    | |- context [Js.set bI ?src ?o] => destruct (Js.set bI src o) as [bI'|e]
    end; [|exact Hm].
    destruct (snd data) as [labels|]; [|exact Hm].
    unfold ret, lift. cbn beta iota.
    match goal with
    | |- context [Js.set bL ?src ?o] => destruct (Js.set bL src o) as [bL'|e]
    end; [|exact Hm].
    eapply moved_trans; [exact Hm | apply IH].
Qed.

Lemma next_batch_moved p batchSize this :
  moved p this (fst (next_batch p batchSize this)).
Proof.
  rewrite next_batch_unfold. unfold nextBatch, bind, lift, ret.
  destruct (new_array _ _ 0%float _) as [bI|e]; [|apply moved_refl].
  destruct (new_array _ _ 0 _) as [bL|e]; [|apply moved_refl].
  pose proof (nextBatch_loop_moved p (Z.to_nat batchSize) 0
                (images_of p this, labels_of p this) bI bL this) as Hm.
  destruct (nextBatch_loop _ _ _ _ _ _ _) as [this1 [[images labels]|e]];
    cbn [fst] in *; [|exact Hm].
  destruct (tensor2d images _); [|exact Hm].
  destruct (tensor2d labels _); exact Hm.
Qed.

(** C10. Whatever the object and the batch size, and whether the call
    returns or throws, [nextTrainBatch] leaves an object that differs from
    the one it found in [shuffledTrainIndex] at most: the test cursor, both
    corpora, the four partition arrays and both index permutations are the
    ones it found; and [nextTestBatch] likewise changes [shuffledTestIndex]
    at most. *)
Theorem batch_methods_move_their_cursor_only batchSize this :
  (let this' := fst (nextTrainBatch batchSize this) in
   this' = set_shuffledTrainIndex (shuffledTrainIndex this') this
   /\ shuffledTestIndex this' = shuffledTestIndex this
   /\ datasetImages this' = datasetImages this
   /\ datasetLabels this' = datasetLabels this
   /\ trainIndices this' = trainIndices this
   /\ testIndices this' = testIndices this
   /\ trainImages this' = trainImages this
   /\ testImages this' = testImages this
   /\ trainLabels this' = trainLabels this
   /\ testLabels this' = testLabels this)
  /\
  (let this' := fst (nextTestBatch batchSize this) in
   this' = set_shuffledTestIndex (shuffledTestIndex this') this
   /\ shuffledTrainIndex this' = shuffledTrainIndex this
   /\ datasetImages this' = datasetImages this
   /\ datasetLabels this' = datasetLabels this
   /\ trainIndices this' = trainIndices this
   /\ testIndices this' = testIndices this
   /\ trainImages this' = trainImages this
   /\ testImages this' = testImages this
   /\ trainLabels this' = trainLabels this
   /\ testLabels this' = testLabels this).
Proof.
  split.
  - destruct (next_batch_moved Train batchSize this) as (c & Hc & _).
    cbn [next_batch set_cursor] in Hc. cbn zeta. rewrite Hc.
    repeat split.
  - destruct (next_batch_moved Test batchSize this) as (c & Hc & _).
    cbn [next_batch set_cursor] in Hc. cbn zeta. rewrite Hc.
    repeat split.
Qed.

(** ** C5: the retry wrappers *)

Lemma retry_loop_third_time {A} (op : Z -> result A) e1 e2 r :
  op 1 = Throw e1 -> op 2 = Throw e2 ->
  (r = op 3) ->
  retry_loop (Z.to_nat MAX_RETRIES) 1 MAX_RETRIES op
  = ([Attempt 1; Delay (RETRY_DELAY * 1); Attempt 2; Delay (RETRY_DELAY * 2);
      Attempt 3],
     match r with Ok v => Ok (Some v) | Throw e3 => Throw e3 end).
Proof.
  intros H1 H2 ->.
  change (Z.to_nat MAX_RETRIES) with 3%nat. cbn [retry_loop].
  rewrite H1. change (1 =? MAX_RETRIES) with false. cbn iota.
  change (1 + 1) with 2. rewrite H2.
  change (2 =? MAX_RETRIES) with false. cbn iota.
  change (2 + 1) with 3. destruct (op 3); reflexivity.
Qed.

(** C5. For either wrapped load, with the default [MAX_RETRIES]: if the
    load fails on attempts 1 and 2 and succeeds on attempt 3, the wrapper
    returns that result after the three attempts, hence two retries, having
    waited [RETRY_DELAY * 1] after the first failure and [RETRY_DELAY * 2]
    after the second; if the load fails on attempt 3 too, the wrapper makes
    exactly these three attempts with the same two delays, waits no
    further, and throws the very error of attempt 3. *)
Theorem retry_wrappers_back_off_and_rethrow
    (images : Z -> image_event) (labels : Z -> fetch_outcome) :
  let trace :=
    [Attempt 1; Delay (RETRY_DELAY * 1); Attempt 2; Delay (RETRY_DELAY * 2);
     Attempt 3] in
  (forall e1 e2 v,
     loadImages (images 1) = Throw e1 -> loadImages (images 2) = Throw e2 ->
     loadImages (images 3) = Ok v ->
     loadImagesWithRetry MAX_RETRIES images = (trace, Ok (Some v)))
  /\ (forall e1 e2 e3,
      loadImages (images 1) = Throw e1 -> loadImages (images 2) = Throw e2 ->
      loadImages (images 3) = Throw e3 ->
      loadImagesWithRetry MAX_RETRIES images = (trace, Throw e3))
  /\ (forall e1 e2 v,
      loadLabels (labels 1) = Throw e1 -> loadLabels (labels 2) = Throw e2 ->
      loadLabels (labels 3) = Ok v ->
      loadLabelsWithRetry MAX_RETRIES labels = (trace, Ok (Some v)))
  /\ (forall e1 e2 e3,
      loadLabels (labels 1) = Throw e1 -> loadLabels (labels 2) = Throw e2 ->
      loadLabels (labels 3) = Throw e3 ->
      loadLabelsWithRetry MAX_RETRIES labels = (trace, Throw e3)).
Proof.
  intros trace. unfold loadImagesWithRetry, loadLabelsWithRetry.
  repeat split; intros ? ? ? H1 H2 H3;
    rewrite (retry_loop_third_time _ _ _ _ H1 H2 eq_refl), H3; reflexivity.
Qed.

(** ** The sprite decoder *)

Lemma view_store_length buf off len j v :
  Js.length (view_store buf off len j v) = Js.length buf.
Proof.
  unfold view_store. destruct (_ && _); [apply store_length | reflexivity].
Qed.

Lemma pixel_loop_length data off len n : forall j buf,
  Js.length (pixel_loop n j data off len buf) = Js.length buf.
Proof.
  induction n as [|n IH]; intros j buf; cbn [pixel_loop].
  - reflexivity.
  - rewrite IH. apply view_store_length.
Qed.

Lemma get_view_store buf off len j v k :
  0 <= off -> 0 <= j -> off + len <= Js.length buf ->
  get (view_store buf off len j v) (Num k)
  = if (j <? len) && (k =? off + j) then Some v else get buf (Num k).
Proof.
  intros Ho Hj Hl. unfold view_store.
  destruct (Z.leb_spec 0 j); [|lia]. cbn [andb].
  destruct (Z.ltb_spec j len); cbn [andb]; [|reflexivity].
  rewrite get_store.
  destruct (Z.leb_spec 0 (off + j)); [|lia].
  destruct (Z.ltb_spec (off + j) (Js.length buf)); [|lia].
  reflexivity.
Qed.

(** What one chunk's pixel loop leaves in the buffer: the red channel of
    pixel [j], normalized, at [offset + j], for the pixels the loop visits
    inside the view; the rest of the buffer as it was. *)
Lemma pixel_loop_get data off len n : forall j buf k,
  0 <= off -> 0 <= j -> off + len <= Js.length buf ->
  get (pixel_loop n j data off len buf) (Num k)
  = if (off + j <=? k) && (k <? off + Z.min (j + Z.of_nat n) len)
    then Some (red_channel data (k - off))
    else get buf (Num k).
Proof.
  induction n as [|n IH]; intros j buf k Ho Hj Hl; cbn [pixel_loop].
  - destruct (Z.leb_spec (off + j) k); cbn [andb]; [|reflexivity].
    destruct (Z.ltb_spec k (off + Z.min (j + Z.of_nat 0) len)); [lia|reflexivity].
  - rewrite IH by (rewrite ?view_store_length; lia).
    rewrite get_view_store by assumption.
    destruct (Z.leb_spec (off + (j + 1)) k);
      destruct (Z.ltb_spec k (off + Z.min (j + 1 + Z.of_nat n) len));
      destruct (Z.leb_spec (off + j) k);
      destruct (Z.ltb_spec k (off + Z.min (j + Z.of_nat (S n)) len));
      destruct (Z.ltb_spec j len);
      destruct (Z.eqb_spec k (off + j));
      cbn [andb]; try reflexivity; try lia.
    subst k. do 2 f_equal. lia.
Qed.

Lemma pixel_count_spec data j :
  0 <= j -> (j < Z.of_nat (pixel_count data) <-> j * 4 < Js.length data).
Proof.
  intros Hj. unfold pixel_count. pose proof (length_nonneg data) as Hl.
  rewrite Z2Nat.id by (apply Z.div_pos; lia).
  pose proof (Z.div_mod (Js.length data + 3) 4 ltac:(lia)) as Hd.
  pose proof (Z.mod_pos_bound (Js.length data + 3) 4 ltac:(lia)) as Hm.
  lia.
Qed.

(** What the chunk loop leaves in the buffer when every chunk fits in it
    and the canvas returns the pixels [datas q] for every chunk [q]. *)
Lemma chunk_loop_get canvas datas n : forall i buf,
  0 <= i ->
  (i + Z.of_nat n) * (IMAGE_SIZE * chunkSize) <= Js.length buf ->
  (forall q, i <= q < i + Z.of_nat n -> canvas q = Ok (datas q)) ->
  exists out,
    chunk_loop n i canvas buf = Ok out
    /\ Js.length out = Js.length buf
    /\ forall q j,
         0 <= j < IMAGE_SIZE * chunkSize ->
         get out (Num (q * (IMAGE_SIZE * chunkSize) + j))
         = if (i <=? q) && (q <? i + Z.of_nat n)
              && (j * 4 <? Js.length (datas q))
           then Some (red_channel (datas q) j)
           else get buf (Num (q * (IMAGE_SIZE * chunkSize) + j)).
Proof.
  induction n as [|n IH]; intros i buf Hi Hfit Hcanvas; cbn [chunk_loop].
  - exists buf. split; [reflexivity|]. split; [reflexivity|].
    intros q j Hj.
    destruct (Z.leb_spec i q); destruct (Z.ltb_spec q (i + Z.of_nat 0));
      cbn [andb]; try reflexivity; lia.
  - destruct (Z.ltb_spec (Js.length buf * 4)
                (i * IMAGE_SIZE * chunkSize * 4 + IMAGE_SIZE * chunkSize * 4)) as [Hbad|_];
      [unfold IMAGE_SIZE, chunkSize in *; lia|].
    rewrite (Hcanvas i) by lia.
    set (buf1 := pixel_loop _ _ _ _ _ buf).
    assert (Hlen1 : Js.length buf1 = Js.length buf) by apply pixel_loop_length.
    destruct (IH (i + 1) buf1) as (out & Hrun & Hlen & Hget).
    + lia.
    + rewrite Hlen1. unfold IMAGE_SIZE, chunkSize in *. lia.
    + intros q Hq. apply Hcanvas. lia.
    + exists out. split; [exact Hrun|]. split; [congruence|].
      intros q j Hj. rewrite Hget by exact Hj.
      unfold buf1.
      rewrite pixel_loop_get
        by (unfold IMAGE_SIZE, chunkSize in *; lia).
      pose proof (pixel_count_spec (datas i) j ltac:(lia)) as Hpc.
      destruct (Z.eq_dec q i) as [->|Hqi].
      * replace (i * (IMAGE_SIZE * chunkSize) + j
                 - i * IMAGE_SIZE * chunkSize) with j by lia.
        destruct (Z.leb_spec (i + 1) i); [lia|].
        destruct (Z.leb_spec i i); [|lia].
        destruct (Z.ltb_spec i (i + Z.of_nat (S n))); [|lia].
        cbn [andb].
        destruct (Z.leb_spec (i * IMAGE_SIZE * chunkSize + 0)
                    (i * (IMAGE_SIZE * chunkSize) + j)); [|lia].
        cbn [andb].
        destruct (Z.ltb_spec (j * 4) (Js.length (datas i)));
          destruct (Z.ltb_spec (i * (IMAGE_SIZE * chunkSize) + j)
                      (i * IMAGE_SIZE * chunkSize
                       + Z.min (0 + Z.of_nat (pixel_count (datas i)))
                           (IMAGE_SIZE * chunkSize)));
          try reflexivity; lia.
      * destruct (Z.leb_spec (i * IMAGE_SIZE * chunkSize + 0)
                    (q * (IMAGE_SIZE * chunkSize) + j));
          destruct (Z.ltb_spec (q * (IMAGE_SIZE * chunkSize) + j)
                      (i * IMAGE_SIZE * chunkSize
                       + Z.min (0 + Z.of_nat (pixel_count (datas i)))
                           (IMAGE_SIZE * chunkSize)));
          cbn [andb];
          [unfold IMAGE_SIZE, chunkSize in *; lia | | |];
          (destruct (Z.leb_spec (i + 1) q); destruct (Z.leb_spec i q);
           destruct (Z.ltb_spec q (i + 1 + Z.of_nat n));
           destruct (Z.ltb_spec q (i + Z.of_nat (S n)));
           cbn [andb]; try reflexivity; lia).
Qed.

Lemma get_repeat {A} (x : A) n k :
  0 <= k < Z.of_nat n -> get (repeat x n) (Num k) = Some x.
Proof.
  intros Hk. rewrite (get_in_range _ x) by (unfold Js.length; rewrite repeat_length; lia).
  f_equal. apply nth_repeat.
Qed.

Lemma chunk_count_multiple m :
  0 <= m -> chunk_count (m * chunkSize) = Z.to_nat m.
Proof.
  intros Hm. unfold chunk_count, chunkSize. f_equal.
  symmetry. apply (Z.div_unique _ 5000 m 4999); lia.
Qed.

(** Every byte of a pixel decodes to a value in [0, 1]. *)
Lemma red_normalized red :
  0 <= red <= 255 -> normalized (fround (of_Z red / 255)).
Proof.
  intros Hr.
  assert (Hall : forallb (fun r => let v := fround (of_Z r / 255) in
                                ((0 <=? v) && (v <=? 1))%float)
                   (map Z.of_nat (seq 0 256)) = true)
    by (vm_compute; reflexivity).
  rewrite forallb_forall in Hall. apply (Hall red).
  apply in_map_iff. exists (Z.to_nat red). split; [lia|].
  apply in_seq. lia.
Qed.

(** A count that is a multiple of the chunk size: every chunk is decoded
    into its own part of the buffer. *)
Lemma decodeSprite_whole_chunks N canvas datas :
  0 <= N -> N mod chunkSize = 0 -> allocates 4 (N * IMAGE_SIZE) ->
  (forall q, 0 <= q < N / chunkSize -> canvas q = Ok (datas q)) ->
  exists out,
    decodeSprite N canvas = Ok out
    /\ chunk_count N = Z.to_nat (N / chunkSize)
    /\ Js.length out = N * 784
    /\ forall q j,
         0 <= q < N / chunkSize -> 0 <= j < 5000 * 784 ->
         q * 5000 * 784 + j < Js.length out
         /\ get out (Num (q * 5000 * 784 + j))
            = Some (if j * 4 <? Js.length (datas q)
                    then red_channel (datas q) j else 0%float)
         /\ forall red,
              get (datas q) (Num (j * 4)) = Some red ->
              get out (Num (q * 5000 * 784 + j))
              = Some (fround (of_Z red / 255))
              /\ (0 <= red <= 255 -> normalized (fround (of_Z red / 255))).
Proof.
  intros HN Hmul Ha Hcanvas.
  pose proof (Z.div_mod N chunkSize ltac:(unfold chunkSize; lia)) as Hd.
  rewrite Hmul, Z.add_0_r, Z.mul_comm in Hd.
  assert (Hm : 0 <= N / chunkSize) by (apply Z.div_pos; unfold chunkSize; lia).
  remember (N / chunkSize) as m eqn:Hm_def in *. clear Hm_def Hmul.
  subst N.
  unfold decodeSprite.
  rewrite new_array_fits
    by (unfold allocates, IMAGE_SIZE, chunkSize in *; lia).
  rewrite chunk_count_multiple by exact Hm.
  set (buf := repeat 0%float (Z.to_nat (m * chunkSize * IMAGE_SIZE))).
  assert (Hbuf : Js.length buf = m * chunkSize * IMAGE_SIZE)
    by (unfold buf, Js.length; rewrite repeat_length;
        unfold IMAGE_SIZE, chunkSize; lia).
  destruct (chunk_loop_get canvas datas (Z.to_nat m) 0 buf)
    as (out & Hrun & Hlen & Hget).
  - lia.
  - rewrite Hbuf. unfold IMAGE_SIZE, chunkSize. lia.
  - intros q Hq. apply Hcanvas. lia.
  - exists out. split; [exact Hrun|].
    split; [reflexivity|].
    split; [rewrite Hlen, Hbuf; reflexivity|].
    intros q j Hq Hj.
    assert (Hin : q * 5000 * 784 + j < Js.length out)
      by (rewrite Hlen, Hbuf; unfold IMAGE_SIZE, chunkSize; lia).
    assert (Hval : get out (Num (q * 5000 * 784 + j))
                   = Some (if j * 4 <? Js.length (datas q)
                           then red_channel (datas q) j else 0%float)).
    { replace (q * 5000 * 784 + j)
        with (q * (IMAGE_SIZE * chunkSize) + j)
        by (unfold IMAGE_SIZE, chunkSize; lia).
      rewrite Hget by (unfold IMAGE_SIZE, chunkSize; lia).
      destruct (Z.leb_spec 0 q); [|lia].
      destruct (Z.ltb_spec q (0 + Z.of_nat (Z.to_nat m))); [|lia].
      cbn [andb].
      destruct (Z.ltb_spec (j * 4) (Js.length (datas q))); [reflexivity|].
      unfold buf. apply get_repeat.
      rewrite Z2Nat.id by (unfold IMAGE_SIZE, chunkSize; lia).
      unfold IMAGE_SIZE, chunkSize. lia. }
    split; [exact Hin|]. split; [exact Hval|].
    intros red Hred. split; [|apply red_normalized].
    rewrite Hval. unfold red_channel. rewrite Hred.
    destruct (Z.ltb_spec (j * 4) (Js.length (datas q))) as [|Hout];
      [reflexivity|].
    exfalso. unfold get, Js.length in *.
    destruct (Z.ltb_spec (j * 4) 0); [discriminate|].
    assert (Hsome : nth_error (datas q) (Z.to_nat (j * 4)) <> None)
      by congruence.
    apply nth_error_Some in Hsome. lia.
Qed.

(** The engine holds the buffer of the corpus. *)
Lemma corpus_allocates : allocates 4 (NUM_DATASET_ELEMENTS * IMAGE_SIZE).
Proof. apply allocates_within_corpus; lia. Qed.

(** The decoding once its buffer is allocated. *)
Lemma decodeSprite_allocating N canvas :
  0 <= N -> allocates 4 (N * IMAGE_SIZE) ->
  decodeSprite N canvas
  = chunk_loop (chunk_count N) 0 canvas
      (repeat 0%float (Z.to_nat (N * IMAGE_SIZE))).
Proof.
  intros HN Ha. unfold decodeSprite.
  rewrite new_array_fits
    by (unfold allocates, IMAGE_SIZE in *; lia).
  reflexivity.
Qed.

(** A decoding that returned had its buffer allocated. *)
Lemma decodeSprite_allocated N canvas out :
  decodeSprite N canvas = Ok out -> allocates 4 (N * IMAGE_SIZE).
Proof.
  unfold decodeSprite, new_array, allocates.
  destruct (Z.ltb_spec (N * IMAGE_SIZE) 0); [discriminate|].
  destruct (Z.ltb_spec max_byte_length (N * IMAGE_SIZE * 4));
    [discriminate|]. lia.
Qed.

Lemma loadImages_Loaded canvas :
  loadImages (Loaded canvas)
  = rethrow "Failed to process images: "
      (decodeSprite NUM_DATASET_ELEMENTS canvas).
Proof. reflexivity. Qed.

(** ** C7: the chunks of the sprite decoder *)



(** ** Loading *)

Lemma NUM_TRAIN_ELEMENTS_eq : NUM_TRAIN_ELEMENTS = 54166.
Proof. vm_compute. reflexivity. Qed.

Lemma NUM_TEST_ELEMENTS_eq : NUM_TEST_ELEMENTS = 10834.
Proof. unfold NUM_TEST_ELEMENTS. rewrite NUM_TRAIN_ELEMENTS_eq. reflexivity. Qed.

Lemma validateData_state this : fst (validateData this) = this.
Proof.
  unfold validateData.
  repeat match goal with
         | |- context [if ?b then _ else _] => destruct b
         end; reflexivity.
Qed.

Lemma validateData_ok this :
  snd (validateData this) = Ok tt
  <-> sizes_ok (datasetImages this) (datasetLabels this).
Proof.
  unfold validateData, sizes_ok, corpus_length.
  unfold NUM_DATASET_ELEMENTS, IMAGE_SIZE, NUM_CLASSES.
  destruct (datasetImages this) as [dI|], (datasetLabels this) as [dL|];
    repeat match goal with
           | |- context [Z.eqb ?a ?b] => destruct (Z.eqb_spec a b)
           end; cbn [negb snd]; split; intros H;
    try reflexivity; try discriminate; lia.
Qed.

Lemma sizes_ok_dec imageData labelData :
  sizes_ok imageData labelData \/ ~ sizes_ok imageData labelData.
Proof.
  unfold sizes_ok.
  destruct (Z.eq_dec (corpus_length imageData) (65000 * 784));
    destruct (Z.eq_dec (corpus_length labelData) (65000 * 10)); tauto.
Qed.

Lemma install_ok imageData labelData w this :
  sizes_ok imageData labelData ->
  exists dImages dLabels,
    imageData = Some dImages /\ labelData = Some dLabels
    /\ install imageData labelData w this
       = (set_partitions w dImages dLabels
            (set_dataset imageData labelData this), Ok tt).
Proof.
  intros Hs. unfold install.
  pose proof (validateData_state (set_dataset imageData labelData this)) as Hst.
  pose proof (proj2 (validateData_ok (set_dataset imageData labelData this)) Hs) as Hok.
  destruct (validateData _) as [this' r]. cbn [fst snd] in *. subst this' r.
  destruct Hs as [HI HL].
  destruct imageData as [dI|]; [|discriminate HI].
  destruct labelData as [dL|]; [|discriminate HL].
  exists dI, dL. repeat split.
Qed.

Lemma install_refused imageData labelData w this :
  ~ sizes_ok imageData labelData ->
  exists e,
    snd (validateData (set_dataset imageData labelData this)) = Throw e
    /\ install imageData labelData w this
       = (set_dataset imageData labelData this, Throw e).
Proof.
  intros Hs. unfold install.
  pose proof (validateData_state (set_dataset imageData labelData this)) as Hst.
  pose proof (validateData_ok (set_dataset imageData labelData this)) as Hok.
  destruct (validateData _) as [this' r]. cbn [fst snd] in *. subst this'.
  destruct r as [[]|e].
  - exfalso. apply Hs, Hok. reflexivity.
  - exists e. split; reflexivity.
Qed.

Lemma load_after_both w this imageData labelData :
  loadBoth w = Ok (imageData, labelData) ->
  load w this
  = (fst (install imageData labelData w this),
     rethrow "Failed to load MNIST dataset: "
       (snd (install imageData labelData w this))).
Proof.
  intros Hb. unfold load. rewrite Hb.
  destruct (install imageData labelData w this). reflexivity.
Qed.

(** A load that returns has found both corpora of the sizes of the full
    dataset and has split them. *)
Lemma load_returned w this this' :
  load w this = (this', Ok tt) ->
  exists dImages dLabels,
    loadBoth w = Ok (Some dImages, Some dLabels)
    /\ Js.length dImages = 65000 * 784
    /\ Js.length dLabels = 65000 * 10
    /\ this' = set_partitions w dImages dLabels
                 (set_dataset (Some dImages) (Some dLabels) this).
Proof.
  intros Hl. destruct (loadBoth w) as [[imageData labelData]|e] eqn:Hb.
  - rewrite (load_after_both w this imageData labelData Hb) in Hl.
    assert (Hs : sizes_ok imageData labelData).
    { destruct (sizes_ok_dec imageData labelData) as [|Hn]; [assumption|].
      destruct (install_refused imageData labelData w this Hn) as (e & _ & Hi).
      rewrite Hi in Hl. discriminate Hl. }
    destruct (install_ok imageData labelData w this Hs)
      as (dI & dL & -> & -> & Hi).
    rewrite Hi in Hl. cbn [fst snd rethrow] in Hl.
    exists dI, dL. destruct Hs as [HI HL].
    repeat split; try assumption. congruence.
  - unfold load in Hl. rewrite Hb in Hl. discriminate Hl.
Qed.

(** ** Worlds in which both requests succeed *)

Lemma retry_loop_first_time {A} (op : Z -> result A) a n retries :
  op 1 = Ok a ->
  retry_loop (S n) 1 retries op = ([Attempt 1], Ok (Some a)).
Proof. intros H. cbn [retry_loop]. rewrite H. reflexivity. Qed.

Lemma white_canvas_decoded :
  exists out,
    decodeSprite NUM_DATASET_ELEMENTS white_canvas = Ok out
    /\ Js.length out = 65000 * 784.
Proof.
  destruct (decodeSprite_whole_chunks NUM_DATASET_ELEMENTS white_canvas
              (fun _ => repeat 255 (Z.to_nat (4 * IMAGE_SIZE * chunkSize)))
              ltac:(unfold NUM_DATASET_ELEMENTS; lia) eq_refl
              corpus_allocates (fun q _ => eq_refl))
    as (out & Hrun & _ & Hlen & _).
  exists out. split; assumption.
Qed.

Lemma loadBoth_world_with_labels labelData out :
  decodeSprite NUM_DATASET_ELEMENTS white_canvas = Ok out ->
  loadBoth (world_with_labels labelData) = Ok (Some out, Some labelData).
Proof.
  intros Hd. unfold loadBoth, loadImagesWithRetry, loadLabelsWithRetry.
  change (Z.to_nat MAX_RETRIES) with 3%nat.
  rewrite (retry_loop_first_time _ out), (retry_loop_first_time _ labelData).
  - reflexivity.
  - reflexivity.
  - cbn [images world_with_labels loadImages]. rewrite Hd. reflexivity.
Qed.

Lemma unshuffled_length n : 0 <= n -> Js.length (unshuffled n) = n.
Proof.
  intros Hn. unfold unshuffled, Js.length. rewrite length_map, length_seq. lia.
Qed.

Lemma full_labels_length : Js.length full_labels = 65000 * 10.
Proof.
  unfold full_labels, Js.length.
  assert (H : forall l : list nat,
            List.length (flat_map (fun _ => one_hot 0) l)
            = (List.length l * 10)%nat).
  { induction l as [|x l IH]; cbn [flat_map List.length]; [reflexivity|].
    rewrite length_app, IH. reflexivity. }
  rewrite H, length_seq. unfold NUM_DATASET_ELEMENTS. lia.
Qed.

(** ** C4: the validation inside [load] *)

(** C4. Once both wrapped loads have returned, [load] returns normally
    exactly when the image corpus has 65000 * 784 elements and the label
    corpus 65000 * 10. Otherwise, an absent or empty corpus included, the
    validation throws and [load] throws an error whose message is the
    validation's behind "Failed to load MNIST dataset: "; the object then
    holds the two corpora and nothing else is assigned: the index
    permutations and the four partition arrays are those it had before,
    which is [null] on an object fresh from the constructor. *)
Theorem load_validates_sizes w this imageData labelData :
  loadBoth w = Ok (imageData, labelData) ->
  (snd (load w this) = Ok tt <-> sizes_ok imageData labelData)
  /\ (~ sizes_ok imageData labelData ->
      exists e,
        snd (validateData (set_dataset imageData labelData this)) = Throw e
        /\ load w this
           = (set_dataset imageData labelData this,
              Throw (Error ("Failed to load MNIST dataset: " ++ message e)))
        /\ trainIndices (fst (load w this)) = trainIndices this
        /\ testIndices (fst (load w this)) = testIndices this
        /\ trainImages (fst (load w this)) = trainImages this
        /\ testImages (fst (load w this)) = testImages this
        /\ trainLabels (fst (load w this)) = trainLabels this
        /\ testLabels (fst (load w this)) = testLabels this
        /\ (this = constructor ->
            trainIndices (fst (load w this)) = None
            /\ testIndices (fst (load w this)) = None
            /\ trainImages (fst (load w this)) = None
            /\ testImages (fst (load w this)) = None
            /\ trainLabels (fst (load w this)) = None
            /\ testLabels (fst (load w this)) = None)).
Proof.
  intros Hb. rewrite (load_after_both w this imageData labelData Hb).
  cbn [fst snd].
  assert (Hfail : ~ sizes_ok imageData labelData ->
            exists e,
              snd (validateData (set_dataset imageData labelData this)) = Throw e
              /\ install imageData labelData w this
                 = (set_dataset imageData labelData this, Throw e)).
  { apply install_refused. }
  split; [split|].
  - intros Hok. destruct (sizes_ok_dec imageData labelData) as [|Hn];
      [assumption|].
    destruct (Hfail Hn) as (e & _ & Hi). rewrite Hi in Hok. discriminate Hok.
  - intros Hs.
    destruct (install_ok imageData labelData w this Hs)
      as (dI & dL & _ & _ & Hi).
    rewrite Hi. reflexivity.
  - intros Hn. destruct (Hfail Hn) as (e & Hv & Hi). exists e.
    rewrite Hi. cbn [fst snd rethrow].
    repeat split; try assumption; try reflexivity; subst this; reflexivity.
Qed.

Lemma validateData_label_size this dImages dLabels :
  datasetImages this = Some dImages -> datasetLabels this = Some dLabels ->
  Js.length dImages = 65000 * 784 ->
  Js.length dLabels <> 0 -> Js.length dLabels <> 65000 * 10 ->
  validateData this
  = (this, Throw (Error ("Invalid label data size. Expected 650000, got "
                         ++ to_string (Js.length dLabels)))).
Proof.
  intros HI HL HlI Hl0 HlL. unfold validateData. rewrite HI, HL, HlI.
  change (65000 * 784 =? 0) with false.
  change (NUM_DATASET_ELEMENTS * IMAGE_SIZE) with (65000 * 784).
  rewrite Z.eqb_refl. cbn [negb].
  destruct (Z.eqb_spec (Js.length dLabels) 0); [contradiction|].
  change (NUM_DATASET_ELEMENTS * NUM_CLASSES) with (65000 * 10).
  destruct (Z.eqb_spec (Js.length dLabels) (65000 * 10)); [contradiction|].
  reflexivity.
Qed.

(** ** C6: the split into the two partitions *)

Lemma slices_split {A} (a : list A) n :
  0 <= n <= Js.length a ->
  a = slice a 0 n ++ slice_from a n
  /\ Js.length (slice a 0 n) = n
  /\ Js.length (slice_from a n) = Js.length a - n.
Proof.
  intros Hn. rewrite slice_inside, slice_from_inside by lia.
  rewrite Z.sub_0_r. change (Z.to_nat 0) with 0%nat. cbn [skipn].
  split; [symmetry; apply firstn_skipn|].
  unfold Js.length in *. rewrite length_firstn, length_skipn. lia.
Qed.

Lemma get_app_l {A} (a b : list A) k :
  0 <= k < Js.length a -> get (a ++ b) (Num k) = get a (Num k).
Proof.
  intros Hk. unfold get, Js.length in *.
  destruct (Z.ltb_spec k 0); [lia|]. apply nth_error_app1. lia.
Qed.

Lemma get_app_r {A} (a b : list A) k :
  0 <= k -> get (a ++ b) (Num (Js.length a + k)) = get b (Num k).
Proof.
  intros Hk. unfold get, Js.length in *.
  destruct (Z.ltb_spec (Z.of_nat (List.length a) + k) 0); [lia|].
  destruct (Z.ltb_spec k 0); [lia|].
  rewrite nth_error_app2 by lia. f_equal. lia.
Qed.

(** C6. After a load that returned, with 54166 = floor(5/6 * 65000) and
    10834 = 65000 - 54166: the image corpus is the training images followed
    by the test images and the label corpus the training labels followed by
    the test labels, the training arrays holding 54166 records and the test
    arrays 10834; so element k of [trainImages] is element k of
    [datasetImages], element k of [testImages] is element 784 * 54166 + k of
    [datasetImages], and likewise for the labels with 10 for 784. *)
Theorem load_splits_corpus w this this' :
  load w this = (this', Ok tt) ->
  NUM_TRAIN_ELEMENTS = 54166 /\ NUM_TEST_ELEMENTS = 10834
  /\ exists dImages dLabels trImages teImages trLabels teLabels,
       datasetImages this' = Some dImages
       /\ datasetLabels this' = Some dLabels
       /\ trainImages this' = Some trImages
       /\ testImages this' = Some teImages
       /\ trainLabels this' = Some trLabels
       /\ testLabels this' = Some teLabels
       /\ dImages = trImages ++ teImages
       /\ dLabels = trLabels ++ teLabels
       /\ Js.length trImages = 784 * 54166
       /\ Js.length teImages = 784 * 10834
       /\ Js.length trLabels = 10 * 54166
       /\ Js.length teLabels = 10 * 10834
       /\ (forall k, 0 <= k < 784 * 54166 ->
             get trImages (Num k) = get dImages (Num k))
       /\ (forall k, 0 <= k < 784 * 10834 ->
             get teImages (Num k) = get dImages (Num (784 * 54166 + k)))
       /\ (forall k, 0 <= k < 10 * 54166 ->
             get trLabels (Num k) = get dLabels (Num k))
       /\ (forall k, 0 <= k < 10 * 10834 ->
             get teLabels (Num k) = get dLabels (Num (10 * 54166 + k))).
Proof.
  intros Hl. split; [apply NUM_TRAIN_ELEMENTS_eq|].
  split; [apply NUM_TEST_ELEMENTS_eq|].
  destruct (load_returned w this this' Hl) as (dI & dL & _ & HlI & HlL & ->).
  destruct (slices_split dI (IMAGE_SIZE * NUM_TRAIN_ELEMENTS))
    as (HsI & HtI & HeI);
    [rewrite NUM_TRAIN_ELEMENTS_eq; unfold IMAGE_SIZE; lia|].
  destruct (slices_split dL (NUM_CLASSES * NUM_TRAIN_ELEMENTS))
    as (HsL & HtL & HeL);
    [rewrite NUM_TRAIN_ELEMENTS_eq; unfold NUM_CLASSES; lia|].
  set (n := NUM_TRAIN_ELEMENTS) in *.
  assert (Hn : n = 54166) by apply NUM_TRAIN_ELEMENTS_eq.
  exists dI, dL,
    (slice dI 0 (IMAGE_SIZE * n)), (slice_from dI (IMAGE_SIZE * n)),
    (slice dL 0 (NUM_CLASSES * n)), (slice_from dL (NUM_CLASSES * n)).
  do 6 (split; [reflexivity|]).
  set (trI := slice dI 0 (IMAGE_SIZE * n)) in *.
  set (teI := slice_from dI (IMAGE_SIZE * n)) in *.
  set (trL := slice dL 0 (NUM_CLASSES * n)) in *.
  set (teL := slice_from dL (NUM_CLASSES * n)) in *.
  unfold IMAGE_SIZE in HtI, HeI. unfold NUM_CLASSES in HtL, HeL.
  split; [exact HsI|]. split; [exact HsL|].
  split; [lia|]. split; [lia|]. split; [lia|]. split; [lia|].
  split; [|split; [|split]].
  - intros k Hk. rewrite HsI. symmetry. apply get_app_l. lia.
  - intros k Hk. rewrite HsI.
    replace (784 * 54166) with (Js.length trI) by lia.
    symmetry. apply get_app_r. lia.
  - intros k Hk. rewrite HsL. symmetry. apply get_app_l. lia.
  - intros k Hk. rewrite HsL.
    replace (10 * 54166) with (Js.length trL) by lia.
    symmetry. apply get_app_r. lia.
Qed.

Lemma labelled_dataset_loads labelData :
  Js.length labelData = 65000 * 10 ->
  exists this',
    load (world_with_labels labelData) constructor = (this', Ok tt)
    /\ datasetLabels this' = Some labelData.
Proof.
  intros Hlabels.
  destruct white_canvas_decoded as (out & Hd & Hlen).
  pose proof (loadBoth_world_with_labels labelData out Hd) as Hb.
  destruct (install_ok (Some out) (Some labelData)
              (world_with_labels labelData) constructor)
    as (dI & dL & _ & HdL & Hi).
  - split; [exact Hlen | exact Hlabels].
  - eexists. rewrite (load_after_both _ constructor _ _ Hb), Hi.
    split; reflexivity.
Qed.

Lemma full_dataset_loads :
  exists this',
    load (world_with_labels full_labels) constructor = (this', Ok tt).
Proof.
  destruct (labelled_dataset_loads full_labels full_labels_length)
    as (this' & Hl & _).
  exists this'. exact Hl.
Qed.

(** ** C9: the cursors stay inside the permutations *)

Lemma do_call_keeps_cursors k this permT permS :
  trainIndices this = Some permT -> testIndices this = Some permS ->
  in_range (Some permT) (shuffledTrainIndex this) ->
  in_range (Some permS) (shuffledTestIndex this) ->
  let this' := fst (do_call k this) in
  trainIndices this' = Some permT /\ testIndices this' = Some permS
  /\ in_range (Some permT) (shuffledTrainIndex this')
  /\ in_range (Some permS) (shuffledTestIndex this').
Proof.
  intros HT HS HcT HcS this'. subst this'.
  destruct k as [batchSize|batchSize]; cbn [do_call].
  - destruct (next_batch_moved Train batchSize this) as (c & Hc & Hr).
    cbn [next_batch set_cursor indices_of cursor_of] in Hc, Hr.
    rewrite Hc, HT in *. cbn. repeat split; try assumption. tauto.
  - destruct (next_batch_moved Test batchSize this) as (c & Hc & Hr).
    cbn [next_batch set_cursor indices_of cursor_of] in Hc, Hr.
    rewrite Hc, HS in *. cbn. repeat split; try assumption. tauto.
Qed.

Lemma after_calls_keeps_cursors calls : forall this permT permS,
  trainIndices this = Some permT -> testIndices this = Some permS ->
  in_range (Some permT) (shuffledTrainIndex this) ->
  in_range (Some permS) (shuffledTestIndex this) ->
  let this' := after_calls calls this in
  trainIndices this' = Some permT /\ testIndices this' = Some permS
  /\ in_range (Some permT) (shuffledTrainIndex this')
  /\ in_range (Some permS) (shuffledTestIndex this').
Proof.
  induction calls as [|k calls IH]; intros this permT permS HT HS HcT HcS.
  - cbn. tauto.
  - destruct (do_call_keeps_cursors k this permT permS HT HS HcT HcS)
      as (HT' & HS' & HcT' & HcS').
    exact (IH _ permT permS HT' HS' HcT' HcS').
Qed.

(** C9. After a load that returned on an object fresh from the constructor,
    the two arrays of shuffled indices having the lengths asked of
    [tf.util.createShuffledIndices], and after any finite sequence of calls
    of [nextTrainBatch] and [nextTestBatch] with any batch sizes, each
    returning or throwing: [shuffledTrainIndex] is an integer of
    [0, 54166), [shuffledTestIndex] an integer of [0, 10834), the
    permutations are the ones loaded, and each cursor indexes an entry of
    its permutation. *)
Theorem cursors_stay_inside_permutations w this calls :
  load w constructor = (this, Ok tt) ->
  Js.length (shuffledTrain w) = NUM_TRAIN_ELEMENTS ->
  Js.length (shuffledTest w) = NUM_TEST_ELEMENTS ->
  exists cTrain cTest idxTrain idxTest,
    shuffledTrainIndex (after_calls calls this) = Num cTrain
    /\ 0 <= cTrain < 54166
    /\ shuffledTestIndex (after_calls calls this) = Num cTest
    /\ 0 <= cTest < 10834
    /\ trainIndices (after_calls calls this) = Some (shuffledTrain w)
    /\ testIndices (after_calls calls this) = Some (shuffledTest w)
    /\ get (shuffledTrain w) (Num cTrain) = Some idxTrain
    /\ get (shuffledTest w) (Num cTest) = Some idxTest.
Proof.
  intros Hl HlT HlS.
  rewrite NUM_TRAIN_ELEMENTS_eq in HlT. rewrite NUM_TEST_ELEMENTS_eq in HlS.
  destruct (load_returned w constructor this Hl) as (dI & dL & _ & _ & _ & ->).
  destruct (after_calls_keeps_cursors calls
              (set_partitions w dI dL
                 (set_dataset (Some dI) (Some dL) constructor))
              (shuffledTrain w) (shuffledTest w) eq_refl eq_refl)
    as (HT & HS & HcT & HcS).
  - cbn. lia.
  - cbn. lia.
  - set (this' := after_calls calls _) in *.
    destruct (shuffledTrainIndex this') as [cT|]; [|contradiction].
    destruct (shuffledTestIndex this') as [cS|]; [|contradiction].
    cbn [in_range] in HcT, HcS.
    exists cT, cS, (nth (Z.to_nat cT) (shuffledTrain w) 0),
      (nth (Z.to_nat cS) (shuffledTest w) 0).
    repeat split; try assumption; try lia; apply get_in_range; assumption.
Qed.

(** ** From a load to the sampler *)

(** A load that returned on a fresh object, the shuffled indices being
    shuffles of the two partitions, leaves both partitions populated, with
    the cursors at 0. *)
Lemma load_populates w this :
  load w constructor = (this, Ok tt) ->
  shuffle_of NUM_TRAIN_ELEMENTS (shuffledTrain w) ->
  shuffle_of NUM_TEST_ELEMENTS (shuffledTest w) ->
  exists trImages trLabels teImages teLabels,
    populated Train this (shuffledTrain w) trImages trLabels 0
    /\ populated Test this (shuffledTest w) teImages teLabels 0.
Proof.
  intros Hl HT HS.
  destruct (load_returned w constructor this Hl)
    as (dI & dL & _ & HdI & HdL & Hthis).
  pose proof NUM_TRAIN_ELEMENTS_eq as Hn.
  destruct (slices_split dI (IMAGE_SIZE * NUM_TRAIN_ELEMENTS))
    as (_ & HlI & HlE); [rewrite Hn; unfold IMAGE_SIZE; lia|].
  destruct (slices_split dL (NUM_CLASSES * NUM_TRAIN_ELEMENTS))
    as (_ & HlL & HlF); [rewrite Hn; unfold NUM_CLASSES; lia|].
  set (trI := slice dI 0 (IMAGE_SIZE * NUM_TRAIN_ELEMENTS)) in *.
  set (teI := slice_from dI (IMAGE_SIZE * NUM_TRAIN_ELEMENTS)) in *.
  set (trL := slice dL 0 (NUM_CLASSES * NUM_TRAIN_ELEMENTS)) in *.
  set (teL := slice_from dL (NUM_CLASSES * NUM_TRAIN_ELEMENTS)) in *.
  rewrite Hn in HlI, HlE, HlL, HlF.
  unfold IMAGE_SIZE in HlI, HlE. unfold NUM_CLASSES in HlL, HlF.
  assert (HpT : Js.length (shuffledTrain w) = 54166).
  { rewrite <- NUM_TRAIN_ELEMENTS_eq. apply shuffle_of_length; [|exact HT].
    rewrite NUM_TRAIN_ELEMENTS_eq. lia. }
  assert (HpS : Js.length (shuffledTest w) = 10834).
  { rewrite <- NUM_TEST_ELEMENTS_eq. apply shuffle_of_length; [|exact HS].
    rewrite NUM_TEST_ELEMENTS_eq. lia. }
  exists trI, trL, teI, teL. split.
  - constructor; cbn [indices_of images_of labels_of cursor_of];
      try (rewrite Hthis; reflexivity).
    + rewrite HpT, <- NUM_TRAIN_ELEMENTS_eq. apply shuffle_of_below, HT.
    + rewrite HpT, HlI. unfold IMAGE_SIZE. lia.
    + rewrite HpT, HlL. unfold NUM_CLASSES. lia.
    + lia.
  - constructor; cbn [indices_of images_of labels_of cursor_of];
      try (rewrite Hthis; reflexivity).
    + rewrite HpS, <- NUM_TEST_ELEMENTS_eq. apply shuffle_of_below, HS.
    + rewrite HpS, HlE. unfold IMAGE_SIZE. lia.
    + rewrite HpS, HlF. unfold NUM_CLASSES. lia.
    + lia.
Qed.

(** The corpus decoded from a canvas that returns bytes is normalized. *)
Lemma decoded_corpus_normalized N canvas datas out :
  0 <= N -> N mod chunkSize = 0 ->
  (forall q, 0 <= q < N / chunkSize -> canvas q = Ok (datas q)) ->
  (forall q, Forall (fun b => 0 <= b <= 255) (datas q)) ->
  decodeSprite N canvas = Ok out ->
  Forall normalized out.
Proof.
  intros HN Hmul Hcanvas Hbytes Hrun.
  destruct (decodeSprite_whole_chunks N canvas datas HN Hmul
              (decodeSprite_allocated N canvas out Hrun) Hcanvas)
    as (out' & Hrun' & _ & Hlen & Hget).
  rewrite Hrun in Hrun'. injection Hrun' as <-.
  apply Forall_forall. intros x Hx.
  destruct (In_nth_error _ _ Hx) as (n & Hn).
  assert (Hlt : (n < List.length out)%nat)
    by (apply nth_error_Some; congruence).
  pose proof (Z.div_mod N chunkSize ltac:(unfold chunkSize; lia)) as HdN.
  rewrite Hmul, Z.add_0_r in HdN.
  set (k := Z.of_nat n).
  pose proof (Z.div_mod k (5000 * 784) ltac:(lia)) as Hd.
  pose proof (Z.mod_pos_bound k (5000 * 784) ltac:(lia)) as Hb.
  set (q := k / (5000 * 784)) in *. set (j := k mod (5000 * 784)) in *.
  assert (Hk : k < N * 784) by (unfold k, Js.length in *; lia).
  assert (Hq : 0 <= q < N / chunkSize).
  { unfold chunkSize in *. split.
    - apply Z.div_pos; unfold k; lia.
    - destruct (Z.lt_ge_cases q (N / 5000)); [assumption|]. nia. }
  destruct (Hget q j Hq Hb) as (_ & Hval & _).
  replace (q * 5000 * 784 + j) with k in Hval by lia.
  assert (Hgk : get out (Num k) = Some x).
  { unfold get, k. destruct (Z.ltb_spec (Z.of_nat n) 0); [lia|].
    rewrite Nat2Z.id. exact Hn. }
  rewrite Hgk in Hval. injection Hval as ->.
  destruct (Z.ltb_spec (j * 4) (Js.length (datas q))) as [Hin|Hout].
  - unfold red_channel.
    rewrite (get_in_range (datas q) 0) by lia.
    apply red_normalized.
    specialize (Hbytes q). rewrite Forall_forall in Hbytes.
    apply Hbytes, nth_In. unfold Js.length in Hin. lia.
  - reflexivity.
Qed.

(** * Further properties *)

(** ** The retry wrappers, for any number of retries *)

Lemma retry_loop_first_success {A} (op : Z -> result A) retries v :
  forall k n attempt,
    retries = attempt + Z.of_nat n - 1 ->
    (k < n)%nat ->
    (forall i, attempt <= i < attempt + Z.of_nat k -> exists e, op i = Throw e) ->
    op (attempt + Z.of_nat k) = Ok v ->
    retry_loop n attempt retries op
    = (backoff_trace attempt (S k), Ok (Some v)).
Proof.
  induction k as [|k IH]; intros n attempt Hr Hk Hfail Hok.
  - destruct n as [|n]; [lia|]. cbn [retry_loop backoff_trace].
    rewrite Z.add_0_r in Hok. rewrite Hok. reflexivity.
  - destruct n as [|n]; [lia|]. cbn [retry_loop].
    destruct (Hfail attempt ltac:(lia)) as (e & ->).
    destruct (Z.eqb_spec attempt retries); [lia|].
    rewrite (IH n (attempt + 1)); try lia.
    + reflexivity.
    + intros i Hi. apply Hfail. lia.
    + rewrite <- Hok. f_equal. lia.
Qed.

Lemma retry_loop_all_fail {A} (op : Z -> result A) retries (errs : Z -> error) :
  forall n attempt,
    retries = attempt + Z.of_nat n - 1 ->
    (0 < n)%nat ->
    (forall i, attempt <= i <= retries -> op i = Throw (errs i)) ->
    retry_loop n attempt retries op
    = (backoff_trace attempt n, Throw (errs retries)).
Proof.
  induction n as [|n IH]; intros attempt Hr Hn Hfail; [lia|].
  cbn [retry_loop]. rewrite (Hfail attempt) by lia.
  destruct (Z.eqb_spec attempt retries) as [->|Hne].
  - destruct n; [reflexivity | lia].
  - destruct n as [|n]; [lia|].
    rewrite (IH (attempt + 1)); try lia.
    + reflexivity.
    + intros i Hi. apply Hfail. lia.
Qed.

Lemma backoff_trace_delay n : forall attempt,
  2 * total_delay (backoff_trace attempt (S n))
  = RETRY_DELAY * Z.of_nat n * (2 * attempt + Z.of_nat n - 1).
Proof.
  induction n as [|n IH]; intros attempt.
  - cbn. lia.
  - change (backoff_trace attempt (S (S n)))
      with (Attempt attempt :: Delay (RETRY_DELAY * attempt)
            :: backoff_trace (attempt + 1) (S n)).
    cbn [total_delay]. specialize (IH (attempt + 1)). nia.
Qed.

(** X1. For either wrapped load and any number of retries: when the load
    fails on the attempts before the k-th and succeeds on the k-th, k being
    at most the number of retries, the wrapper returns that result, has
    made exactly k attempts, has waited RETRY_DELAY * i after the i-th
    failure, RETRY_DELAY * k * (k - 1) / 2 in all, and no later attempt is
    made. *)
Theorem retry_stops_at_first_success retries k images labels :
  1 <= Z.of_nat k <= retries ->
  (forall v,
     (forall i, 1 <= i < Z.of_nat k -> exists e, loadImages (images i) = Throw e) ->
     loadImages (images (Z.of_nat k)) = Ok v ->
     loadImagesWithRetry retries images
     = (backoff_trace 1 k, Ok (Some v)))
  /\ (forall v,
      (forall i, 1 <= i < Z.of_nat k -> exists e, loadLabels (labels i) = Throw e) ->
      loadLabels (labels (Z.of_nat k)) = Ok v ->
      loadLabelsWithRetry retries labels
      = (backoff_trace 1 k, Ok (Some v)))
  /\ 2 * total_delay (backoff_trace 1 k)
     = RETRY_DELAY * (Z.of_nat k - 1) * Z.of_nat k.
Proof.
  intros Hk. destruct k as [|k]; [lia|].
  split; [|split].
  - intros v Hfail Hok. unfold loadImagesWithRetry.
    apply (retry_loop_first_success _ retries v k); try lia.
    + intros i Hi. apply Hfail. lia.
    + rewrite <- Hok. do 2 f_equal. lia.
  - intros v Hfail Hok. unfold loadLabelsWithRetry.
    apply (retry_loop_first_success _ retries v k); try lia.
    + intros i Hi. apply Hfail. lia.
    + rewrite <- Hok. do 2 f_equal. lia.
  - rewrite backoff_trace_delay. lia.
Qed.

(** X2. For either wrapped load and any number of retries that is at least
    1: when every attempt fails, the wrapper makes exactly that many
    attempts, waits RETRY_DELAY * i after the i-th failure but not after
    the last, and throws the error of the last attempt, not an earlier
    one. *)
Theorem retry_throws_last_error retries images labels (errs : Z -> error) :
  1 <= retries ->
  ((forall i, 1 <= i <= retries -> loadImages (images i) = Throw (errs i)) ->
   loadImagesWithRetry retries images
   = (backoff_trace 1 (Z.to_nat retries), Throw (errs retries)))
  /\ ((forall i, 1 <= i <= retries -> loadLabels (labels i) = Throw (errs i)) ->
      loadLabelsWithRetry retries labels
      = (backoff_trace 1 (Z.to_nat retries), Throw (errs retries)))
  /\ 2 * total_delay (backoff_trace 1 (Z.to_nat retries))
     = RETRY_DELAY * (retries - 1) * retries.
Proof.
  intros Hr. split; [|split].
  - intros Hfail. unfold loadImagesWithRetry.
    apply retry_loop_all_fail; try lia. exact Hfail.
  - intros Hfail. unfold loadLabelsWithRetry.
    apply retry_loop_all_fail; try lia. exact Hfail.
  - destruct (Z.to_nat retries) as [|n] eqn:Hn; [lia|].
    rewrite backoff_trace_delay. lia.
Qed.

(** X3. Called with no retry to make (0 or a negative number), either
    wrapper makes no attempt, waits for nothing and returns [undefined]
    rather than throwing. *)
Theorem retry_without_attempts retries images labels :
  retries <= 0 ->
  loadImagesWithRetry retries images = ([], Ok None)
  /\ loadLabelsWithRetry retries labels = ([], Ok None).
Proof.
  intros Hr. unfold loadImagesWithRetry, loadLabelsWithRetry.
  replace (Z.to_nat retries) with 0%nat by lia. split; reflexivity.
Qed.

(** ** The sampler at its edges *)

Lemma nextBatch_negative batchSize data index this :
  batchSize < 0 ->
  nextBatch batchSize data index this
  = (this, Throw (RangeError "Invalid typed array length")).
Proof.
  intros Hb. apply nextBatch_refused. now left.
Qed.

(** X4. Whatever the object, loaded or not: a batch method called with a
    negative size throws a RangeError before it draws anything and leaves
    the object as it was; called with size 0 it draws nothing, leaves the
    object as it was and returns empty images of shape [0, 784] and empty
    labels of shape [0, 10], even on an object that was never loaded. *)
Theorem batch_of_no_example p this batchSize :
  (batchSize < 0 ->
   next_batch p batchSize this
   = (this, Throw (RangeError "Invalid typed array length")))
  /\ next_batch p 0 this
     = (this, Ok {| xs := {| values := []; shape := (0, 784) |};
                    labels := {| values := []; shape := (0, 10) |} |}).
Proof.
  split.
  - intros Hb. rewrite next_batch_unfold. apply nextBatch_negative, Hb.
  - rewrite next_batch_unfold. unfold nextBatch.
    rewrite !new_array_fits
      by (pose proof holds_corpus;
          unfold NUM_DATASET_ELEMENTS, IMAGE_SIZE in *; lia).
    reflexivity.
Qed.

(** X5. On an object whose index permutation is still [null], as the
    constructor leaves it, a batch method called with a size of at least 1
    leaves the object as it was, whatever the size: no cursor moves before
    [load] has returned.  With a size whose image array the engine
    allocates it throws a TypeError at the first draw; with a size the
    engine does not allocate it throws the RangeError of the array before
    any draw. *)
Theorem batch_before_load_throws p this batchSize :
  indices_of p this = None -> 1 <= batchSize ->
  (allocates 4 (batchSize * IMAGE_SIZE) ->
   next_batch p batchSize this
   = (this, Throw (TypeError "Cannot read properties of null")))
  /\ (~ allocates 4 (batchSize * IMAGE_SIZE) ->
      next_batch p batchSize this
      = (this, Throw (RangeError "Invalid typed array length"))).
Proof.
  intros Hi Hb. split; intros Ha.
  - rewrite next_batch_unfold. unfold nextBatch.
    rewrite !new_array_fits
      by (unfold allocates, IMAGE_SIZE, NUM_CLASSES in *; lia).
    destruct (Z.to_nat batchSize) as [|n] eqn:Hn; [lia|].
    unfold bind at 1. unfold lift at 1. unfold bind at 1. unfold lift at 1.
    unfold bind at 1. cbn [nextBatch_loop]. unfold bind at 1.
    rewrite index_of_unfold, Hi. reflexivity.
  - rewrite next_batch_unfold. apply nextBatch_refused. now right.
Qed.

(** ** How batches compose *)

Lemma populated_set_cursor p this perm imgs lbls c c' :
  populated p this perm imgs lbls c -> 0 <= c' < Js.length perm ->
  populated p (set_cursor p (Num c') this) perm imgs lbls c'.
Proof.
  intros [Hi HI HL Hb HIl HLl Hc Hr] Hc'.
  destruct p; constructor; try assumption; reflexivity.
Qed.

Lemma populated_other_cursor p q this perm imgs lbls c c' :
  p <> q -> populated p this perm imgs lbls c ->
  populated p (set_cursor q c' this) perm imgs lbls c.
Proof.
  intros Hpq [Hi HI HL Hb HIl HLl Hc Hr].
  destruct p, q; try contradiction; constructor; assumption.
Qed.

Lemma drawn_app perm c n m :
  0 <= c < Js.length perm ->
  drawn perm c (n + m)
  = drawn perm c n ++ drawn perm (cursor_after (Js.length perm) c n) m.
Proof.
  revert c. induction n as [|n IH]; intros c Hc;
    cbn [drawn cursor_after Nat.add app].
  - reflexivity.
  - rewrite IH by (apply next_cursor_range; lia). reflexivity.
Qed.

Lemma cursor_after_in_range P c n :
  0 <= c < P -> 0 <= cursor_after P c n < P.
Proof.
  intros Hc. rewrite cursor_after_closed by exact Hc.
  apply Z.mod_pos_bound. lia.
Qed.

Lemma cursor_after_add P c n m :
  0 <= c < P ->
  cursor_after P (cursor_after P c n) m = cursor_after P c (n + m).
Proof.
  intros Hc.
  rewrite !cursor_after_closed by (try apply cursor_after_in_range; exact Hc).
  rewrite Zplus_mod_idemp_l. f_equal. lia.
Qed.

(** X6. On a populated partition, when the engine allocates the image
    array of a batch of n + m examples, a batch of n examples followed by a
    batch of m examples draws what one batch of n + m examples draws: the
    three calls return, the values of the two batches laid end to end are
    the values of the larger batch, for the images and for the labels, and
    the object is left the same either way. *)
Theorem consecutive_batches_concatenate p this perm imgs lbls c n m :
  populated p this perm imgs lbls c -> 0 <= n -> 0 <= m ->
  allocates 4 ((n + m) * IMAGE_SIZE) ->
  exists this1 this2 b1 b2 b,
    next_batch p n this = (this1, Ok b1)
    /\ next_batch p m this1 = (this2, Ok b2)
    /\ next_batch p (n + m) this = (this2, Ok b)
    /\ values (xs b) = values (xs b1) ++ values (xs b2)
    /\ values (labels b) = values (labels b1) ++ values (labels b2).
Proof.
  intros Hpop Hn Hm Ha. pose proof Hpop as [_ _ _ _ _ _ _ Hr].
  assert (Han : allocates 4 (n * IMAGE_SIZE))
    by (unfold allocates, IMAGE_SIZE in *; lia).
  assert (Ham : allocates 4 (m * IMAGE_SIZE))
    by (unfold allocates, IMAGE_SIZE in *; lia).
  set (P := Js.length perm) in *.
  set (c1 := cursor_after P c (Z.to_nat n)).
  assert (Hc1 : 0 <= c1 < P) by (apply cursor_after_in_range; exact Hr).
  pose proof (populated_set_cursor p this perm imgs lbls c c1 Hpop Hc1) as Hpop1.
  exists (set_cursor p (Num c1) this),
    (set_cursor p (Num (cursor_after P c (Z.to_nat (n + m)))) this),
    (batch_of perm imgs lbls c n), (batch_of perm imgs lbls c1 m),
    (batch_of perm imgs lbls c (n + m)).
  split; [apply next_batch_populated; assumption|].
  split.
  { rewrite (next_batch_populated p _ perm imgs lbls c1 m Hpop1 Hm Ham).
    rewrite set_cursor_twice. fold P. unfold c1.
    rewrite cursor_after_add by exact Hr.
    rewrite Z2Nat.inj_add by assumption. reflexivity. }
  split; [apply next_batch_populated; [assumption|lia|assumption]|].
  cbn [batch_of xs labels values].
  rewrite Z2Nat.inj_add, drawn_app, !flat_map_app by assumption.
  split; reflexivity.
Qed.

Lemma set_cursor_commute c c' this :
  set_cursor Test c' (set_cursor Train c this)
  = set_cursor Train c (set_cursor Test c' this).
Proof. reflexivity. Qed.

(** X7. When both partitions are populated, the two batch methods do not
    interfere: for sizes whose image arrays the engine allocates, a
    training batch followed by a test batch and the same test batch
    followed by the same training batch return the same two batches and
    leave the same object. *)
Theorem train_and_test_batches_commute
    this permT imgsT lblsT cT permS imgsS lblsS cS n m :
  populated Train this permT imgsT lblsT cT ->
  populated Test this permS imgsS lblsS cS ->
  0 <= n -> 0 <= m ->
  allocates 4 (n * IMAGE_SIZE) -> allocates 4 (m * IMAGE_SIZE) ->
  exists thisT thisS this' bT bS,
    nextTrainBatch n this = (thisT, Ok bT)
    /\ nextTestBatch m thisT = (this', Ok bS)
    /\ nextTestBatch m this = (thisS, Ok bS)
    /\ nextTrainBatch n thisS = (this', Ok bT).
Proof.
  intros HT HS Hn Hm Han Ham.
  set (cT' := Num (cursor_after (Js.length permT) cT (Z.to_nat n))).
  set (cS' := Num (cursor_after (Js.length permS) cS (Z.to_nat m))).
  exists (set_cursor Train cT' this), (set_cursor Test cS' this),
    (set_cursor Test cS' (set_cursor Train cT' this)),
    (batch_of permT imgsT lblsT cT n), (batch_of permS imgsS lblsS cS m).
  split; [exact (next_batch_populated Train this _ _ _ _ n HT Hn Han)|].
  split.
  { apply (next_batch_populated Test _ permS imgsS lblsS cS m);
      [|exact Hm|exact Ham].
    apply populated_other_cursor; [discriminate | exact HS]. }
  split; [exact (next_batch_populated Test this _ _ _ _ m HS Hm Ham)|].
  rewrite set_cursor_commute.
  apply (next_batch_populated Train _ permT imgsT lblsT cT n);
    [|exact Hn|exact Han].
  apply populated_other_cursor; [discriminate | exact HT].
Qed.

Lemma six_test_populated :
  populated Test six [1; 0]
    (example_image 6 ++ example_image 7) (one_hot 6 ++ one_hot 7) 0.
Proof.
  constructor; try (vm_compute; reflexivity).
  - unfold indices_below. repeat constructor; vm_compute; congruence.
  - vm_compute. split; congruence.
Qed.

(** ** Passes over a partition *)

Lemma drawn_passes_count perm c (k : nat) v :
  0 <= c < Js.length perm -> shuffle_of (Js.length perm) perm ->
  0 <= v < Js.length perm ->
  count_occ Z.eq_dec (drawn perm c (k * List.length perm)) v = k.
Proof.
  intros Hc Hsh Hv. induction k as [|k IH]; [reflexivity|].
  cbn [Nat.mul]. rewrite drawn_app, cursor_after_cycle by exact Hc.
  rewrite count_occ_app, IH, drawn_cycle by exact Hc.
  assert (Hperm : Permutation
            (skipn (Z.to_nat (c + 1)) perm ++ firstn (Z.to_nat (c + 1)) perm)
            (map Z.of_nat (seq 0 (Z.to_nat (Js.length perm)))))
    by (etransitivity; [apply rotation_Permutation | exact Hsh]).
  rewrite (proj1 (Permutation_count_occ Z.eq_dec _ _) Hperm v).
  assert (Hone : count_occ Z.eq_dec
                   (map Z.of_nat (seq 0 (Z.to_nat (Js.length perm)))) v = 1%nat).
  { apply NoDup_count_occ'.
    - apply Finite.Injective_map_NoDup; [|apply seq_NoDup].
      intros x y. apply Nat2Z.inj.
    - apply in_map_iff. exists (Z.to_nat v). split; [lia|].
      apply in_seq. lia. }
  rewrite Hone. reflexivity.
Qed.

(** X8. On a partition of P examples populated with a shuffle of [0, P),
    wherever its cursor stands: when the engine allocates an array as long
    as the partition's image array, which is what a batch of P examples
    asks for, that batch draws every example exactly once and leaves the
    cursor where it was, so the next batch of P examples is the same
    batch; and k * P consecutive draws take every example exactly k
    times. *)
Theorem passes_use_every_example_equally p this perm imgs lbls c :
  populated p this perm imgs lbls c ->
  shuffle_of (Js.length perm) perm ->
  let P := List.length perm in
  (allocates 4 (Js.length imgs) ->
   next_batch p (Z.of_nat P) this
   = (this, Ok (batch_of perm imgs lbls c (Z.of_nat P))))
  /\ Permutation (drawn perm c P) (map Z.of_nat (seq 0 P))
  /\ (forall k,
        snd (draw_indices (index_of p) (k * P) this)
        = Ok (map Some (drawn perm c (k * P))))
  /\ (forall k v, 0 <= v < Z.of_nat P ->
        count_occ Z.eq_dec (drawn perm c (k * P)) v = k).
Proof.
  intros Hpop Hsh P. pose proof Hpop as [_ _ _ _ HIl _ Hc Hr].
  split; [|split; [|split]].
  - intros Ha. rewrite HIl in Ha.
    rewrite (next_batch_populated p this perm imgs lbls c)
      by (assumption || lia).
    rewrite Nat2Z.id. unfold P. rewrite cursor_after_cycle by exact Hr.
    rewrite <- Hc, set_cursor_same. reflexivity.
  - unfold P. rewrite drawn_cycle by exact Hr.
    etransitivity; [apply rotation_Permutation|].
    replace (List.length perm) with (Z.to_nat (Js.length perm))
      by (unfold Js.length; lia).
    exact Hsh.
  - intros k.
    rewrite (draw_indices_populated p this perm imgs lbls c) by assumption.
    reflexivity.
  - intros k v Hv. apply drawn_passes_count; assumption.
Qed.

(** ** The decoder when the canvas fails *)

Lemma chunk_loop_returned canvas n : forall i buf out,
  chunk_loop n i canvas buf = Ok out ->
  Js.length out = Js.length buf
  /\ (Z.of_nat n <> 0 ->
      (i + Z.of_nat n) * (IMAGE_SIZE * chunkSize) <= Js.length buf)
  /\ forall q, i <= q < i + Z.of_nat n -> exists data, canvas q = Ok data.
Proof.
  induction n as [|n IH]; intros i buf out Hrun; cbn [chunk_loop] in Hrun.
  - injection Hrun as <-. split; [reflexivity|]. split; [lia|]. intros q Hq. lia.
  - destruct (Z.ltb_spec (Js.length buf * 4)
                (i * IMAGE_SIZE * chunkSize * 4 + IMAGE_SIZE * chunkSize * 4))
      as [|Hfit]; [discriminate|].
    destruct (canvas i) as [data|e] eqn:Hci; [|discriminate].
    destruct (IH _ _ _ Hrun) as (Hlen & Hfits & Hread).
    rewrite pixel_loop_length in Hlen, Hfits.
    split; [exact Hlen|]. split.
    + intros _. destruct n as [|n'].
      * unfold IMAGE_SIZE, chunkSize in *. lia.
      * specialize (Hfits ltac:(lia)). lia.
    + intros q Hq. destruct (Z.eq_dec q i) as [->|Hqi].
      * exists data. exact Hci.
      * apply Hread. lia.
Qed.

Lemma chunk_loop_canvas_throws canvas q0 e n : forall i buf,
  (forall q, i <= q < q0 -> exists data, canvas q = Ok data) ->
  canvas q0 = Throw e ->
  i <= q0 < i + Z.of_nat n ->
  (q0 + 1) * (IMAGE_SIZE * chunkSize) <= Js.length buf ->
  chunk_loop n i canvas buf = Throw e.
Proof.
  induction n as [|n IH]; intros i buf Hbefore Hq0 Hr Hfit; [lia|].
  cbn [chunk_loop].
  destruct (Z.ltb_spec (Js.length buf * 4)
              (i * IMAGE_SIZE * chunkSize * 4 + IMAGE_SIZE * chunkSize * 4));
    [unfold IMAGE_SIZE, chunkSize in *; lia|].
  destruct (Z.eq_dec i q0) as [->|Hne].
  - rewrite Hq0. reflexivity.
  - destruct (Hbefore i ltac:(lia)) as (data & ->).
    apply IH.
    + intros q Hq. apply Hbefore. lia.
    + exact Hq0.
    + lia.
    + rewrite pixel_loop_length. exact Hfit.
Qed.

Lemma decodeSprite_returned N canvas out :
  decodeSprite N canvas = Ok out ->
  Js.length out = N * IMAGE_SIZE
  /\ forall q, 0 <= q < Z.of_nat (chunk_count N) ->
       exists data, canvas q = Ok data.
Proof.
  unfold decodeSprite, new_array.
  destruct (Z.ltb_spec (N * IMAGE_SIZE) 0); [discriminate|].
  destruct (Z.ltb_spec max_byte_length (N * IMAGE_SIZE * 4));
    [discriminate|]. cbn [orb].
  intros Hrun. destruct (chunk_loop_returned _ _ _ _ _ Hrun) as (Hlen & _ & Hread).
  split.
  - rewrite Hlen. unfold Js.length. rewrite repeat_length. lia.
  - intros q Hq. apply Hread. lia.
Qed.

(** X9. In [loadImages], when the canvas throws while chunk q0 of the 13 is
    read and has returned the pixels of the chunks before it, the decoding
    stops with that error, the chunks after q0 are not read, and the
    promise is rejected with an Error whose message is that error's behind
    "Failed to process images: ". *)
Theorem canvas_failure_rejects_images canvas q0 e :
  0 <= q0 < 13 ->
  (forall q, 0 <= q < q0 -> exists data, canvas q = Ok data) ->
  canvas q0 = Throw e ->
  decodeSprite NUM_DATASET_ELEMENTS canvas = Throw e
  /\ loadImages (Loaded canvas)
     = Throw (Error ("Failed to process images: " ++ message e)).
Proof.
  intros Hq Hbefore Hq0.
  assert (Hrun : decodeSprite NUM_DATASET_ELEMENTS canvas = Throw e).
  { rewrite decodeSprite_allocating
      by (try apply corpus_allocates; unfold NUM_DATASET_ELEMENTS; lia).
    assert (Hn : Z.of_nat (chunk_count NUM_DATASET_ELEMENTS) = 13)
      by reflexivity.
    remember (chunk_count NUM_DATASET_ELEMENTS) as n eqn:Hn_def.
    clear Hn_def.
    remember (repeat 0%float (Z.to_nat (NUM_DATASET_ELEMENTS * IMAGE_SIZE)))
      as buf eqn:Hbuf.
    assert (Hlen : Js.length buf = 65000 * 784).
    { subst buf. unfold Js.length. rewrite repeat_length.
      unfold NUM_DATASET_ELEMENTS, IMAGE_SIZE. lia. }
    clear Hbuf.
    apply (chunk_loop_canvas_throws canvas q0 e); try assumption; try lia.
    rewrite Hlen. unfold IMAGE_SIZE, chunkSize. lia. }
  split; [exact Hrun|]. cbn [loadImages]. rewrite Hrun. reflexivity.
Qed.

(** X10. [loadImages] resolves only with a complete corpus: when it
    returns, the image was loaded, the canvas has returned the pixels of
    each of the 13 chunks, and the array returned has exactly 65000 * 784
    elements; a load error, a timeout or a canvas failure never yields a
    partly decoded array. *)
Theorem loadImages_returns_whole_corpus ev out :
  loadImages ev = Ok out ->
  exists canvas,
    ev = Loaded canvas
    /\ (forall q, 0 <= q < 13 -> exists data, canvas q = Ok data)
    /\ Js.length out = 65000 * 784.
Proof.
  intros Hrun. destruct ev as [canvas| |];
    [| discriminate Hrun | discriminate Hrun].
  rewrite loadImages_Loaded in Hrun.
  exists canvas. split; [reflexivity|].
  destruct (decodeSprite NUM_DATASET_ELEMENTS canvas) as [out'|e] eqn:Hd.
  - assert (out' = out) by (unfold rethrow in Hrun; congruence). subst out'.
    destruct (decodeSprite_returned _ _ _ Hd) as (Hlen & Hread).
    split; [|exact Hlen].
    intros q Hq. apply Hread.
    assert (Hn : Z.of_nat (chunk_count NUM_DATASET_ELEMENTS) = 13)
      by reflexivity.
    lia.
  - unfold rethrow in Hrun. discriminate Hrun.
Qed.

(** X11. A chunk of the sprite decides its own 5000 images only: for a
    total count that is a multiple of 5000 and whose buffer the engine
    allocates, as it does for the 65000 of the code, two canvases that
    return the same pixels for every chunk but q0 are decoded into arrays
    that are equal at every offset outside chunk q0, however many pixels
    either returns for q0. *)
Theorem chunks_decode_independently N canvas canvas' datas datas' q0 :
  0 <= N -> N mod chunkSize = 0 -> allocates 4 (N * IMAGE_SIZE) ->
  (forall q, 0 <= q < N / chunkSize -> canvas q = Ok (datas q)) ->
  (forall q, 0 <= q < N / chunkSize -> canvas' q = Ok (datas' q)) ->
  (forall q, q <> q0 -> datas q = datas' q) ->
  exists out out',
    decodeSprite N canvas = Ok out
    /\ decodeSprite N canvas' = Ok out'
    /\ Js.length out = Js.length out'
    /\ forall q j,
         0 <= q < N / chunkSize -> q <> q0 -> 0 <= j < 5000 * 784 ->
         get out (Num (q * 5000 * 784 + j))
         = get out' (Num (q * 5000 * 784 + j)).
Proof.
  intros HN Hmul Ha Hc Hc' Hsame.
  destruct (decodeSprite_whole_chunks N canvas datas HN Hmul Ha Hc)
    as (out & Hrun & _ & Hlen & Hget).
  destruct (decodeSprite_whole_chunks N canvas' datas' HN Hmul Ha Hc')
    as (out' & Hrun' & _ & Hlen' & Hget').
  exists out, out'. split; [exact Hrun|]. split; [exact Hrun'|].
  split; [congruence|].
  intros q j Hq Hne Hj.
  destruct (Hget q j Hq Hj) as (_ & -> & _).
  destruct (Hget' q j Hq Hj) as (_ & -> & _).
  rewrite (Hsame q Hne). reflexivity.
Qed.

(** ** [load] when a request or the validation fails *)

Lemma retry_loop_returned {A} (op : Z -> result A) retries r :
  forall n attempt,
    retries = attempt + Z.of_nat n - 1 -> (0 < n)%nat ->
    snd (retry_loop n attempt retries op) = Ok r ->
    exists k v, attempt <= k <= retries /\ op k = Ok v /\ r = Some v.
Proof.
  induction n as [|n IH]; intros attempt Hr Hn Hrun; [lia|].
  cbn [retry_loop] in Hrun.
  destruct (op attempt) as [v|e] eqn:Hop.
  - cbn [snd] in Hrun. injection Hrun as <-.
    exists attempt, v. split; [lia|]. split; [exact Hop | reflexivity].
  - destruct (Z.eqb_spec attempt retries); [discriminate Hrun|].
    destruct (retry_loop n (attempt + 1) retries op) as [trace r'] eqn:Hrec.
    cbn [snd] in Hrun. subst r'.
    destruct (IH (attempt + 1)) as (k & v & Hk & Hv & Hsome); try lia.
    + rewrite Hrec. reflexivity.
    + exists k, v. split; [lia|]. split; assumption.
Qed.

Lemma loadImages_returned ev out :
  loadImages ev = Ok out ->
  exists canvas,
    ev = Loaded canvas /\ decodeSprite NUM_DATASET_ELEMENTS canvas = Ok out.
Proof.
  intros Hrun. destruct ev as [canvas| |];
    [| discriminate Hrun | discriminate Hrun].
  rewrite loadImages_Loaded in Hrun. exists canvas. split; [reflexivity|].
  destruct (decodeSprite NUM_DATASET_ELEMENTS canvas) as [out'|e];
    unfold rethrow in Hrun; congruence.
Qed.

(** When both wrapped loads have returned, each returned what one of its
    three attempts decoded or fetched. *)
Lemma loadBoth_returned w imageData labelData :
  loadBoth w = Ok (imageData, labelData) ->
  exists out lbls kI kL,
    imageData = Some out /\ labelData = Some lbls
    /\ 1 <= kI <= 3 /\ loadImages (images w kI) = Ok out
    /\ 1 <= kL <= 3 /\ loadLabels (labels_fetch w kL) = Ok lbls.
Proof.
  unfold loadBoth, loadImagesWithRetry, loadLabelsWithRetry. intros Hb.
  destruct (snd (retry_loop (Z.to_nat MAX_RETRIES) 1 MAX_RETRIES
                   (fun attempt => loadImages (images w attempt))))
    as [rI|eI] eqn:HI;
    destruct (snd (retry_loop (Z.to_nat MAX_RETRIES) 1 MAX_RETRIES
                     (fun attempt => loadLabels (labels_fetch w attempt))))
      as [rL|eL] eqn:HL;
    try discriminate Hb.
  injection Hb as -> ->.
  destruct (retry_loop_returned _ MAX_RETRIES _ (Z.to_nat MAX_RETRIES) 1
              eq_refl ltac:(unfold MAX_RETRIES; lia) HI)
    as (kI & out & HkI & HoI & ->).
  destruct (retry_loop_returned _ MAX_RETRIES _ (Z.to_nat MAX_RETRIES) 1
              eq_refl ltac:(unfold MAX_RETRIES; lia) HL)
    as (kL & lbls & HkL & HoL & ->).
  exists out, lbls, kI, kL. unfold MAX_RETRIES in *. repeat split; try lia; assumption.
Qed.

Lemma loadBoth_images_whole w imageData labelData :
  loadBoth w = Ok (imageData, labelData) ->
  exists out lbls,
    imageData = Some out /\ labelData = Some lbls
    /\ Js.length out = 65000 * 784.
Proof.
  intros Hb.
  destruct (loadBoth_returned w _ _ Hb)
    as (out & lbls & kI & kL & -> & -> & _ & HoI & _).
  destruct (loadImages_returned _ _ HoI) as (canvas & _ & Hd).
  destruct (decodeSprite_returned _ _ _ Hd) as (Hlen & _).
  exists out, lbls. repeat split. exact Hlen.
Qed.

Lemma validateData_labels_empty this dImages :
  datasetImages this = Some dImages -> Js.length dImages = 65000 * 784 ->
  datasetLabels this = Some [] ->
  validateData this
  = (this, Throw (Error "Dataset labels are empty or invalid")).
Proof.
  intros HI HlI HL. unfold validateData. rewrite HI, HL, HlI. reflexivity.
Qed.

(** X12. Inside [load] the size check of the images cannot fail: when both
    wrapped loads have returned, the images are an array of exactly
    65000 * 784 elements, because the decoder allocates it so, and the
    labels are an array; [load] then returns exactly when the labels hold
    65000 * 10 bytes, and otherwise throws the validation's complaint about
    the labels, which is "empty or invalid" for no byte at all and the
    expected and received sizes for any other count. *)
Theorem load_validation_fails_on_labels_only w this imageData labelData :
  loadBoth w = Ok (imageData, labelData) ->
  exists out lbls,
    imageData = Some out /\ labelData = Some lbls
    /\ Js.length out = 65000 * 784
    /\ (snd (load w this) = Ok tt <-> Js.length lbls = 65000 * 10)
    /\ (Js.length lbls <> 65000 * 10 ->
        snd (load w this)
        = Throw (Error ("Failed to load MNIST dataset: "
                        ++ (if Js.length lbls =? 0
                            then "Dataset labels are empty or invalid"
                            else "Invalid label data size. Expected 650000, got "
                                 ++ to_string (Js.length lbls))))).
Proof.
  intros Hb.
  destruct (loadBoth_images_whole w _ _ Hb) as (out & lbls & -> & -> & Hlen).
  exists out, lbls. do 3 (split; [reflexivity || exact Hlen|]).
  rewrite (load_after_both w this _ _ Hb). cbn [snd].
  split; [split|].
  - intros Hok.
    destruct (sizes_ok_dec (Some out) (Some lbls)) as [[_ Hs]|Hn];
      [exact Hs|].
    destruct (install_refused (Some out) (Some lbls) w this Hn) as (e & _ & Hi).
    rewrite Hi in Hok. discriminate Hok.
  - intros Hl.
    destruct (install_ok (Some out) (Some lbls) w this)
      as (dI & dL & _ & _ & Hi); [split; assumption|].
    rewrite Hi. reflexivity.
  - intros Hl.
    destruct (install_refused (Some out) (Some lbls) w this) as (e & Hv & Hi).
    { intros [_ Hs]. apply Hl, Hs. }
    rewrite Hi. cbn [snd rethrow].
    destruct (Z.eqb_spec (Js.length lbls) 0) as [H0|H0].
    + destruct lbls; [|discriminate H0].
      rewrite (validateData_labels_empty
                 (set_dataset (Some out) (Some []) this) out
                 eq_refl Hlen eq_refl) in Hv.
      cbn [snd] in Hv. injection Hv as <-. reflexivity.
    + rewrite (validateData_label_size
                 (set_dataset (Some out) (Some lbls) this) out lbls
                 eq_refl eq_refl Hlen H0 Hl) in Hv.
      cbn [snd] in Hv. injection Hv as <-. reflexivity.
Qed.

(** X13. When the label request fails on each of its three attempts while
    the images load, [load] throws an Error whose message is that of the
    third label failure behind "Failed to load MNIST dataset: ", and the
    object is left exactly as it was: not even the images that did load
    are assigned. Likewise when the image request fails three times while
    the labels load. *)
Theorem load_reports_last_failure w this (errs : Z -> error) :
  ((forall i, 1 <= i <= 3 -> loadLabels (labels_fetch w i) = Throw (errs i)) ->
   (exists x, snd (loadImagesWithRetry MAX_RETRIES (images w)) = Ok x) ->
   load w this
   = (this, Throw (Error ("Failed to load MNIST dataset: " ++ message (errs 3)))))
  /\ ((forall i, 1 <= i <= 3 -> loadImages (images w i) = Throw (errs i)) ->
      (exists x, snd (loadLabelsWithRetry MAX_RETRIES (labels_fetch w)) = Ok x) ->
      load w this
      = (this, Throw (Error ("Failed to load MNIST dataset: " ++ message (errs 3))))).
Proof.
  split.
  - intros Hfail (x & Hx). unfold load, loadBoth. rewrite Hx.
    unfold loadLabelsWithRetry.
    rewrite (retry_loop_all_fail _ MAX_RETRIES errs (Z.to_nat MAX_RETRIES) 1
               eq_refl ltac:(unfold MAX_RETRIES; lia) Hfail).
    reflexivity.
  - intros Hfail (x & Hx). unfold load, loadBoth. rewrite Hx.
    unfold loadImagesWithRetry.
    rewrite (retry_loop_all_fail _ MAX_RETRIES errs (Z.to_nat MAX_RETRIES) 1
               eq_refl ltac:(unfold MAX_RETRIES; lia) Hfail).
    reflexivity.
Qed.

Lemma populated_set_dataset p this imageData labelData perm imgs lbls c :
  populated p this perm imgs lbls c ->
  populated p (set_dataset imageData labelData this) perm imgs lbls c.
Proof.
  intros [Hi HI HL Hb HIl HLl Hc Hr]. destruct p; constructor; assumption.
Qed.

Lemma load_not_returned w this :
  snd (load w this) <> Ok tt ->
  fst (load w this) = this
  \/ exists imageData labelData,
       fst (load w this) = set_dataset imageData labelData this.
Proof.
  intros Hfail. destruct (loadBoth w) as [[imageData labelData]|e] eqn:Hb.
  - right. exists imageData, labelData.
    rewrite (load_after_both w this _ _ Hb) in *. cbn [fst snd] in *.
    destruct (sizes_ok_dec imageData labelData) as [Hs|Hn].
    + destruct (install_ok imageData labelData w this Hs)
        as (dI & dL & _ & _ & Hi).
      rewrite Hi in Hfail. exfalso. apply Hfail. reflexivity.
    + destruct (install_refused imageData labelData w this Hn) as (e & _ & Hi).
      rewrite Hi. reflexivity.
  - left. unfold load. rewrite Hb. reflexivity.
Qed.

Lemma load_keeps_cursors w this :
  shuffledTrainIndex (fst (load w this)) = shuffledTrainIndex this
  /\ shuffledTestIndex (fst (load w this)) = shuffledTestIndex this.
Proof.
  destruct (loadBoth w) as [[imageData labelData]|e] eqn:Hb.
  - rewrite (load_after_both w this _ _ Hb). cbn [fst].
    destruct (sizes_ok_dec imageData labelData) as [Hs|Hn].
    + destruct (install_ok imageData labelData w this Hs)
        as (dI & dL & _ & _ & ->).
      split; reflexivity.
    + destruct (install_refused imageData labelData w this Hn) as (e & _ & ->).
      split; reflexivity.
  - unfold load. rewrite Hb. split; reflexivity.
Qed.

(** X14. [load] never moves a sampler cursor, whether it returns or
    throws, so a reload does not restart the sampling; and a [load] that
    throws on an object whose partition is populated leaves that partition
    populated with the same permutation, arrays and cursor, so batches can
    still be drawn from the data loaded before. *)
Theorem load_keeps_sampler_state w this :
  shuffledTrainIndex (fst (load w this)) = shuffledTrainIndex this
  /\ shuffledTestIndex (fst (load w this)) = shuffledTestIndex this
  /\ (snd (load w this) <> Ok tt ->
      forall p perm imgs lbls c,
        populated p this perm imgs lbls c ->
        populated p (fst (load w this)) perm imgs lbls c).
Proof.
  destruct (load_keeps_cursors w this) as [HT HS].
  split; [exact HT|]. split; [exact HS|].
  intros Hfail p perm imgs lbls c Hpop.
  destruct (load_not_returned w this Hfail) as [->|(iD & lD & ->)].
  - exact Hpop.
  - apply populated_set_dataset, Hpop.
Qed.

(** ** From the sprite to the batches *)

(** A load that returned on a fresh object, with what each partition then
    holds of the corpora. *)
Lemma load_populates_slices w this :
  load w constructor = (this, Ok tt) ->
  shuffle_of NUM_TRAIN_ELEMENTS (shuffledTrain w) ->
  shuffle_of NUM_TEST_ELEMENTS (shuffledTest w) ->
  exists dImages dLabels,
    loadBoth w = Ok (Some dImages, Some dLabels)
    /\ datasetImages this = Some dImages
    /\ datasetLabels this = Some dLabels
    /\ Js.length dImages = 65000 * 784
    /\ Js.length dLabels = 65000 * 10
    /\ Js.length (shuffledTrain w) = 54166
    /\ Js.length (shuffledTest w) = 10834
    /\ populated Train this (shuffledTrain w)
         (slice dImages 0 (IMAGE_SIZE * NUM_TRAIN_ELEMENTS))
         (slice dLabels 0 (NUM_CLASSES * NUM_TRAIN_ELEMENTS)) 0
    /\ populated Test this (shuffledTest w)
         (slice_from dImages (IMAGE_SIZE * NUM_TRAIN_ELEMENTS))
         (slice_from dLabels (NUM_CLASSES * NUM_TRAIN_ELEMENTS)) 0.
Proof.
  intros Hl HT HS.
  destruct (load_returned w constructor this Hl)
    as (dI & dL & Hb & HdI & HdL & Hthis).
  pose proof NUM_TRAIN_ELEMENTS_eq as Hn.
  destruct (slices_split dI (IMAGE_SIZE * NUM_TRAIN_ELEMENTS))
    as (_ & HlI & HlE); [rewrite Hn; unfold IMAGE_SIZE; lia|].
  destruct (slices_split dL (NUM_CLASSES * NUM_TRAIN_ELEMENTS))
    as (_ & HlL & HlF); [rewrite Hn; unfold NUM_CLASSES; lia|].
  assert (HpT : Js.length (shuffledTrain w) = 54166).
  { rewrite <- NUM_TRAIN_ELEMENTS_eq. apply shuffle_of_length; [|exact HT].
    rewrite NUM_TRAIN_ELEMENTS_eq. lia. }
  assert (HpS : Js.length (shuffledTest w) = 10834).
  { rewrite <- NUM_TEST_ELEMENTS_eq. apply shuffle_of_length; [|exact HS].
    rewrite NUM_TEST_ELEMENTS_eq. lia. }
  exists dI, dL.
  split; [exact Hb|].
  split; [rewrite Hthis; reflexivity|]. split; [rewrite Hthis; reflexivity|].
  split; [exact HdI|]. split; [exact HdL|].
  split; [exact HpT|]. split; [exact HpS|].
  set (trI := slice dI 0 (IMAGE_SIZE * NUM_TRAIN_ELEMENTS)) in *.
  set (teI := slice_from dI (IMAGE_SIZE * NUM_TRAIN_ELEMENTS)) in *.
  set (trL := slice dL 0 (NUM_CLASSES * NUM_TRAIN_ELEMENTS)) in *.
  set (teL := slice_from dL (NUM_CLASSES * NUM_TRAIN_ELEMENTS)) in *.
  rewrite Hn in HlI, HlE, HlL, HlF.
  unfold IMAGE_SIZE in HlI, HlE. unfold NUM_CLASSES in HlL, HlF.
  split.
  - constructor; cbn [indices_of images_of labels_of cursor_of];
      try (rewrite Hthis; reflexivity).
    + rewrite HpT, <- NUM_TRAIN_ELEMENTS_eq. apply shuffle_of_below, HT.
    + rewrite HpT, HlI. unfold IMAGE_SIZE. lia.
    + rewrite HpT, HlL. unfold NUM_CLASSES. lia.
    + lia.
  - constructor; cbn [indices_of images_of labels_of cursor_of];
      try (rewrite Hthis; reflexivity).
    + rewrite HpS, <- NUM_TEST_ELEMENTS_eq. apply shuffle_of_below, HS.
    + rewrite HpS, HlE. unfold IMAGE_SIZE. lia.
    + rewrite HpS, HlF. unfold NUM_CLASSES. lia.
    + lia.
Qed.

Lemma partition_eq_dec (p q : partition) : {p = q} + {p <> q}.
Proof. decide equality. Defined.

Lemma populated_in_range p this perm imgs lbls c :
  populated p this perm imgs lbls c ->
  in_range (indices_of p this) (cursor_of p this).
Proof.
  intros [Hi _ _ _ _ _ Hc Hr]. rewrite Hi, Hc. exact Hr.
Qed.

Lemma next_batch_keeps_populated p q batchSize this perm imgs lbls c :
  populated q this perm imgs lbls c ->
  exists c', populated q (fst (next_batch p batchSize this)) perm imgs lbls c'.
Proof.
  intros Hpop. destruct (next_batch_moved p batchSize this) as (c1 & -> & Hr).
  destruct (partition_eq_dec p q) as [->|Hne].
  - specialize (Hr (populated_in_range _ _ _ _ _ _ Hpop)).
    pose proof Hpop as [Hi _ _ _ _ _ _ _]. rewrite Hi in Hr.
    destruct c1 as [z|]; [|contradiction]. cbn [in_range] in Hr.
    exists z. apply (populated_set_cursor q this perm imgs lbls c z); assumption.
  - exists c. apply populated_other_cursor; [congruence | exact Hpop].
Qed.

Lemma after_calls_keeps_populated calls : forall q this perm imgs lbls c,
  populated q this perm imgs lbls c ->
  exists c', populated q (after_calls calls this) perm imgs lbls c'.
Proof.
  induction calls as [|k calls IH]; intros q this perm imgs lbls c Hpop.
  - exists c. exact Hpop.
  - cbn [after_calls fold_left].
    assert (Hstep : exists c1,
              populated q (fst (do_call k this)) perm imgs lbls c1).
    { destruct k as [n|n]; cbn [do_call].
      - exact (next_batch_keeps_populated Train q n this _ _ _ _ Hpop).
      - exact (next_batch_keeps_populated Test q n this _ _ _ _ Hpop). }
    destruct Hstep as (c1 & Hpop1). exact (IH _ _ _ _ _ _ Hpop1).
Qed.

Lemma after_calls_keeps_dataset calls : forall this,
  datasetImages (after_calls calls this) = datasetImages this
  /\ datasetLabels (after_calls calls this) = datasetLabels this.
Proof.
  induction calls as [|k calls IH]; intros this; [split; reflexivity|].
  cbn [after_calls fold_left].
  destruct (IH (fst (do_call k this))) as [HI HL].
  unfold after_calls in HI, HL. rewrite HI, HL.
  destruct k as [n|n]; cbn [do_call].
  - destruct (next_batch_moved Train n this) as (c & Hc & _).
    cbn [next_batch] in Hc. rewrite Hc. split; reflexivity.
  - destruct (next_batch_moved Test n this) as (c & Hc & _).
    cbn [next_batch] in Hc. rewrite Hc. split; reflexivity.
Qed.

Lemma record_at_app_l {A} size (a b : list A) idx :
  0 <= size -> 0 <= idx -> (idx + 1) * size <= Js.length a ->
  record_at size (a ++ b) idx = record_at size a idx.
Proof.
  intros Hs Hi Hl.
  rewrite !record_at_inside
    by (try assumption; unfold Js.length in *; rewrite ?length_app; nia).
  unfold Js.length in Hl.
  rewrite skipn_app, firstn_app, length_skipn.
  replace (Z.to_nat size - (List.length a - Z.to_nat (idx * size)))%nat
    with 0%nat by nia.
  cbn [firstn]. apply app_nil_r.
Qed.

Lemma record_at_app_r {A} size (a b : list A) n idx :
  0 <= size -> 0 <= n -> 0 <= idx ->
  Js.length a = n * size -> (idx + 1) * size <= Js.length b ->
  record_at size (a ++ b) (n + idx) = record_at size b idx.
Proof.
  intros Hs Hn Hi Ha Hl.
  rewrite !record_at_inside
    by (try assumption; try lia; unfold Js.length in *; rewrite ?length_app; nia).
  unfold Js.length in Ha, Hl.
  rewrite skipn_app, skipn_all2 by nia. cbn [app].
  do 2 f_equal. nia.
Qed.

Lemma records_of_prefix {A} size (a b : list A) n idxs :
  0 <= size -> Js.length a = n * size ->
  Forall (fun v => 0 <= v < n) idxs ->
  flat_map (record_at size a) idxs = flat_map (record_at size (a ++ b)) idxs.
Proof.
  intros Hs Ha. induction 1 as [|v idxs Hv _ IH]; cbn [flat_map];
    [reflexivity|].
  rewrite IH, record_at_app_l by (try lia; nia). reflexivity.
Qed.

Lemma records_of_suffix {A} size (a b : list A) n m idxs :
  0 <= size -> 0 <= n -> Js.length a = n * size -> Js.length b = m * size ->
  Forall (fun v => 0 <= v < m) idxs ->
  flat_map (record_at size b) idxs
  = flat_map (record_at size (a ++ b)) (map (Z.add n) idxs).
Proof.
  intros Hs Hn Ha Hb. induction 1 as [|v idxs Hv _ IH]; cbn [flat_map map];
    [reflexivity|].
  rewrite IH, (record_at_app_r size a b n v) by (try lia; nia). reflexivity.
Qed.










(** ** C1: what one call of a batch method copies of the corpus *)



(** X15. From the sprite to the model: after a load that returned on a
    fresh object, in a world whose canvases return bytes only and whose
    shuffled indices are shuffles of the two partitions, and after any
    sequence of batch calls, each batch method called with a
    non-negative size whose image array the engine allocates returns, and
    every image value of the batch lies in [0, 1]. *)
Theorem loaded_batches_are_normalized w this calls p batchSize :
  load w constructor = (this, Ok tt) ->
  canvas_bytes w ->
  shuffle_of NUM_TRAIN_ELEMENTS (shuffledTrain w) ->
  shuffle_of NUM_TEST_ELEMENTS (shuffledTest w) ->
  0 <= batchSize -> allocates 4 (batchSize * IMAGE_SIZE) ->
  exists this' b,
    next_batch p batchSize (after_calls calls this) = (this', Ok b)
    /\ Js.length (values (xs b)) = batchSize * 784
    /\ Forall normalized (values (xs b)).
Proof.
  intros Hl Hbytes HT HS Hn Ha.
  destruct (load_populates_slices w this Hl HT HS)
    as (dI & dL & Hb & _ & _ & _ & _ & _ & _ & HpT & HpS).
  destruct (loadBoth_returned w _ _ Hb)
    as (out & lbls & kI & kL & Hout & _ & _ & HoI & _).
  injection Hout as <-.
  destruct (loadImages_returned _ _ HoI) as (canvas & Hev & Hd).
  destruct (decodeSprite_returned _ _ _ Hd) as (_ & Hread).
  assert (Hnorm : Forall normalized dI).
  { apply (decoded_corpus_normalized NUM_DATASET_ELEMENTS canvas
             (fun q => match canvas q with Ok d => d | Throw _ => [] end));
      [unfold NUM_DATASET_ELEMENTS; lia | reflexivity | | | exact Hd].
    - intros q Hq. destruct (Hread q) as (data & Hdata).
      + assert (Hc : Z.of_nat (chunk_count NUM_DATASET_ELEMENTS)
                     = NUM_DATASET_ELEMENTS / chunkSize) by reflexivity.
        lia.
      + rewrite Hdata. reflexivity.
    - intros q. destruct (canvas q) as [data|e] eqn:Hq; [|constructor].
      exact (Hbytes kI canvas q data Hev Hq). }
  assert (Hpop : exists perm imgs lbls' c,
            populated p (after_calls calls this) perm imgs lbls' c
            /\ Forall normalized imgs).
  { destruct p.
    - destruct (after_calls_keeps_populated calls _ _ _ _ _ _ HpT) as (c & Hc).
      eexists _, _, _, c. split; [exact Hc|]. apply Forall_slice, Hnorm.
    - destruct (after_calls_keeps_populated calls _ _ _ _ _ _ HpS) as (c & Hc).
      eexists _, _, _, c. split; [exact Hc|]. apply Forall_slice, Hnorm. }
  destruct Hpop as (perm & imgs & lbls' & c & Hpop & Himgs).
  pose proof Hpop as [_ _ _ Hbelow HIl _ _ Hr].
  exists (set_cursor p
            (Num (cursor_after (Js.length perm) c (Z.to_nat batchSize)))
            (after_calls calls this)),
    (batch_of perm imgs lbls' c batchSize).
  split; [apply next_batch_populated; assumption|].
  cbn [batch_of xs values]. split.
  - rewrite records_length, drawn_length, Z2Nat.id;
      [reflexivity | lia | unfold IMAGE_SIZE; lia |].
    eapply indices_below_records;
      [unfold IMAGE_SIZE; lia | exact HIl | apply drawn_below; assumption].
  - apply Forall_records, Himgs.
Qed.

Lemma Ok_inj {A} (a b : A) : Ok a = Ok b -> a = b.
Proof. intros H. congruence. Qed.

Lemma world_with_labels_bytes labelData :
  canvas_bytes (world_with_labels labelData).
Proof.
  intros attempt canvas q data Hev Hq. cbn [images world_with_labels] in Hev.
  injection Hev as <-. unfold white_canvas in Hq.
  apply Ok_inj in Hq. subst data.
  apply Forall_forall. intros b Hb. apply repeat_spec in Hb. subst b.
  unfold byte_value. lia.
Qed.

Lemma unshuffled_shuffle n : shuffle_of n (unshuffled n).
Proof. apply Permutation_refl. Qed.

(** X16. No example is in both partitions: after a load that returned on
    a fresh object, the shuffled indices being shuffles of the two
    partitions, and after any sequence of batch calls, every record of a
    training batch is the record of the corpus at an index of [0, 54166)
    and every record of a test batch is the record of the corpus at an
    index of [54166, 65000), for the images and for the labels alike; the
    batches are of sizes whose image arrays the engine allocates. *)
Theorem batches_keep_to_their_partition w this calls n m :
  load w constructor = (this, Ok tt) ->
  shuffle_of NUM_TRAIN_ELEMENTS (shuffledTrain w) ->
  shuffle_of NUM_TEST_ELEMENTS (shuffledTest w) ->
  0 <= n -> 0 <= m ->
  allocates 4 (n * IMAGE_SIZE) -> allocates 4 (m * IMAGE_SIZE) ->
  exists dImages dLabels thisT bT idxT thisS bS idxS,
    datasetImages (after_calls calls this) = Some dImages
    /\ datasetLabels (after_calls calls this) = Some dLabels
    /\ nextTrainBatch n (after_calls calls this) = (thisT, Ok bT)
    /\ values (xs bT) = flat_map (record_at IMAGE_SIZE dImages) idxT
    /\ values (labels bT) = flat_map (record_at NUM_CLASSES dLabels) idxT
    /\ Forall (fun idx => 0 <= idx < 54166) idxT
    /\ nextTestBatch m (after_calls calls this) = (thisS, Ok bS)
    /\ values (xs bS) = flat_map (record_at IMAGE_SIZE dImages) idxS
    /\ values (labels bS) = flat_map (record_at NUM_CLASSES dLabels) idxS
    /\ Forall (fun idx => 54166 <= idx < 65000) idxS.
Proof.
  intros Hl HT HS Hn Hm Han Ham.
  destruct (load_populates_slices w this Hl HT HS)
    as (dI & dL & _ & HdI & HdL & HlI & HlL & HpT & HpS & HpopT & HpopS).
  destruct (after_calls_keeps_dataset calls this) as [HkI HkL].
  destruct (after_calls_keeps_populated calls _ _ _ _ _ _ HpopT) as (cT & HcT).
  destruct (after_calls_keeps_populated calls _ _ _ _ _ _ HpopS) as (cS & HcS).
  pose proof NUM_TRAIN_ELEMENTS_eq as Hnum.
  destruct (slices_split dI (IMAGE_SIZE * NUM_TRAIN_ELEMENTS))
    as (HsI & HtI & HeI); [rewrite Hnum; unfold IMAGE_SIZE; lia|].
  destruct (slices_split dL (NUM_CLASSES * NUM_TRAIN_ELEMENTS))
    as (HsL & HtL & HeL); [rewrite Hnum; unfold NUM_CLASSES; lia|].
  set (trI := slice dI 0 (IMAGE_SIZE * NUM_TRAIN_ELEMENTS)) in *.
  set (teI := slice_from dI (IMAGE_SIZE * NUM_TRAIN_ELEMENTS)) in *.
  set (trL := slice dL 0 (NUM_CLASSES * NUM_TRAIN_ELEMENTS)) in *.
  set (teL := slice_from dL (NUM_CLASSES * NUM_TRAIN_ELEMENTS)) in *.
  rewrite Hnum in HtI, HeI, HtL, HeL.
  pose proof HcT as [_ _ _ HbT _ _ _ HrT].
  pose proof HcS as [_ _ _ HbS _ _ _ HrS].
  set (dT := drawn (shuffledTrain w) cT (Z.to_nat n)).
  set (dS := drawn (shuffledTest w) cS (Z.to_nat m)).
  assert (HdT : Forall (fun v => 0 <= v < 54166) dT).
  { pose proof (drawn_below _ _ cT (Z.to_nat n) HbT HrT) as H.
    unfold indices_below in H. rewrite HpT in H. exact H. }
  assert (HdS : Forall (fun v => 0 <= v < 10834) dS).
  { pose proof (drawn_below _ _ cS (Z.to_nat m) HbS HrS) as H.
    unfold indices_below in H. rewrite HpS in H. exact H. }
  exists dI, dL.
  eexists _, (batch_of (shuffledTrain w) trI trL cT n), dT.
  eexists _, (batch_of (shuffledTest w) teI teL cS m), (map (Z.add 54166) dS).
  split; [rewrite HkI; exact HdI|]. split; [rewrite HkL; exact HdL|].
  split; [exact (next_batch_populated Train _ _ _ _ _ n HcT Hn Han)|].
  cbn [batch_of xs labels values]. fold dT dS.
  split; [rewrite HsI; apply (records_of_prefix _ _ _ 54166);
            [unfold IMAGE_SIZE | rewrite HtI; unfold IMAGE_SIZE | exact HdT]; lia|].
  split; [rewrite HsL; apply (records_of_prefix _ _ _ 54166);
            [unfold NUM_CLASSES | rewrite HtL; unfold NUM_CLASSES | exact HdT]; lia|].
  split; [exact HdT|].
  split; [exact (next_batch_populated Test _ _ _ _ _ m HcS Hm Ham)|].
  split; [rewrite HsI; apply (records_of_suffix _ _ _ 54166 10834);
            [unfold IMAGE_SIZE | | rewrite HtI; unfold IMAGE_SIZE
             | rewrite HeI, HlI; unfold IMAGE_SIZE | exact HdS]; lia|].
  split; [rewrite HsL; apply (records_of_suffix _ _ _ 54166 10834);
            [unfold NUM_CLASSES | | rewrite HtL; unfold NUM_CLASSES
             | rewrite HeL, HlL; unfold NUM_CLASSES | exact HdS]; lia|].
  apply Forall_map. eapply Forall_impl; [|exact HdS]. cbn beta. intros v Hv. lia.
Qed.

(** ** The data [trainModel] prepares *)

Lemma drawn_NoDup perm c n :
  0 <= c < Js.length perm -> NoDup perm -> (n <= List.length perm)%nat ->
  NoDup (drawn perm c n).
Proof.
  intros Hc Hnd Hn.
  assert (Hall : NoDup (drawn perm c (List.length perm))).
  { rewrite drawn_cycle by exact Hc.
    eapply Permutation_NoDup; [symmetry; apply rotation_Permutation | exact Hnd]. }
  replace (List.length perm) with (n + (List.length perm - n))%nat in Hall by lia.
  rewrite drawn_app in Hall by exact Hc.
  exact (NoDup_app_remove_r _ _ Hall).
Qed.

(** What [prepareData] does when both partitions are populated. *)
Lemma prepareData_populated this permT imgsT lblsT cT permS imgsS lblsS cS :
  populated Train this permT imgsT lblsT cT ->
  populated Test this permS imgsS lblsS cS ->
  prepareData this
  = (set_cursor Test
       (Num (cursor_after (Js.length permS) cS (Z.to_nat testDataSize)))
       (set_cursor Train
          (Num (cursor_after (Js.length permT) cT (Z.to_nat trainDataSize)))
          this),
     Ok {| trainXs := {|
             values4 := values (xs (batch_of permT imgsT lblsT cT trainDataSize));
             shape4 := (trainDataSize, 28, 28, 1) |};
           trainYs := labels (batch_of permT imgsT lblsT cT trainDataSize);
           testXs := {|
             values4 := values (xs (batch_of permS imgsS lblsS cS testDataSize));
             shape4 := (testDataSize, 28, 28, 1) |};
           testYs := labels (batch_of permS imgsS lblsS cS testDataSize) |}).
Proof.
  intros HT HS.
  pose proof (next_batch_populated Train this _ _ _ _ trainDataSize HT
                ltac:(unfold trainDataSize; lia)
                (batch_allocates trainDataSize
                   ltac:(unfold trainDataSize, NUM_DATASET_ELEMENTS; lia))) as HrunT.
  set (thisT := set_cursor Train
                  (Num (cursor_after (Js.length permT) cT
                          (Z.to_nat trainDataSize))) this) in *.
  pose proof (next_batch_populated Test thisT permS imgsS lblsS cS testDataSize
                (populated_other_cursor Test Train this _ _ _ _ _
                   ltac:(discriminate) HS)
                ltac:(unfold testDataSize; lia)
                (batch_allocates testDataSize
                   ltac:(unfold testDataSize, NUM_DATASET_ELEMENTS; lia))) as HrunS.
  cbn [next_batch] in HrunT, HrunS.
  unfold prepareData. unfold bind at 1. rewrite HrunT.
  unfold bind at 1. unfold lift at 1.
  change (reshape (xs (batch_of permT imgsT lblsT cT trainDataSize))
            (trainDataSize, 28, 28, 1))
    with (Ok {| values4 := values (xs (batch_of permT imgsT lblsT cT trainDataSize));
                shape4 := (trainDataSize, 28, 28, 1) |}).
  unfold bind at 1. rewrite HrunS.
  reflexivity.
Qed.

(** X17. The data preparation of [trainModel], run on an object whose
    [load] has just returned, the shuffled indices being shuffles of the
    two partitions: both batch calls and both reshapes succeed; the
    training images have shape [5500, 28, 28, 1] and the training labels
    [5500, 10], the validation images [1000, 28, 28, 1] and the validation
    labels [1000, 10]; the 5500 training examples are distinct examples of
    the training partition and the 1000 validation examples distinct
    examples of the test partition; the cursors are left at 5500 and
    1000. *)
Theorem trainModel_prepares_distinct_examples w this :
  load w constructor = (this, Ok tt) ->
  shuffle_of NUM_TRAIN_ELEMENTS (shuffledTrain w) ->
  shuffle_of NUM_TEST_ELEMENTS (shuffledTest w) ->
  exists this' d trImages trLabels teImages teLabels idxT idxS,
    prepareData this = (this', Ok d)
    /\ shape4 (trainXs d) = (5500, 28, 28, 1)
    /\ shape (trainYs d) = (5500, 10)
    /\ shape4 (testXs d) = (1000, 28, 28, 1)
    /\ shape (testYs d) = (1000, 10)
    /\ trainImages this = Some trImages /\ trainLabels this = Some trLabels
    /\ testImages this = Some teImages /\ testLabels this = Some teLabels
    /\ values4 (trainXs d) = flat_map (record_at IMAGE_SIZE trImages) idxT
    /\ values (trainYs d) = flat_map (record_at NUM_CLASSES trLabels) idxT
    /\ values4 (testXs d) = flat_map (record_at IMAGE_SIZE teImages) idxS
    /\ values (testYs d) = flat_map (record_at NUM_CLASSES teLabels) idxS
    /\ Js.length idxT = 5500 /\ NoDup idxT
    /\ Forall (fun idx => 0 <= idx < 54166) idxT
    /\ Js.length idxS = 1000 /\ NoDup idxS
    /\ Forall (fun idx => 0 <= idx < 10834) idxS
    /\ shuffledTrainIndex this' = Num 5500
    /\ shuffledTestIndex this' = Num 1000.
Proof.
  intros Hl HT HS.
  destruct (load_populates_slices w this Hl HT HS)
    as (dI & dL & _ & _ & _ & _ & _ & HpT & HpS & HpopT & HpopS).
  pose proof HpopT as [_ HtI HtL HbT _ _ _ HrT].
  pose proof HpopS as [_ HsI HsL HbS _ _ _ HrS].
  cbn [images_of labels_of] in HtI, HtL, HsI, HsL.
  eexists _, _, _, _, _, _,
    (drawn (shuffledTrain w) 0 (Z.to_nat trainDataSize)),
    (drawn (shuffledTest w) 0 (Z.to_nat testDataSize)).
  split; [exact (prepareData_populated this _ _ _ _ _ _ _ _ HpopT HpopS)|].
  do 4 (split; [reflexivity|]).
  split; [exact HtI|]. split; [exact HtL|].
  split; [exact HsI|]. split; [exact HsL|].
  do 4 (split; [reflexivity|]).
  split; [unfold Js.length; rewrite drawn_length; reflexivity|].
  split; [apply drawn_NoDup;
            [exact HrT | exact (shuffle_of_NoDup _ _ HT)
             | unfold Js.length in HpT; unfold trainDataSize; lia]|].
  split; [pose proof (drawn_below _ _ 0 (Z.to_nat trainDataSize) HbT HrT) as H;
          unfold indices_below in H; rewrite HpT in H; exact H|].
  split; [unfold Js.length; rewrite drawn_length; reflexivity|].
  split; [apply drawn_NoDup;
            [exact HrS | exact (shuffle_of_NoDup _ _ HS)
             | unfold Js.length in HpS; unfold testDataSize; lia]|].
  split; [pose proof (drawn_below _ _ 0 (Z.to_nat testDataSize) HbS HrS) as H;
          unfold indices_below in H; rewrite HpS in H; exact H|].
  cbn [set_cursor set_shuffledTestIndex set_shuffledTrainIndex
         shuffledTrainIndex shuffledTestIndex].
  rewrite !cursor_after_closed by assumption.
  rewrite HpT, HpS. split; reflexivity.
Qed.

(** X18. Preparing the data a second time on the same object, as a
    restart of the training after a failure does, continues from the
    cursors: both preparations succeed, the 5500 training examples of the
    second are distinct from each other and from the 5500 of the first,
    likewise for the two sets of 1000 validation examples, and the cursors
    end at 11000 and 2000. *)
Theorem retraining_draws_fresh_examples w this :
  load w constructor = (this, Ok tt) ->
  shuffle_of NUM_TRAIN_ELEMENTS (shuffledTrain w) ->
  shuffle_of NUM_TEST_ELEMENTS (shuffledTest w) ->
  exists this1 d1 this2 d2 trImages teImages idxT1 idxT2 idxS1 idxS2,
    prepareData this = (this1, Ok d1)
    /\ prepareData this1 = (this2, Ok d2)
    /\ trainImages this = Some trImages /\ testImages this = Some teImages
    /\ values4 (trainXs d1) = flat_map (record_at IMAGE_SIZE trImages) idxT1
    /\ values4 (trainXs d2) = flat_map (record_at IMAGE_SIZE trImages) idxT2
    /\ NoDup (idxT1 ++ idxT2)
    /\ values4 (testXs d1) = flat_map (record_at IMAGE_SIZE teImages) idxS1
    /\ values4 (testXs d2) = flat_map (record_at IMAGE_SIZE teImages) idxS2
    /\ NoDup (idxS1 ++ idxS2)
    /\ shuffledTrainIndex this2 = Num 11000
    /\ shuffledTestIndex this2 = Num 2000.
Proof.
  intros Hl HT HS.
  destruct (load_populates_slices w this Hl HT HS)
    as (dI & dL & _ & _ & _ & _ & _ & HpT & HpS & HpopT & HpopS).
  pose proof HpopT as [_ HtI _ _ _ _ _ HrT].
  pose proof HpopS as [_ HsI _ _ _ _ _ HrS].
  cbn [images_of] in HtI, HsI.
  set (cT1 := cursor_after (Js.length (shuffledTrain w)) 0 (Z.to_nat trainDataSize)).
  set (cS1 := cursor_after (Js.length (shuffledTest w)) 0 (Z.to_nat testDataSize)).
  assert (HcT1 : 0 <= cT1 < Js.length (shuffledTrain w))
    by (apply cursor_after_in_range; exact HrT).
  assert (HcS1 : 0 <= cS1 < Js.length (shuffledTest w))
    by (apply cursor_after_in_range; exact HrS).
  set (this1 := set_cursor Test (Num cS1) (set_cursor Train (Num cT1) this)).
  assert (HpopT1 : populated Train this1 (shuffledTrain w)
                     (slice dI 0 (IMAGE_SIZE * NUM_TRAIN_ELEMENTS))
                     (slice dL 0 (NUM_CLASSES * NUM_TRAIN_ELEMENTS)) cT1).
  { apply populated_other_cursor; [discriminate|].
    apply (populated_set_cursor Train this _ _ _ 0 cT1 HpopT HcT1). }
  assert (HpopS1 : populated Test this1 (shuffledTest w)
                     (slice_from dI (IMAGE_SIZE * NUM_TRAIN_ELEMENTS))
                     (slice_from dL (NUM_CLASSES * NUM_TRAIN_ELEMENTS)) cS1).
  { apply (populated_set_cursor Test _ _ _ _ 0 cS1); [|exact HcS1].
    apply populated_other_cursor; [discriminate | exact HpopS]. }
  eexists this1, _, _, _, _, _,
    (drawn (shuffledTrain w) 0 (Z.to_nat trainDataSize)),
    (drawn (shuffledTrain w) cT1 (Z.to_nat trainDataSize)),
    (drawn (shuffledTest w) 0 (Z.to_nat testDataSize)),
    (drawn (shuffledTest w) cS1 (Z.to_nat testDataSize)).
  split; [exact (prepareData_populated this _ _ _ _ _ _ _ _ HpopT HpopS)|].
  split; [exact (prepareData_populated this1 _ _ _ _ _ _ _ _ HpopT1 HpopS1)|].
  split; [exact HtI|]. split; [exact HsI|].
  do 2 (split; [reflexivity|]).
  split.
  { unfold cT1. rewrite <- drawn_app by exact HrT.
    apply drawn_NoDup; [exact HrT | exact (shuffle_of_NoDup _ _ HT)|].
    unfold Js.length in HpT. unfold trainDataSize. lia. }
  do 2 (split; [reflexivity|]).
  split.
  { unfold cS1. rewrite <- drawn_app by exact HrS.
    apply drawn_NoDup; [exact HrS | exact (shuffle_of_NoDup _ _ HS)|].
    unfold Js.length in HpS. unfold testDataSize. lia. }
  cbn [set_cursor set_shuffledTestIndex set_shuffledTrainIndex
         shuffledTrainIndex shuffledTestIndex this1].
  unfold cT1, cS1. rewrite !cursor_after_add by assumption.
  rewrite !cursor_after_closed by assumption.
  rewrite HpT, HpS. split; reflexivity.
Qed.

(** ** The drawing canvas *)

Lemma canvas_ready_invariant (page : App) : canvas_invariant (canvas_ready page).
Proof.
  unfold canvas_invariant. cbn. repeat split. discriminate.
Qed.

Lemma dispatch_invariant (s : App) (ev : ui_event) :
  canvas_invariant s -> canvas_invariant (dispatch s ev).
Proof.
  unfold canvas_invariant. intros (Hd & Hm & Hi).
  destruct ev as [e | e | | | e | e | | | parsed | outcome]; cbn [dispatch];
    unfold handleMouseDown, handleMouseMove, handleMouseUp, handleTouchStart,
      handleTouchMove, handleTouchEnd, draw, drawAtPosition, clearCanvas,
      classifyDrawing, displayPredictions, hideCanvasOverlay,
      showCanvasOverlay;
    try (destruct outcome as [[] | err]);
    destruct (isDrawing s) eqn:HD; destruct (hasDrawn s) eqn:HH;
    try rewrite Hm; cbn in *; rewrite ?HD, ?HH; cbn;
    repeat split; try assumption; try congruence; auto.
Qed.

Lemma after_events_invariant (page : App) (evs : list ui_event) :
  canvas_invariant (after_events page evs).
Proof.
  unfold after_events.
  generalize (canvas_ready page) (canvas_ready_invariant page).
  induction evs as [| ev evs IH]; intros s Hs; cbn [fold_left].
  - exact Hs.
  - apply IH, dispatch_invariant, Hs.
Qed.

(** X19. Whatever the mouse, touch, clear, pen-size and classify events
    since the canvas was set up, [hasDrawn] is true exactly when the
    context was asked to stroke since the canvas was last filled, and
    [classifyDrawing] refuses exactly when it was not. *)
Theorem hasDrawn_tracks_strokes (page : App) (evs : list ui_event) :
  let s := after_events page evs in
  hasDrawn s = stroked_since_fill (ctx s) /\
  (forall outcome,
     snd (classifyDrawing outcome s) = None <->
     stroked_since_fill (ctx s) = false).
Proof.
  intros s. destruct (after_events_invariant page evs) as (Hd & Hm & _).
  fold s in Hd, Hm. split; [exact Hd |].
  intros outcome. unfold classifyDrawing. rewrite Hm, <- Hd.
  destruct (hasDrawn s); destruct outcome; cbn; split; congruence.
Qed.

(** X20. Between strokes, the image [classifyDrawing] hands to the model
    is the canvas as it is now: whenever no stroke is in progress and the
    guard lets the call through, [rawImage.src] is the data URL taken
    after the latest call on the context. *)
Theorem classified_image_is_current_canvas
    (page : App) (evs : list ui_event) (outcome : result unit)
    (img : option (list ctx_call)) :
  isDrawing (after_events page evs) = false ->
  snd (classifyDrawing outcome (after_events page evs)) = Some img ->
  img = Some (ctx (after_events page evs)).
Proof.
  intros HD. destruct (after_events_invariant page evs) as (_ & Hm & Hi).
  unfold classifyDrawing. rewrite Hm.
  destruct (hasDrawn (after_events page evs)) eqn:HH; cbn.
  - rewrite (Hi HD eq_refl).
    destruct outcome; cbn; intros H; congruence.
  - discriminate.
Qed.

(** X21. Pressing and releasing the mouse on a canvas with nothing drawn,
    without moving in between, enables the classify button and hides the
    overlay although nothing has been drawn: [classifyDrawing] then only
    shows the toast 'Not Ready'. *)
Theorem press_without_move_enables_classify
    (s : App) (e : pointer) (outcome : result unit) :
  hasDrawn s = false ->
  let s' := handleMouseUp (handleMouseDown e s) in
  classifyBtn_disabled s' = false /\
  canvasOverlay_hidden s' = true /\
  hasDrawn s' = false /\
  stroked_since_fill (ctx s') = stroked_since_fill (ctx s) /\
  classifyDrawing outcome s'
  = (showToast "Not Ready" "Please draw a digit first" "error" s', None).
Proof.
  intros HH s'. subst s'.
  unfold handleMouseUp, handleMouseDown, hideCanvasOverlay, classifyDrawing.
  cbn. rewrite HH, orb_true_r. repeat split.
Qed.

End WithEngine.

(** * The properties at work

    Each property above that has a precondition is applied here to a
    dataset that meets it, on [example_engine]; what a claim of the
    specification gets wrong is shown on a dataset too. *)

#[local] Existing Instance example_engine.



Lemma nextBatch_any_size_witness :
  exists b this',
    next_batch Train 8 six = (this', Ok b)
    /\ shape (xs b) = (8, 784)
    /\ shape (labels b) = (8, 10)
    /\ populated Train this' [3; 0; 5; 2; 4; 1]
         (example_images 6) (example_labels 6) 2
    /\ Forall normalized (values (xs b))
    /\ Forall label_bit (values (labels b)).
Proof.
  destruct (proj1
              (nextBatch_any_size Train six [3; 0; 5; 2; 4; 1]
                 (example_images 6) (example_labels 6) 0 8
                 six_train_populated ltac:(lia)
                 (normalized_all (example_images 6)
                    ltac:(vm_compute; reflexivity))
                 (label_bit_all (example_labels 6)
                    ltac:(vm_compute; reflexivity)))
              (batch_allocates 8 ltac:(unfold NUM_DATASET_ELEMENTS; lia)))
    as (b & this' & idxs & Hrun & HsI & HsL & _ & _ & _ & _ & _ & _
        & Hpop & HnI & HnL).
  exists b, this'. repeat (split; [assumption|]). assumption.
Defined.

(** The claim of C8 fails for a batch size beyond what an array can hold:
    the image array of 2^60 examples would take more than 2^53 - 1 bytes,
    so on a loaded dataset the method throws the RangeError of the array
    and returns no batch. *)
Lemma batch_beyond_any_array_is_refused :
  exists this,
    load (world_with_labels full_labels) constructor = (this, Ok tt)
    /\ MAX_SAFE_INTEGER < 1152921504606846976 * IMAGE_SIZE * 4
    /\ nextTrainBatch 1152921504606846976 this
       = (this, Throw (RangeError "Invalid typed array length")).
Proof.
  destruct full_dataset_loads as (this & Hl).
  exists this. split; [exact Hl|]. split; [reflexivity|].
  apply nextBatch_refused. right. intros Ha.
  apply allocates_safe in Ha. unfold MAX_SAFE_INTEGER, IMAGE_SIZE in Ha. lia.
Qed.

Lemma draws_cycle_from_position_one_witness :
  draw_indices trainIndex 6 six
  = (six, Ok (map Some [0; 5; 2; 4; 1; 3]))
  /\ nth 6 (drawn [3; 0; 5; 2; 4; 1] 0 7) 0
     = nth 0 (drawn [3; 0; 5; 2; 4; 1] 0 7) 0.
Proof.
  destruct (draws_cycle_from_position_one Train six [3; 0; 5; 2; 4; 1]
              (example_images 6) (example_labels 6)
              six_train_populated six_shuffle)
    as (_ & _ & Hpass & _ & _ & _ & Hwrap).
  split; [exact Hpass | exact Hwrap].
Defined.

(** The claim of C2 read as stated fails on the six training examples:
    six draws of the fresh object yield 0, 5, 2, 4, 1, 3, each index once,
    and the seventh the first again, but not in the order 3, 0, 5, 2, 4, 1
    of the permutation. *)
Lemma fresh_draws_not_in_permutation_order :
  snd (draw_indices trainIndex 7 six)
  = Ok (map Some [0; 5; 2; 4; 1; 3; 0])
  /\ firstn 6 [0; 5; 2; 4; 1; 3; 0] <> [3; 0; 5; 2; 4; 1].
Proof.
  split; [vm_compute; reflexivity | discriminate].
Qed.

Lemma first_batch_starts_at_position_one_witness :
  draw_indices trainIndex 4 six
  = (set_shuffledTrainIndex (Num 4) six, Ok (map Some [0; 5; 2; 4])).
Proof.
  exact (proj1 (first_batch_starts_at_position_one Train six
                  (example_images 6) (example_labels 6) six_train_populated)).
Defined.

(** The claim of C3 fails on the six training examples: the fresh object
    returns the records of the indices 0, 5, 2, 4, not of 3, 0, 5, 2, and
    its cursor ends at position 4, not 3. *)
Lemma first_batch_is_not_3_0_5_2 :
  nextTrainBatch 4 six
  = (set_shuffledTrainIndex (Num 4) six,
     Ok {| xs := {| values := flat_map example_image [0; 5; 2; 4];
                    shape := (4, 784) |};
           labels := {| values := flat_map one_hot [0; 5; 2; 4];
                        shape := (4, 10) |} |})
  /\ snd (draw_indices trainIndex 4 six) = Ok (map Some [0; 5; 2; 4])
  /\ flat_map one_hot [0; 5; 2; 4] <> flat_map one_hot [3; 0; 5; 2]
  /\ shuffledTrainIndex (fst (nextTrainBatch 4 six)) <> Num 3.
Proof.
  split; [vm_compute; reflexivity|].
  split; [vm_compute; reflexivity|].
  split; vm_compute; discriminate.
Qed.

Lemma retry_wrappers_back_off_and_rethrow_witness :
  loadLabelsWithRetry MAX_RETRIES
    (fun attempt =>
       if attempt =? 1 then Rejected (TypeError "Failed to fetch")
       else if attempt =? 2 then Response false 503 (Ok [])
       else Response true 200 (Ok (one_hot 7)))
  = ([Attempt 1; Delay 1000; Attempt 2; Delay 2000; Attempt 3],
     Ok (Some (one_hot 7)))
  /\ loadLabelsWithRetry MAX_RETRIES
       (fun attempt => Response false (500 + attempt) (Ok []))
     = ([Attempt 1; Delay 1000; Attempt 2; Delay 2000; Attempt 3],
        Throw (Error "Failed to load MNIST labels: HTTP error! status: 503")).
Proof.
  split.
  - refine (proj1 (proj2 (proj2
      (retry_wrappers_back_off_and_rethrow (fun _ => Failed) _))) _ _ _ _ _ _);
      reflexivity.
  - refine (proj2 (proj2 (proj2
      (retry_wrappers_back_off_and_rethrow (fun _ => Failed) _))) _ _ _ _ _ _);
      reflexivity.
Defined.


Lemma load_validates_sizes_witness :
  exists out,
    loadBoth (world_with_labels [1; 0; 0]) = Ok (Some out, Some [1; 0; 0])
    /\ load (world_with_labels [1; 0; 0]) constructor
       = (set_dataset (Some out) (Some [1; 0; 0]) constructor,
          Throw (Error "Failed to load MNIST dataset: Invalid label data size. Expected 650000, got 3")).
Proof.
  destruct white_canvas_decoded as (out & Hd & Hlen). exists out.
  pose proof (loadBoth_world_with_labels [1; 0; 0] out Hd) as Hb.
  split; [exact Hb|].
  destruct (proj2 (load_validates_sizes _ constructor _ _ Hb))
    as (e & Hv & Hl & _).
  - intros [_ H]. discriminate H.
  - rewrite (validateData_label_size
               (set_dataset (Some out) (Some [1; 0; 0]) constructor)
               out [1; 0; 0] eq_refl eq_refl Hlen)
      in Hv by discriminate.
    cbn [snd] in Hv. injection Hv as <-. exact Hl.
Defined.

Lemma load_splits_corpus_witness :
  exists this' trImages teImages,
    load (world_with_labels full_labels) constructor = (this', Ok tt)
    /\ trainImages this' = Some trImages
    /\ testImages this' = Some teImages
    /\ datasetImages this' = Some (trImages ++ teImages)
    /\ Js.length trImages = 784 * 54166
    /\ Js.length teImages = 784 * 10834.
Proof.
  destruct full_dataset_loads as (this' & Hl).
  destruct (load_splits_corpus _ _ _ Hl)
    as (_ & _ & dI & dL & trI & teI & trL & teL
        & HdI & _ & HtrI & HteI & _ & _ & HsI & _ & HlI & HlE & _).
  exists this', trI, teI. subst dI.
  repeat (split; [assumption|]). assumption.
Defined.

Lemma cursors_stay_inside_permutations_witness :
  exists this cTrain cTest,
    load (world_with_labels full_labels) constructor = (this, Ok tt)
    /\ (let this' :=
          after_calls
            [NextTrainBatch 5500; NextTestBatch 1000; NextTrainBatch 60000]
            this in
        shuffledTrainIndex this' = Num cTrain /\ 0 <= cTrain < 54166
        /\ shuffledTestIndex this' = Num cTest /\ 0 <= cTest < 10834).
Proof.
  destruct full_dataset_loads as (this & Hl).
  destruct (cursors_stay_inside_permutations (world_with_labels full_labels)
              this
              [NextTrainBatch 5500; NextTestBatch 1000; NextTrainBatch 60000]
              Hl)
    as (cT & cS & _ & _ & HT & HrT & HS & HrS & _).
  - apply unshuffled_length. rewrite NUM_TRAIN_ELEMENTS_eq. lia.
  - apply unshuffled_length. rewrite NUM_TEST_ELEMENTS_eq. lia.
  - exists this, cT, cS. split; [exact Hl|]. cbv zeta.
    split; [exact HT|]. split; [exact HrT|]. split; [exact HS | exact HrS].
Defined.

Lemma retry_stops_at_first_success_witness :
  loadLabelsWithRetry 5
    (fun attempt =>
       if attempt <? 4 then Response false 503 (Ok [])
       else Response true 200 (Ok (one_hot 2)))
  = ([Attempt 1; Delay 1000; Attempt 2; Delay 2000; Attempt 3; Delay 3000;
      Attempt 4],
     Ok (Some (one_hot 2))).
Proof.
  refine (proj1 (proj2
    (retry_stops_at_first_success 5 4 (fun _ => Failed) _ ltac:(lia))) _ _ _).
  - intros i Hi. eexists.
    destruct (Z.ltb_spec i 4); [reflexivity | lia].
  - reflexivity.
Defined.

Lemma retry_throws_last_error_witness :
  loadLabelsWithRetry 2 (fun attempt => Response false (500 + attempt) (Ok []))
  = ([Attempt 1; Delay 1000; Attempt 2],
     Throw (Error "Failed to load MNIST labels: HTTP error! status: 502")).
Proof.
  refine (proj1 (proj2
    (retry_throws_last_error 2 (fun _ => Failed) _
       (fun i => Error ("Failed to load MNIST labels: HTTP error! status: "
                        ++ to_string (500 + i)))
       ltac:(lia))) _).
  intros i Hi. reflexivity.
Defined.

Lemma retry_without_attempts_witness :
  loadImagesWithRetry 0 (fun _ => Loaded white_canvas) = ([], Ok None)
  /\ loadLabelsWithRetry 0 (fun _ => Response true 200 (Ok [])) = ([], Ok None).
Proof.
  exact (retry_without_attempts 0 _ _ ltac:(lia)).
Defined.

Lemma batch_of_no_example_witness :
  nextTrainBatch (-1) constructor
  = (constructor, Throw (RangeError "Invalid typed array length"))
  /\ nextTestBatch 0 constructor
     = (constructor, Ok {| xs := {| values := []; shape := (0, 784) |};
                           labels := {| values := []; shape := (0, 10) |} |}).
Proof.
  split.
  - exact (proj1 (batch_of_no_example Train constructor (-1)) ltac:(lia)).
  - exact (proj2 (batch_of_no_example Test constructor 0)).
Defined.

Lemma batch_before_load_throws_witness :
  nextTrainBatch 512 constructor
  = (constructor, Throw (TypeError "Cannot read properties of null"))
  /\ nextTrainBatch 1152921504606846976 constructor
     = (constructor, Throw (RangeError "Invalid typed array length")).
Proof.
  split.
  - exact (proj1 (batch_before_load_throws Train constructor 512 eq_refl
                    ltac:(lia))
             (batch_allocates 512 ltac:(unfold NUM_DATASET_ELEMENTS; lia))).
  - apply (proj2 (batch_before_load_throws Train constructor
                    1152921504606846976 eq_refl ltac:(lia))).
    intros Ha. apply allocates_safe in Ha.
    unfold MAX_SAFE_INTEGER, IMAGE_SIZE in Ha. lia.
Defined.

Lemma consecutive_batches_concatenate_witness :
  exists this1 this2 b1 b2 b,
    next_batch Train 4 six = (this1, Ok b1)
    /\ next_batch Train 5 this1 = (this2, Ok b2)
    /\ next_batch Train 9 six = (this2, Ok b)
    /\ values (xs b) = values (xs b1) ++ values (xs b2)
    /\ values (labels b) = values (labels b1) ++ values (labels b2).
Proof.
  exact (consecutive_batches_concatenate Train six [3; 0; 5; 2; 4; 1]
           (example_images 6) (example_labels 6) 0 4 5
           six_train_populated ltac:(lia) ltac:(lia)
           (batch_allocates (4 + 5) ltac:(unfold NUM_DATASET_ELEMENTS; lia))).
Defined.

Lemma train_and_test_batches_commute_witness :
  exists thisT thisS this' bT bS,
    nextTrainBatch 4 six = (thisT, Ok bT)
    /\ nextTestBatch 3 thisT = (this', Ok bS)
    /\ nextTestBatch 3 six = (thisS, Ok bS)
    /\ nextTrainBatch 4 thisS = (this', Ok bT).
Proof.
  exact (train_and_test_batches_commute six _ _ _ _ _ _ _ _ 4 3
           six_train_populated six_test_populated ltac:(lia) ltac:(lia)
           (batch_allocates 4 ltac:(unfold NUM_DATASET_ELEMENTS; lia))
           (batch_allocates 3 ltac:(unfold NUM_DATASET_ELEMENTS; lia))).
Defined.

Lemma passes_use_every_example_equally_witness :
  next_batch Train 6 six
  = (six, Ok (batch_of [3; 0; 5; 2; 4; 1]
                (example_images 6) (example_labels 6) 0 6))
  /\ count_occ Z.eq_dec (drawn [3; 0; 5; 2; 4; 1] 0 (3 * 6)) 5 = 3%nat.
Proof.
  destruct (passes_use_every_example_equally Train six [3; 0; 5; 2; 4; 1]
              (example_images 6) (example_labels 6) 0
              six_train_populated six_shuffle)
    as (Hpass & _ & _ & Hcount).
  split; [|apply (Hcount 3%nat 5); cbn; lia].
  apply Hpass. apply allocates_within_corpus; [lia|].
  vm_compute. discriminate.
Defined.

Lemma canvas_failure_rejects_images_witness :
  loadImages (Loaded (tainted_canvas 7))
  = Throw (Error "Failed to process images: The canvas has been tainted by cross-origin data.").
Proof.
  refine (proj2 (canvas_failure_rejects_images (tainted_canvas 7) 7 _
                   ltac:(lia) _ eq_refl)).
  intros q Hq. eexists. unfold tainted_canvas.
  destruct (Z.eqb_spec q 7); [lia | reflexivity].
Defined.

Lemma loadImages_returns_whole_corpus_witness :
  exists out,
    loadImages (Loaded white_canvas) = Ok out
    /\ Js.length out = 65000 * 784.
Proof.
  destruct white_canvas_decoded as (out & Hd & _).
  assert (Hrun : loadImages (Loaded white_canvas) = Ok out)
    by (rewrite loadImages_Loaded, Hd; reflexivity).
  destruct (loadImages_returns_whole_corpus _ _ Hrun) as (canvas & _ & _ & Hlen).
  exists out. split; assumption.
Defined.

Lemma chunks_decode_independently_witness :
  exists out out',
    decodeSprite NUM_DATASET_ELEMENTS white_canvas = Ok out
    /\ decodeSprite NUM_DATASET_ELEMENTS
         (fun q => if q =? 3 then Ok [0; 0; 0; 255] else white_canvas q)
       = Ok out'
    /\ get out (Num (4 * 5000 * 784 + 0)) = get out' (Num (4 * 5000 * 784 + 0)).
Proof.
  destruct (chunks_decode_independently NUM_DATASET_ELEMENTS white_canvas
              (fun q => if q =? 3 then Ok [0; 0; 0; 255] else white_canvas q)
              (fun _ => repeat 255 (Z.to_nat (4 * IMAGE_SIZE * chunkSize)))
              (fun q => if q =? 3 then [0; 0; 0; 255]
                        else repeat 255 (Z.to_nat (4 * IMAGE_SIZE * chunkSize)))
              3 ltac:(unfold NUM_DATASET_ELEMENTS; lia) eq_refl
              corpus_allocates (fun q _ => eq_refl))
    as (out & out' & Hrun & Hrun' & _ & Hsame).
  - intros q _. destruct (q =? 3); reflexivity.
  - intros q Hq. destruct (Z.eqb_spec q 3); [contradiction | reflexivity].
  - exists out, out'. split; [exact Hrun|]. split; [exact Hrun'|].
    apply Hsame; [|lia|lia].
    change (NUM_DATASET_ELEMENTS / chunkSize) with 13. lia.
Defined.

Lemma load_validation_fails_on_labels_only_witness :
  snd (load (world_with_labels []) constructor)
  = Throw (Error "Failed to load MNIST dataset: Dataset labels are empty or invalid").
Proof.
  destruct white_canvas_decoded as (out & Hd & _).
  destruct (load_validation_fails_on_labels_only (world_with_labels [])
              constructor _ _ (loadBoth_world_with_labels [] out Hd))
    as (out' & lbls & _ & Hl & _ & _ & Hfail).
  injection Hl as <-. apply Hfail. discriminate.
Defined.

Lemma load_reports_last_failure_witness :
  load (world_with_status 404) constructor
  = (constructor,
     Throw (Error "Failed to load MNIST dataset: Failed to load MNIST labels: HTTP error! status: 404")).
Proof.
  destruct white_canvas_decoded as (out & Hd & _).
  refine (proj1 (load_reports_last_failure (world_with_status 404) constructor
                   (fun _ => Error "Failed to load MNIST labels: HTTP error! status: 404"))
            (fun i _ => eq_refl) _).
  exists (Some out). unfold loadImagesWithRetry.
  change (Z.to_nat MAX_RETRIES) with 3%nat.
  rewrite (retry_loop_first_time _ out); [reflexivity|].
  cbn [images world_with_status]. rewrite loadImages_Loaded, Hd. reflexivity.
Defined.

Lemma load_keeps_sampler_state_witness :
  populated Train (fst (load (world_with_labels [1; 0; 0]) six))
    [3; 0; 5; 2; 4; 1] (example_images 6) (example_labels 6) 0.
Proof.
  refine (proj2 (proj2 (load_keeps_sampler_state
                          (world_with_labels [1; 0; 0]) six))
            _ Train _ _ _ _ six_train_populated).
  destruct white_canvas_decoded as (out & Hd & Hlen).
  rewrite (load_after_both _ six _ _ (loadBoth_world_with_labels [1; 0; 0] out Hd)).
  cbn [snd].
  destruct (install_refused (Some out) (Some [1; 0; 0])
              (world_with_labels [1; 0; 0]) six) as (e & _ & ->).
  - intros [_ H]. discriminate H.
  - discriminate.
Defined.

Lemma loaded_batches_are_normalized_witness :
  exists this this' b,
    load (world_with_labels full_labels) constructor = (this, Ok tt)
    /\ next_batch Test 1000 (after_calls [NextTrainBatch 5500] this)
       = (this', Ok b)
    /\ Forall normalized (values (xs b)).
Proof.
  destruct full_dataset_loads as (this & Hl).
  destruct (loaded_batches_are_normalized (world_with_labels full_labels)
              this [NextTrainBatch 5500] Test 1000 Hl
              (world_with_labels_bytes full_labels)
              (unshuffled_shuffle _) (unshuffled_shuffle _) ltac:(lia)
              (batch_allocates 1000 ltac:(unfold NUM_DATASET_ELEMENTS; lia)))
    as (this' & b & Hrun & _ & Hnorm).
  exists this, this', b. split; [exact Hl|]. split; [exact Hrun | exact Hnorm].
Defined.

Lemma batches_keep_to_their_partition_witness :
  exists this dImages thisT bT idxT thisS bS idxS,
    load (world_with_labels full_labels) constructor = (this, Ok tt)
    /\ nextTrainBatch 5500 this = (thisT, Ok bT)
    /\ values (xs bT) = flat_map (record_at IMAGE_SIZE dImages) idxT
    /\ Forall (fun idx => 0 <= idx < 54166) idxT
    /\ nextTestBatch 1000 this = (thisS, Ok bS)
    /\ values (xs bS) = flat_map (record_at IMAGE_SIZE dImages) idxS
    /\ Forall (fun idx => 54166 <= idx < 65000) idxS.
Proof.
  destruct full_dataset_loads as (this & Hl).
  destruct (batches_keep_to_their_partition (world_with_labels full_labels)
              this [] 5500 1000 Hl
              (unshuffled_shuffle _) (unshuffled_shuffle _)
              ltac:(lia) ltac:(lia)
              (batch_allocates 5500 ltac:(unfold NUM_DATASET_ELEMENTS; lia))
              (batch_allocates 1000 ltac:(unfold NUM_DATASET_ELEMENTS; lia)))
    as (dI & dL & thisT & bT & idxT & thisS & bS & idxS
        & _ & _ & HT & HxT & _ & HiT & HS & HxS & _ & HiS).
  exists this, dI, thisT, bT, idxT, thisS, bS, idxS.
  split; [exact Hl|]. split; [exact HT|]. split; [exact HxT|].
  split; [exact HiT|]. split; [exact HS|]. split; [exact HxS | exact HiS].
Defined.

Lemma trainModel_prepares_distinct_examples_witness :
  exists this this' d,
    load (world_with_labels full_labels) constructor = (this, Ok tt)
    /\ prepareData this = (this', Ok d)
    /\ shape4 (trainXs d) = (5500, 28, 28, 1)
    /\ shape4 (testXs d) = (1000, 28, 28, 1)
    /\ shuffledTrainIndex this' = Num 5500
    /\ shuffledTestIndex this' = Num 1000.
Proof.
  destruct full_dataset_loads as (this & Hl).
  destruct (trainModel_prepares_distinct_examples
              (world_with_labels full_labels) this Hl
              (unshuffled_shuffle _) (unshuffled_shuffle _))
    as (this' & d & trI & trL & teI & teL & idxT & idxS & Hrun & HsT & _ & HsS
        & _ & _ & _ & _ & _ & _ & _ & _ & _ & _ & _ & _ & _ & _ & _ & HcT & HcS).
  exists this, this', d.
  split; [exact Hl|]. split; [exact Hrun|]. split; [exact HsT|].
  split; [exact HsS|]. split; [exact HcT | exact HcS].
Defined.

Lemma retraining_draws_fresh_examples_witness :
  exists this this1 d1 this2 d2,
    load (world_with_labels full_labels) constructor = (this, Ok tt)
    /\ prepareData this = (this1, Ok d1)
    /\ prepareData this1 = (this2, Ok d2)
    /\ shuffledTrainIndex this2 = Num 11000
    /\ shuffledTestIndex this2 = Num 2000.
Proof.
  destruct full_dataset_loads as (this & Hl).
  destruct (retraining_draws_fresh_examples
              (world_with_labels full_labels) this Hl
              (unshuffled_shuffle _) (unshuffled_shuffle _))
    as (this1 & d1 & this2 & d2 & trI & teI & i1 & i2 & s1 & s2
        & H1 & H2 & _ & _ & _ & _ & _ & _ & _ & _ & HcT & HcS).
  exists this, this1, d1, this2, d2.
  split; [exact Hl|]. split; [exact H1|]. split; [exact H2|].
  split; [exact HcT | exact HcS].
Defined.

Lemma classified_image_is_current_canvas_witness :
  let evs := [MouseDown example_pointer; MouseMove example_pointer; MouseUp;
              PenSizeInput (Num 30)] in
  isDrawing (after_events example_page evs) = false /\
  snd (classifyDrawing (Ok tt) (after_events example_page evs))
  = Some (Some (ctx (after_events example_page evs))) /\
  Some (ctx (after_events example_page evs))
  = Some (ctx (after_events example_page evs)).
Proof.
  intros evs. split; [reflexivity |]. split; [reflexivity |].
  apply (classified_image_is_current_canvas example_page evs (Ok tt));
    reflexivity.
Defined.

Lemma press_without_move_enables_classify_witness :
  hasDrawn (canvas_ready example_page) = false /\
  let s' := handleMouseUp
              (handleMouseDown example_pointer (canvas_ready example_page)) in
  classifyBtn_disabled s' = false /\
  canvasOverlay_hidden s' = true /\
  hasDrawn s' = false /\
  stroked_since_fill (ctx s') = stroked_since_fill (ctx (canvas_ready example_page)) /\
  classifyDrawing (Ok tt) s'
  = (showToast "Not Ready" "Please draw a digit first" "error" s', None).
Proof.
  split; [reflexivity |].
  apply (press_without_move_enables_classify
           (canvas_ready example_page) example_pointer (Ok tt)).
  reflexivity.
Defined.
